(** * Legal RAG system: retrieval, link store, ingestion and scoring

    A shallow embedding of the parts of the repository that the
    specification's testable properties talk about:

    - [Py]: the fragment of Python the sources rely on (exceptions,
      truthiness, slices, stable sorting, insertion-ordered dicts);
    - [Models]: the [documents] and [interpretation_links] tables with
      their CHECK / UNIQUE constraints as declared in
      [src/database/models/interpretation_link.py], [src/database/models.py]
      and the Alembic migration;
    - [SynthesisScorer]: the weighted section score;
    - [Pipeline]: [StandardIngestionPipeline.__init__];
    - [Retrieval]: [HybridRetriever] (BM25 + dense + interpretation boost
      + diversification) and the two helpers of
      [InterpretationAwareRetriever] that filter and cap links;
    - [Loader]: [PostgresLoader] on a session with pending rows.

    Scores are Python floats in the sources; they are modelled as exact
    rationals ([Q]), so every statement below is about the arithmetic the
    code writes down, not about rounding. *)

From Stdlib Require Import List String ZArith QArith Bool Lia Lqa Permutation.
From Stdlib Require Import Sorted DecimalString.
Import ListNotations.

Set Implicit Arguments.

(* ====================================================================== *)
(** * Python prelude *)
(* ====================================================================== *)

Module Py.

(** Exceptions that the modelled code raises or catches. *)
Inductive PyExn : Type :=
| Exception (msg : string)
| NameError (name : string)
| ValueError (msg : string)
| IntegrityError (msg : string).

(** The outcome of a call: a value or a raised exception. *)
Inductive res (A : Type) : Type :=
| Ok (a : A)
| Raise (e : PyExn).
Arguments Ok {A} a.
Arguments Raise {A} e.

Definition res_bind {A B} (m : res A) (f : A -> res B) : res B :=
  match m with
  | Ok a => f a
  | Raise e => Raise e
  end.

(** An f-string: its pieces, concatenated. *)
Definition fstring (parts : list string) : string := String.concat "" parts.

(** Membership of a string in a list of strings ([x in xs]). *)
Definition mem (x : string) (xs : list string) : bool :=
  existsb (String.eqb x) xs.

(** [l[:k]] for a Python int [k]: a negative bound counts from the end. *)
Definition slice_to {A} (l : list A) (k : Z) : list A :=
  if (k <? 0)%Z
  then firstn (List.length l - Z.to_nat (- k)) l
  else firstn (Z.to_nat k) l.

(** [k or default] on an optional int: [None] and [0] are falsy. *)
Definition int_or (k : option Z) (default : Z) : Z :=
  match k with
  | None => default
  | Some z => if (z =? 0)%Z then default else z
  end.

(** [sum(xs)]: left to right from 0. *)
Definition sum (xs : list Q) : Q := fold_left Qplus xs 0%Q.

(** [min(xs)] and [max(xs)] on a non-empty list given as head and tail:
    the first extremal element wins, as in Python. *)
Definition min_list (x : Q) (xs : list Q) : Q :=
  fold_left (fun m y => if Qle_bool m y then m else y) xs x.
Definition max_list (x : Q) (xs : list Q) : Q :=
  fold_left (fun m y => if Qle_bool y m then m else y) xs x.

Section Sorted.
Context {A : Type}.

(** A stable sort: [geb x y] says that [x] may stand before [y]; an
    element is inserted before the first element it may stand before, so
    elements that compare equal keep their original relative order. *)
Fixpoint insert_by (geb : A -> A -> bool) (x : A) (l : list A) : list A :=
  match l with
  | [] => [x]
  | y :: l' =>
      if geb x y then x :: y :: l'
      else y :: insert_by geb x l'
  end.

Fixpoint sort_by (geb : A -> A -> bool) (l : list A) : list A :=
  match l with
  | [] => []
  | x :: l' => insert_by geb x (sort_by geb l')
  end.

(** [sorted(xs, key=key, reverse=True)]: descending by key, stable. *)
Definition sorted_desc (key : A -> Q) (l : list A) : list A :=
  sort_by (fun x y => Qle_bool (key y) (key x)) l.

End Sorted.

Section Dict.
Context {V : Type}.

(** A [dict] keyed by strings.  Iteration order ([values()], [items()])
    is insertion order, and the code sorts and appends in that order, so
    the dict is an association list with unique keys. *)
Definition dict := list (string * V).

Fixpoint dict_get (d : dict) (k : string) : option V :=
  match d with
  | [] => None
  | (k', v) :: d' => if String.eqb k k' then Some v else dict_get d' k
  end.

Definition dict_mem (d : dict) (k : string) : bool :=
  match dict_get d k with Some _ => true | None => false end.

(** [d[k] = v]: overwrite in place, or append a new key at the end. *)
Fixpoint dict_set (d : dict) (k : string) (v : V) : dict :=
  match d with
  | [] => [(k, v)]
  | (k', v') :: d' =>
      if String.eqb k k' then (k', v) :: d'
      else (k', v') :: dict_set d' k v
  end.

Definition dict_values (d : dict) : list V := map snd d.

End Dict.

Arguments dict V : clear implicits.

(** ** Calls with observable effects

    The retriever talks to Elasticsearch, the embedding service, FAISS and
    the database.  A computation yields its outcome together with the
    requests it issued, in order.  The stores themselves are read-only
    snapshots during a query, so no state is threaded; a request to the
    database is answered from the snapshot unless the database raises on
    it (connection lost, undefined column, ...). *)
Inductive Event : Type :=
| EsSearch (index query : string) (size : Z)
| EmbeddingsCreate (model input : string)
| FaissSearch (k : Z)
| QueryDocument (doc_id : string)
| QueryInterpretationLinks (statute_ids : list string).

Definition IO (A : Type) : Type := (res A * list Event)%type.

Definition ret {A} (a : A) : IO A := (Ok a, []).

Definition bind {A B} (m : IO A) (f : A -> IO B) : IO B :=
  match m with
  | (Ok a, t) => let (r, t') := f a in (r, t ++ t')
  | (Raise e, t) => (Raise e, t)
  end.

(** A call to an external service: the request is issued, then the
    service answers or raises. *)
Definition call {A} (e : Event) (answer : res A) : IO A := (answer, [e]).

(** [raise e], with no request. *)
Definition raise {A} (e : PyExn) : IO A := (Raise e, []).

(** [try: m except Exception as e: h e]. *)
Definition try_except {A} (m : IO A) (h : PyExn -> IO A) : IO A :=
  match m with
  | (Ok a, t) => (Ok a, t)
  | (Raise e, t) => let (r, t') := h e in (r, t ++ t')
  end.

(** [for x in xs: acc = body acc x], with effects. *)
Fixpoint for_each {A B} (xs : list A) (acc : B) (body : B -> A -> IO B) : IO B :=
  match xs with
  | [] => ret acc
  | x :: xs' => bind (body acc x) (fun acc' => for_each xs' acc' body)
  end.

Definition outcome {A} (m : IO A) : res A := fst m.
Definition requests {A} (m : IO A) : list Event := snd m.

(** [P] holds of the value, when there is one. *)
Definition if_ok {A} (P : A -> Prop) (r : res A) : Prop :=
  match r with
  | Ok a => P a
  | Raise _ => True
  end.

End Py.

Declare Scope io_scope.
Delimit Scope io_scope with io.
Notation "x <- m ;; k" := (Py.bind m (fun x => k))
  (at level 61, m at next level, right associativity) : io_scope.
Notation "m ;;; k" := (Py.bind m (fun _ => k))
  (at level 61, right associativity) : io_scope.


(* ====================================================================== *)
(** * The relational store: documents and interpretation links *)
(* ====================================================================== *)

Module Sql.
Import Py.

(** SQL expressions are three-valued: [None] is NULL / unknown. *)
Definition sql_bool : Type := option bool.

Definition sql_and (a b : sql_bool) : sql_bool :=
  match a, b with
  | Some false, _ => Some false
  | _, Some false => Some false
  | Some true, Some true => Some true
  | _, _ => None
  end.

Definition sql_or (a b : sql_bool) : sql_bool :=
  match a, b with
  | Some true, _ => Some true
  | _, Some true => Some true
  | Some false, Some false => Some false
  | _, _ => None
  end.

Definition sql_ge (a b : option Q) : sql_bool :=
  match a, b with
  | Some x, Some y => Some (Qle_bool y x)
  | _, _ => None
  end.

Definition sql_le (a b : option Q) : sql_bool :=
  match a, b with
  | Some x, Some y => Some (Qle_bool x y)
  | _, _ => None
  end.

Definition sql_is_null {A} (a : option A) : sql_bool :=
  match a with
  | None => Some true
  | Some _ => Some false
  end.

Definition sql_in (a : option string) (vals : list string) : sql_bool :=
  option_map (fun x => mem x vals) a.

Definition sql_is_true (a : option bool) : sql_bool := a.

(** A CHECK constraint rejects a row only when its expression is FALSE. *)
Definition check_holds (b : sql_bool) : bool :=
  match b with
  | Some false => false
  | _ => true
  end.

(** A WHERE clause keeps a row only when its expression is TRUE. *)
Definition where_holds (b : sql_bool) : bool :=
  match b with
  | Some true => true
  | _ => false
  end.

(** [x BETWEEN lo AND hi] written as the sources write it:
    [x >= lo AND x <= hi]. *)
Definition in_range (x : option Q) (lo hi : Q) : sql_bool :=
  sql_and (sql_ge x (Some lo)) (sql_le x (Some hi)).

End Sql.

(** A row of [documents] ([database/models/document.py]).  The columns
    that carry a constraint or that the retriever and the loader read are
    kept; the remaining columns are free-form metadata copied verbatim. *)
Module Document.
Record t : Type := mk {
  id : string;                (* primary key *)
  doc_type : string;          (* NOT NULL *)
  parent_id : option string;  (* FOREIGN KEY documents.id *)
  level : Z;                  (* NOT NULL, ck_valid_level *)
  title : option string;
  citation : option string;
  full_text : string;         (* NOT NULL *)
  hash : option string        (* UNIQUE *)
}.
End Document.

(** A row of [interpretation_links], as the migration creates the table
    (the raw-SQL insert scripts write to it): [boost_factor] is NOT NULL
    there and in [interpretation_link.py], the score columns and
    [verified] are nullable.  [models.py] alone declares [boost_factor]
    without NOT NULL; a row with a NULL boost factor, which only a table
    created from that class could hold, is not modelled. *)
Module InterpretationLink.
Record t : Type := mk {
  statute_id : string;
  case_id : string;
  interpretation_type : string;
  authority : string;
  boost_factor : Q;
  applicability_score : option Q;
  confidence : option Q;      (* [extraction_confidence] in interpretation_link.py *)
  extraction_method : option string;
  verified : option bool
}.
End InterpretationLink.

Module Models.
Import Py Sql.
Import InterpretationLink.
Local Open Scope Q_scope.

Definition interpretation_types : list string :=
  ["NARROW"; "BROAD"; "CLARIFY"; "PURPOSIVE"; "LITERAL"; "APPLY"]%string.
Definition authorities : list string :=
  ["BINDING"; "PERSUASIVE"; "OBITER"; "DISSENT"]%string.
Definition extraction_methods : list string :=
  ["RULE_BASED"; "LLM_ASSISTED"; "MANUAL"]%string.

(** [src/database/models/interpretation_link.py], [__table_args__]:
    the class that [hybrid_retriever.py] imports. *)
Module LinkModel.
Definition ck_valid_boost_factor (l : t) : sql_bool :=
  in_range (Some (boost_factor l)) 1.0 5.0.
Definition ck_valid_applicability_score (l : t) : sql_bool :=
  sql_or (sql_is_null (applicability_score l))
         (in_range (applicability_score l) 0 1).
Definition ck_valid_confidence (l : t) : sql_bool :=
  sql_or (sql_is_null (confidence l)) (in_range (confidence l) 0 1).
(** [verified = Column(Boolean, nullable=False, ...)]. *)
Definition not_null (l : t) : bool :=
  match verified l with Some _ => true | None => false end.
Definition admits (l : t) : bool :=
  forallb check_holds
    [ck_valid_boost_factor l; ck_valid_applicability_score l; ck_valid_confidence l]
  && not_null l.
End LinkModel.

(** [src/database/models.py], [InterpretationLink.__table_args__]. *)
Module FlatModel.
Definition valid_interpretation_type (l : t) : sql_bool :=
  sql_in (Some (interpretation_type l)) interpretation_types.
Definition valid_authority (l : t) : sql_bool :=
  sql_in (Some (authority l)) authorities.
Definition valid_boost_factor (l : t) : sql_bool :=
  in_range (Some (boost_factor l)) 1.0 3.0.
Definition valid_confidence (l : t) : sql_bool :=
  in_range (confidence l) 0.0 1.0.
Definition admits (l : t) : bool :=
  forallb check_holds
    [valid_interpretation_type l; valid_authority l; valid_boost_factor l;
     valid_confidence l].
End FlatModel.

(** [alembic/versions/97f81a11bea9_create_interpretation_links_table.py]. *)
Module Migration.
Definition check_interpretation_type (l : t) : sql_bool :=
  sql_in (Some (interpretation_type l)) interpretation_types.
Definition check_authority (l : t) : sql_bool :=
  sql_in (Some (authority l)) authorities.
Definition check_extraction_method (l : t) : sql_bool :=
  sql_in (extraction_method l) extraction_methods.
Definition check_confidence_range (l : t) : sql_bool :=
  in_range (confidence l) 0 1.
Definition check_applicability_range (l : t) : sql_bool :=
  in_range (applicability_score l) 0 1.
Definition check_boost_factor_range (l : t) : sql_bool :=
  in_range (Some (boost_factor l)) 1.0 3.0.
Definition admits (l : t) : bool :=
  forallb check_holds
    [check_interpretation_type l; check_authority l; check_extraction_method l;
     check_confidence_range l; check_applicability_range l;
     check_boost_factor_range l].
End Migration.

(** The unique index on [(statute_id, case_id)], declared by all three. *)
Definition same_pair (l l' : t) : bool :=
  String.eqb (statute_id l) (statute_id l') && String.eqb (case_id l) (case_id l').

Definition unique_statute_case_pair (store : list t) (l : t) : bool :=
  negb (existsb (same_pair l) store).

(** INSERT of one link into a table whose row constraints are [admits]. *)
Definition insert_link (admits : t -> bool) (store : list t) (l : t) : res (list t) :=
  if admits l && unique_statute_case_pair store l
  then Ok (store ++ [l])
  else Raise (IntegrityError "interpretation_links").

(** A link as the extraction jobs write it, but with a boost of 4.0. *)
Definition link_boost_4 : t :=
  {| statute_id := "sg_statute_misrep_act_s2";
     case_id := "sg_case_2013_sgca_36_para_45";
     interpretation_type := "NARROW";
     authority := "BINDING";
     boost_factor := 4.0;
     applicability_score := Some 0.8;
     confidence := Some 0.9;
     extraction_method := Some "MANUAL"%string;
     verified := Some true |}.

(** The same link with the stored boost of 2.8 and an applicability
    score of 1.5. *)
Definition link_applicability_above_1 : t :=
  {| statute_id := "sg_statute_misrep_act_s2";
     case_id := "sg_case_2013_sgca_36_para_45";
     interpretation_type := "NARROW";
     authority := "BINDING";
     boost_factor := 2.8;
     applicability_score := Some 1.5;
     confidence := Some 0.9;
     extraction_method := Some "MANUAL"%string;
     verified := Some true |}.

End Models.

(* ====================================================================== *)
(** * Synthesis scorer *)
(* ====================================================================== *)

Module SynthesisScorer.
Local Open Scope Q_scope.

(** The four section scores of an answer, each in [0, 1]. *)
Record SectionScores : Type := {
  statute_score : Q;
  interpretation_score : Q;
  synthesis_score : Q;
  practical_effect_score : Q
}.

Definition in_unit (x : Q) : Prop := 0 <= x /\ x <= 1.

Definition well_scored (s : SectionScores) : Prop :=
  in_unit (statute_score s) /\ in_unit (interpretation_score s) /\
  in_unit (synthesis_score s) /\ in_unit (practical_effect_score s).

(** Modelled from the spec: [validation/synthesis_quality_scorer.py]
    ([SynthesisQualityScorer.score_answer]) is imported by
    [examples/synthesis_scoring_examples.py] but is not among the sources.
    The spec gives [overall = sum of weight_i * section_score_i] with
    weights 0.25 (statute), 0.25 (interpretation), 0.30 (synthesis) and
    0.20 (practical effect). *)
Definition overall_score (s : SectionScores) : Q :=
  0.25 * statute_score s + 0.25 * interpretation_score s
  + 0.30 * synthesis_score s + 0.20 * practical_effect_score s.

(** Modelled from the spec: the pass flag of the missing scorer,
    [passed = overall >= 0.70]. *)
Definition passed (s : SectionScores) : bool :=
  Qle_bool 0.70 (overall_score s).

(** Three perfect sections and no synthesis section. *)
Definition three_perfect_sections : SectionScores :=
  {| statute_score := 1; interpretation_score := 1;
     synthesis_score := 0; practical_effect_score := 1 |}.

(** Three good (0.9) sections and no synthesis section. *)
Definition three_good_sections : SectionScores :=
  {| statute_score := 0.9; interpretation_score := 0.9;
     synthesis_score := 0; practical_effect_score := 0.9 |}.

End SynthesisScorer.

(* ====================================================================== *)
(** * Ingestion pipeline: construction *)
(* ====================================================================== *)

Module Pipeline.
Import Py.
Local Open Scope string_scope.

(** Python values, as far as [__init__] inspects them: it only tests
    truthiness and calls classes. *)
Inductive PyObj : Type :=
| PyNone
| PyInt (n : Z)
| PyStr (s : string)
| PyClass (name : string)
| PyObject (class_name : string) (falsy : bool).

(** [bool(o)].  An instance is truthy unless its class says otherwise
    ([__bool__] / [__len__]), which [falsy] records. *)
Definition truthy (o : PyObj) : bool :=
  match o with
  | PyNone => false
  | PyInt n => negb (n =? 0)%Z
  | PyStr s => negb (String.eqb s "")
  | PyClass _ => true
  | PyObject _ falsy => negb falsy
  end.

(** Calling a class with no arguments.  [StatuteParser()] and
    [CaseParser()] take an optional config and do not raise. *)
Definition py_call (f : PyObj) : res PyObj :=
  match f with
  | PyClass name => Ok (PyObject name false)
  | _ => Raise (Exception "TypeError: object is not callable")
  end.

(** The names bound at module level in [src/ingestion/pipeline.py]:
    its imports, [logger], the class and the three helper functions. *)
Definition module_globals : dict PyObj :=
  [("__name__", PyStr "src.ingestion.pipeline");
   ("__doc__", PyStr "Main ingestion pipeline orchestrator.");
   ("__package__", PyStr "src.ingestion");
   ("__file__", PyStr "src/ingestion/pipeline.py");
   ("__builtins__", PyObject "module" false);
   ("__spec__", PyObject "ModuleSpec" false);
   ("__loader__", PyObject "SourceFileLoader" false);
   ("logging", PyObject "module" false);
   ("Optional", PyObject "_SpecialForm" false);
   ("List", PyObject "_GenericAlias" false);
   ("datetime", PyClass "datetime");
   ("SourceAdapter", PyClass "SourceAdapter");
   ("DocumentParser", PyClass "DocumentParser");
   ("DatabaseLoader", PyClass "DatabaseLoader");
   ("IngestionPipeline", PyClass "IngestionPipeline");
   ("SourceDocument", PyClass "SourceDocument");
   ("ParsedDocument", PyClass "ParsedDocument");
   ("IngestionResult", PyClass "IngestionResult");
   ("StatuteParser", PyClass "StatuteParser");
   ("CaseParser", PyClass "CaseParser");
   ("logger", PyObject "Logger" false);
   ("StandardIngestionPipeline", PyClass "StandardIngestionPipeline");
   ("run_ingestion", PyObject "function" false);
   ("ingest_from_filesystem", PyObject "function" false);
   ("ingest_sample_data", PyObject "function" false)].

(** The names of the [builtins] module (CPython 3). *)
Definition builtins : list string :=
  [
   "ArithmeticError"; "AssertionError"; "AttributeError"; "BaseException";
   "BaseExceptionGroup"; "BlockingIOError"; "BrokenPipeError";
   "BufferError"; "BytesWarning"; "ChildProcessError";
   "ConnectionAbortedError"; "ConnectionError"; "ConnectionRefusedError";
   "ConnectionResetError"; "DeprecationWarning"; "EOFError"; "Ellipsis";
   "EncodingWarning"; "EnvironmentError"; "Exception"; "ExceptionGroup";
   "False"; "FileExistsError"; "FileNotFoundError"; "FloatingPointError";
   "FutureWarning"; "GeneratorExit"; "IOError"; "ImportError";
   "ImportWarning"; "IndentationError"; "IndexError"; "InterruptedError";
   "IsADirectoryError"; "KeyError"; "KeyboardInterrupt"; "LookupError";
   "MemoryError"; "ModuleNotFoundError"; "NameError"; "None";
   "NotADirectoryError"; "NotImplemented"; "NotImplementedError"; "OSError";
   "OverflowError"; "PendingDeprecationWarning"; "PermissionError";
   "ProcessLookupError"; "RecursionError"; "ReferenceError";
   "ResourceWarning"; "RuntimeError"; "RuntimeWarning";
   "StopAsyncIteration"; "StopIteration"; "SyntaxError"; "SyntaxWarning";
   "SystemError"; "SystemExit"; "TabError"; "TimeoutError"; "True";
   "TypeError"; "UnboundLocalError"; "UnicodeDecodeError";
   "UnicodeEncodeError"; "UnicodeError"; "UnicodeTranslateError";
   "UnicodeWarning"; "UserWarning"; "ValueError"; "Warning";
   "ZeroDivisionError"; "__build_class__"; "__debug__"; "__doc__";
   "__import__"; "__loader__"; "__name__"; "__package__"; "__spec__"; "abs";
   "aiter"; "all"; "anext"; "any"; "ascii"; "bin"; "bool"; "breakpoint";
   "bytearray"; "bytes"; "callable"; "chr"; "classmethod"; "compile";
   "complex"; "copyright"; "credits"; "delattr"; "dict"; "dir"; "divmod";
   "enumerate"; "eval"; "exec"; "exit"; "filter"; "float"; "format";
   "frozenset"; "getattr"; "globals"; "hasattr"; "hash"; "help"; "hex";
   "id"; "input"; "int"; "isinstance"; "issubclass"; "iter"; "len";
   "license"; "list"; "locals"; "map"; "max"; "memoryview"; "min"; "next";
   "object"; "oct"; "open"; "ord"; "pow"; "print"; "property"; "quit";
   "range"; "repr"; "reversed"; "round"; "set"; "setattr"; "slice";
   "sorted"; "staticmethod"; "str"; "sum"; "super"; "tuple"; "type"; "vars";
   "zip"
  ].

(** Reading a bare name inside a function body: the function's own local
    variables first, then the module's globals, then the builtins; a name
    bound nowhere raises [NameError]. *)
Definition load_name (locals : dict PyObj) (name : string) : res PyObj :=
  match dict_get locals name with
  | Some v => Ok v
  | None =>
      match dict_get module_globals name with
      | Some v => Ok v
      | None =>
          if mem name builtins then Ok (PyObject "builtin" false)
          else Raise (NameError name)
      end
  end.

(** [a or b]: [b] is evaluated only when [a] is falsy. *)
Definition py_or (a b : res PyObj) : res PyObj :=
  res_bind a (fun x => if truthy x then Ok x else b).

Record StandardIngestionPipeline : Type := mk {
  source_adapter : PyObj;
  statute_parser : PyObj;
  case_parser : PyObj;
  rules_parser : PyObj;
  loader : PyObj;
  batch_size : PyObj
}.

(** [StandardIngestionPipeline.__init__].  The body binds no local name
    (it only assigns attributes of [self]), so its local variables are
    exactly its parameters. *)
Definition __init__ (source_adapter statute_parser case_parser loader batch_size : PyObj)
  : res StandardIngestionPipeline :=
  let locals : dict PyObj :=
    [("self", PyObject "StandardIngestionPipeline" false);
     ("source_adapter", source_adapter);
     ("statute_parser", statute_parser);
     ("case_parser", case_parser);
     ("loader", loader);
     ("batch_size", batch_size)] in
  (* self.source_adapter = source_adapter *)
  res_bind (load_name locals "source_adapter") (fun self_source_adapter =>
  (* self.statute_parser = statute_parser or StatuteParser() *)
  res_bind (py_or (load_name locals "statute_parser")
                  (res_bind (load_name locals "StatuteParser") py_call))
           (fun self_statute_parser =>
  (* self.case_parser = case_parser *)
  res_bind (load_name locals "case_parser") (fun self_case_parser =>
  (* self.rules_parser = rules_parser or CaseParser() *)
  res_bind (py_or (load_name locals "rules_parser")
                  (res_bind (load_name locals "CaseParser") py_call))
           (fun self_rules_parser =>
  (* self.loader = loader *)
  res_bind (load_name locals "loader") (fun self_loader =>
  (* self.batch_size = batch_size *)
  res_bind (load_name locals "batch_size") (fun self_batch_size =>
  (* if not self.loader: raise ValueError(...) *)
  if negb (truthy self_loader)
  then Raise (ValueError "Database loader is required")
  else Ok (mk self_source_adapter self_statute_parser self_case_parser
              self_rules_parser self_loader self_batch_size))))))).

Section RunIngestion.
(** [StandardIngestionPipeline.run], whatever it computes. *)
Context {IngestionResult : Type}.
Variable run : StandardIngestionPipeline -> res IngestionResult.

(** [run_ingestion]: construct the pipeline, then run it. *)
Definition run_ingestion (source_adapter loader statute_parser case_parser batch_size : PyObj)
  : res IngestionResult :=
  res_bind (__init__ source_adapter statute_parser case_parser loader batch_size)
           (fun pipeline => run pipeline).
End RunIngestion.

End Pipeline.

(* ====================================================================== *)
(** * Hybrid retriever *)
(* ====================================================================== *)

Module Retrieval.
Import Py Sql.
Local Open Scope string_scope.
Local Open Scope list_scope.
Local Open Scope Q_scope.
Local Open Scope io_scope.

(** [RetrievalConfig] of [hybrid_retriever.py]. *)
Record RetrievalConfig : Type := {
  top_k : Z;
  bm25_weight : Q;
  dense_weight : Q;
  lepard_weight : Q;
  max_interpretive_cases : Z;
  interpretation_boost_enabled : bool;
  diversification_enabled : bool
}.

Definition default_config : RetrievalConfig :=
  {| top_k := 10;
     bm25_weight := 0.4;
     dense_weight := 0.4;
     lepard_weight := 0.2;
     max_interpretive_cases := 3;
     interpretation_boost_enabled := true;
     diversification_enabled := true |}.

(** One Elasticsearch hit: [hit['_source'][...]] and [hit['_score']]. *)
Record EsHit : Type := {
  hit_unit_id : string;
  hit_text : string;
  hit_citation : option string;
  hit_doc_type : string;
  hit_score : Q
}.

(** A result dict.  A key that some results lack is an [option] field
    ([None]: the key is absent); [is_interpretive_case] is only ever set
    to [True]. *)
Record Result : Type := mkResult {
  doc_id : string;
  doc_type : string;
  content : option string;
  title : option string;
  citation : option string;
  score : Q;
  retrieval_method : option string;
  source : option string;
  bm25_score : option Q;
  dense_score : option Q;
  combined_score : option Q;
  interpretive_boost : option Q;
  interprets_statute : option string;
  is_interpretive_case : bool;
  interpretation_type : option string
}.

(** [r['score'] = s]. *)
Definition set_score (s : Q) (r : Result) : Result :=
  mkResult (doc_id r) (doc_type r) (content r) (title r) (citation r) s
    (retrieval_method r) (source r) (bm25_score r) (dense_score r)
    (combined_score r) (interpretive_boost r) (interprets_statute r)
    (is_interpretive_case r) (interpretation_type r).

(** [r['bm25_score'] = b; r['dense_score'] = d; r['combined_score'] = c]. *)
Definition set_fusion (b d c : Q) (r : Result) : Result :=
  mkResult (doc_id r) (doc_type r) (content r) (title r) (citation r) (score r)
    (retrieval_method r) (source r) (Some b) (Some d) (Some c)
    (interpretive_boost r) (interprets_statute r)
    (is_interpretive_case r) (interpretation_type r).

(** [r['score'] *= boost; r['interpretive_boost'] = boost;
     r['interprets_statute'] = statute]. *)
Definition set_boost (boost : Q) (statute : string) (r : Result) : Result :=
  mkResult (doc_id r) (doc_type r) (content r) (title r) (citation r)
    (score r * boost)
    (retrieval_method r) (source r) (bm25_score r) (dense_score r)
    (combined_score r) (Some boost) (Some statute)
    (is_interpretive_case r) (interpretation_type r).

(** The value stored under a key that fusion has set ([0] stands for a
    missing key, which does not occur on entries of [merged]). *)
Definition get (field : Result -> option Q) (r : Result) : Q :=
  match field r with
  | Some x => x
  | None => 0
  end.

(** The retriever and its collaborators: the database snapshot, the
    Elasticsearch client, the FAISS index with its position-to-document
    mapping, and the embedding client.  A collaborator's call answers or
    raises; [db_error] says on which requests the database raises, and
    what. *)
Record HybridRetriever : Type := {
  documents : list Document.t;
  interpretation_links : list InterpretationLink.t;
  es_search : string -> Z -> res (list EsHit);
  faiss_search : list Q -> Z -> res (list (Z * Q));
  embeddings_create : string -> string -> res (list Q);
  config : RetrievalConfig;
  faiss_mapping : list (Z * string);
  embedding_model : string;
  db_error : Event -> option PyExn
}.

(** A call to the database: the request is issued; the database raises,
    or it answers from its snapshot. *)
Definition db_call {A} (self : HybridRetriever) (request : Event) (answer : A)
  : IO A :=
  call request
    (match db_error self request with
     | Some e => Raise e
     | None => Ok answer
     end).

(** [db.query(Document).filter(Document.id == doc_id).first()]. *)
Definition query_document (self : HybridRetriever) (doc_id : string)
  : IO (option Document.t) :=
  db_call self (QueryDocument doc_id)
    (find (fun d => String.eqb (Document.id d) doc_id) (documents self)).

(** [_bm25_search]. *)
Definition result_of_hit (hit : EsHit) : Result :=
  {| doc_id := hit_unit_id hit;
     doc_type := hit_doc_type hit;
     content := Some (hit_text hit);
     title := None;
     citation := hit_citation hit;
     score := hit_score hit;
     retrieval_method := Some "bm25";
     source := None;
     bm25_score := None; dense_score := None; combined_score := None;
     interpretive_boost := None; interprets_statute := None;
     is_interpretive_case := false; interpretation_type := None |}.

Definition _bm25_search (self : HybridRetriever) (query : string) (k : Z)
  : IO (list Result) :=
  try_except
    (hits <- call (EsSearch "legal_documents" query k) (es_search self query k) ;;
     ret (map result_of_hit hits))
    (fun _ => ret []).

(** [_get_embedding]: not guarded, the caller catches. *)
Definition _get_embedding (self : HybridRetriever) (text : string) : IO (list Q) :=
  call (EmbeddingsCreate (embedding_model self) text)
       (embeddings_create self (embedding_model self) text).

(** [doc.full_text or doc.title]. *)
Definition full_text_or_title (doc : Document.t) : option string :=
  if String.eqb (Document.full_text doc) "" then Document.title doc
  else Some (Document.full_text doc).

Definition result_of_document (doc : Document.t) (similarity : Q) : Result :=
  {| doc_id := Document.id doc;
     doc_type := Document.doc_type doc;
     content := full_text_or_title doc;
     title := Document.title doc;
     citation := Document.citation doc;
     score := similarity;
     retrieval_method := None;
     source := Some "dense";
     bm25_score := None; dense_score := None; combined_score := None;
     interpretive_boost := None; interprets_statute := None;
     is_interpretive_case := false; interpretation_type := None |}.

(** [str(idx) in self.faiss_mapping] / [self.faiss_mapping[str(idx)]['doc_id']];
    the JSON keys are the decimal positions, kept as integers here. *)
Fixpoint mapping_get (mapping : list (Z * string)) (idx : Z) : option string :=
  match mapping with
  | [] => None
  | (i, d) :: rest => if (i =? idx)%Z then Some d else mapping_get rest idx
  end.

(** The body of the loop over [zip(indices[0], distances[0])].  An L2
    distance is non-negative, so [1.0 + distance] is not zero. *)
Definition dense_hit (self : HybridRetriever) (results : list Result)
  (hit : Z * Q) : IO (list Result) :=
  let (idx, distance) := hit in
  if (idx =? -1)%Z then ret results
  else
    match mapping_get (faiss_mapping self) idx with
    | None => ret results
    | Some doc_id =>
        doc <- query_document self doc_id ;;
        match doc with
        | Some doc =>
            let similarity := 1.0 / (1.0 + distance) in
            ret (results ++ [result_of_document doc similarity])
        | None => ret results
        end
    end.

(** [_dense_search]: everything, the embedding call included, sits in one
    [try]; any exception is logged and turned into the empty list. *)
Definition _dense_search (self : HybridRetriever) (query : string) (k : Z)
  : IO (list Result) :=
  try_except
    (query_embedding <- _get_embedding self query ;;
     found <- call (FaissSearch k) (faiss_search self query_embedding k) ;;
     for_each found [] (dense_hit self))
    (fun _ => ret []).

(** [_normalize_scores]: min-max scaling, all ones when the scores agree. *)
Definition _normalize_scores (results : list Result) : list Result :=
  match results with
  | [] => results
  | r :: rest =>
      let min_score := min_list (score r) (map score rest) in
      let max_score := max_list (score r) (map score rest) in
      if Qeq_bool max_score min_score
      then map (set_score 1.0) results
      else map (fun r => set_score ((score r - min_score) / (max_score - min_score)) r)
               results
  end.

(** The first loop of [_merge_results]. *)
Definition merge_bm25 (self : HybridRetriever) (merged : dict Result)
  (result : Result) : dict Result :=
  dict_set merged (doc_id result)
    (set_fusion (score result) 0.0 (bm25_weight (config self) * score result) result).

(** The second loop of [_merge_results]. *)
Definition merge_dense (self : HybridRetriever) (merged : dict Result)
  (result : Result) : dict Result :=
  match dict_get merged (doc_id result) with
  | Some m =>
      dict_set merged (doc_id result)
        (set_fusion (get bm25_score m) (score result)
           (get combined_score m + dense_weight (config self) * score result) m)
  | None =>
      dict_set merged (doc_id result)
        (set_fusion 0.0 (score result) (dense_weight (config self) * score result) result)
  end.

(** [_merge_results]. *)
Definition _merge_results (self : HybridRetriever)
  (bm25_results dense_results : list Result) (k : Z) : list Result :=
  let bm25_normalized := _normalize_scores bm25_results in
  let dense_normalized := _normalize_scores dense_results in
  let merged := fold_left (merge_bm25 self) bm25_normalized [] in
  let merged := fold_left (merge_dense self) dense_normalized merged in
  let merged := map (fun kv => (fst kv, set_score (get combined_score (snd kv)) (snd kv)))
                    merged in
  let sorted_results := sorted_desc score (dict_values merged) in
  slice_to sorted_results k.

(** The row order of [ORDER BY boost_factor DESC, applicability_score DESC]
    (PostgreSQL puts NULLs first in a descending order).  SQL leaves the
    order of ties open; the stable sort keeps the table order for them. *)
Definition desc_nulls_first (a b : option Q) : bool :=
  match a, b with
  | None, _ => true
  | Some _, None => false
  | Some x, Some y => Qle_bool y x
  end.

Definition link_before (a b : InterpretationLink.t) : bool :=
  let ba := InterpretationLink.boost_factor a in
  let bb := InterpretationLink.boost_factor b in
  if Qeq_bool ba bb
  then desc_nulls_first (InterpretationLink.applicability_score a)
                        (InterpretationLink.applicability_score b)
  else Qle_bool bb ba.

(** The WHERE clause of the link query in [_apply_interpretation_boost]:
    [statute_id = ANY(:statute_ids) AND (verified = true OR verified IS NULL)]. *)
Definition link_selected (statute_ids : list string) (l : InterpretationLink.t) : bool :=
  where_holds
    (sql_and (sql_in (Some (InterpretationLink.statute_id l)) statute_ids)
             (sql_or (sql_is_true (InterpretationLink.verified l))
                     (sql_is_null (InterpretationLink.verified l)))).

(** [self.db.execute(text("SELECT ... FROM interpretation_links ...")).fetchall()]:
    not guarded by any [try]. *)
Definition query_interpretation_links (self : HybridRetriever)
  (statute_ids : list string) : IO (list InterpretationLink.t) :=
  db_call self (QueryInterpretationLinks statute_ids)
    (sort_by link_before
       (filter (link_selected statute_ids) (interpretation_links self))).

(** A value of [case_boost_map]. *)
Record BoostInfo : Type := {
  info_boost_factor : Q;
  info_statute_id : string;
  info_interpretation_type : string;
  info_authority : string
}.

Definition boost_info_of (link : InterpretationLink.t) : BoostInfo :=
  {| info_boost_factor := InterpretationLink.boost_factor link;
     info_statute_id := InterpretationLink.statute_id link;
     info_interpretation_type := InterpretationLink.interpretation_type link;
     info_authority := InterpretationLink.authority link |}.

(** Step 1: the statutes among the first 20 results, as a set. *)
Definition statute_ids_of (results : list Result) : list string :=
  nodup string_dec
    (map doc_id (filter (fun r => String.eqb (doc_type r) "statute") (firstn 20 results))).

(** Step 3: the first link of each case wins. *)
Definition add_link (case_boost_map : dict BoostInfo) (link : InterpretationLink.t)
  : dict BoostInfo :=
  let case_id := InterpretationLink.case_id link in
  if dict_mem case_boost_map case_id then case_boost_map
  else dict_set case_boost_map case_id (boost_info_of link).

Definition build_case_boost_map (interpretive_cases : list InterpretationLink.t)
  : dict BoostInfo :=
  fold_left add_link interpretive_cases [].

(** Step 4: boost the results that are keys of the map, in place. *)
Definition boost_result (case_boost_map : dict BoostInfo) (result : Result) : Result :=
  match dict_get case_boost_map (doc_id result) with
  | Some boost_info =>
      set_boost (info_boost_factor boost_info) (info_statute_id boost_info) result
  | None => result
  end.

(** [sum(r['score'] for r in results[:10]) / min(10, len(results)) if results else 0.5],
    read after step 4 has rewritten the scores. *)
Definition avg_score (results : list Result) : Q :=
  match results with
  | [] => 0.5
  | _ => sum (map score (firstn 10 results))
         / inject_Z (Z.of_nat (Nat.min 10 (List.length results)))
  end.

Definition synthetic_result (case_doc : Document.t) (synthetic_score : Q)
  (boost_info : BoostInfo) : Result :=
  {| doc_id := Document.id case_doc;
     doc_type := "case";
     content := full_text_or_title case_doc;
     title := Document.title case_doc;
     citation := Document.citation case_doc;
     score := synthetic_score * info_boost_factor boost_info;
     retrieval_method := None;
     source := Some "interpretation_link";
     bm25_score := None; dense_score := None; combined_score := None;
     interpretive_boost := None;
     interprets_statute := Some (info_statute_id boost_info);
     is_interpretive_case := true;
     interpretation_type := Some (info_interpretation_type boost_info) |}.

(** Step 5, the body of the loop over [case_boost_map.items()]. *)
Definition add_missing_case (self : HybridRetriever)
  (existing_case_ids : list string) (synthetic_score : Q)
  (results : list Result) (item : string * BoostInfo) : IO (list Result) :=
  let (case_id, boost_info) := item in
  if mem case_id existing_case_ids then ret results
  else
    case_doc <- query_document self case_id ;;
    match case_doc with
    | Some case_doc =>
        ret (results ++ [synthetic_result case_doc synthetic_score boost_info])
    | None => ret results
    end.

(** [_apply_interpretation_boost]. *)
Definition _apply_interpretation_boost (self : HybridRetriever)
  (results : list Result) (query : string) : IO (list Result) :=
  let statute_ids := statute_ids_of results in
  match statute_ids with
  | [] => ret results
  | _ =>
      interpretive_cases <- query_interpretation_links self statute_ids ;;
      match interpretive_cases with
      | [] => ret results
      | _ =>
          let case_boost_map := build_case_boost_map interpretive_cases in
          let results := map (boost_result case_boost_map) results in
          let existing_case_ids :=
            map doc_id (filter (fun r => String.eqb (doc_type r) "case") results) in
          let synthetic_score := 0.7 * avg_score results in
          for_each case_boost_map results
            (add_missing_case self existing_case_ids synthetic_score)
      end
  end.

(** [statute_case_count.get(statute_id, 0)]. *)
Definition count_get (statute_case_count : dict Z) (statute_id : string) : Z :=
  match dict_get statute_case_count statute_id with
  | Some c => c
  | None => 0%Z
  end.

(** The loop of [_diversify_results] over the sorted results: [continue]
    skips a capped result, [break] stops once [k] results are kept. *)
Fixpoint diversify_loop (max_interpretive_cases k : Z) (todo : list Result)
  (statute_case_count : dict Z) (diversified : list Result) : list Result :=
  match todo with
  | [] => diversified
  | result :: rest =>
      let keep (statute_case_count : dict Z) :=
        let diversified := diversified ++ [result] in
        if (Z.of_nat (List.length diversified) >=? k)%Z then diversified
        else diversify_loop max_interpretive_cases k rest statute_case_count diversified in
      match interprets_statute result with
      | Some statute_id =>
          let count := count_get statute_case_count statute_id in
          if (count >=? max_interpretive_cases)%Z
          then diversify_loop max_interpretive_cases k rest statute_case_count diversified
          else keep (dict_set statute_case_count statute_id (count + 1)%Z)
      | None => keep statute_case_count
      end
  end.

(** [_diversify_results]. *)
Definition _diversify_results (self : HybridRetriever) (results : list Result)
  (k : Z) : list Result :=
  diversify_loop (max_interpretive_cases (config self)) k
    (sorted_desc score results) [] [].

(** [retrieve]. *)
Definition retrieve (self : HybridRetriever) (query : string) (k : option Z)
  (use_interpretation_links : bool) : IO (list Result) :=
  let k := int_or k (top_k (config self)) in
  bm25_results <- _bm25_search self query 200 ;;
  dense_results <- _dense_search self query 200 ;;
  let merged_results := _merge_results self bm25_results dense_results 500 in
  boosted_results <-
    (if use_interpretation_links && interpretation_boost_enabled (config self)
     then _apply_interpretation_boost self merged_results query
     else ret merged_results) ;;
  let final_results :=
    if diversification_enabled (config self)
    then _diversify_results self boosted_results k
    else slice_to (sorted_desc score boosted_results) k in
  ret final_results.

(** ** Vocabulary for the statements about the retriever *)

(** A result that no interpretation link has touched: it carries none of
    the keys that step 4 (boost) and step 5 (injection) write. *)
Definition plain (r : Result) : Prop :=
  interpretive_boost r = None /\ interprets_statute r = None
  /\ is_interpretive_case r = false
  /\ source r <> Some "interpretation_link".

(** A result that step 4 has boosted. *)
Definition boosted (r : Result) : Prop := interpretive_boost r <> None.

(** A result that step 5 has injected (the spec's [synthetic] results). *)
Definition injected (r : Result) : Prop := source r = Some "interpretation_link".

(** The request is not the interpretation-link query. *)
Definition not_link_query (e : Event) : Prop :=
  match e with
  | QueryInterpretationLinks _ => False
  | _ => True
  end.

(** [r] is annotated as interpreting statute [s]. *)
Definition interprets (s : string) (r : Result) : bool :=
  match interprets_statute r with
  | Some s' => String.eqb s' s
  | None => false
  end.

(** The number of results annotated as interpreting [s]. *)
Definition count_interpreting (s : string) (l : list Result) : nat :=
  List.length (filter (interprets s) l).

(** A lexical-only ranking: the fused score of [r] is the lexical weight
    times the normalized lexical score of its unit, read off the
    normalized BM25 results [nb], and its dense score is 0.0. *)
Definition lexical_ranked (self : HybridRetriever) (nb : list Result)
  (r : Result) : Prop :=
  exists x,
    In x nb /\ doc_id x = doc_id r
    /\ bm25_score r = Some (score x) /\ dense_score r = Some 0.0
    /\ combined_score r = Some (bm25_weight (config self) * score x).

(** The lexical part of a fused result [r], read off the normalized BM25
    results [nb]: the score of a hit for the same unit, or [0.0] when the
    unit has no lexical hit. *)
Definition lexical_component (nb : list Result) (r : Result) : Prop :=
  (exists x, In x nb /\ doc_id x = doc_id r /\ bm25_score r = Some (score x))
  \/ (~ In (doc_id r) (map doc_id nb) /\ bm25_score r = Some 0.0).

(** The dense part of a fused result, likewise. *)
Definition dense_component (nd : list Result) (r : Result) : Prop :=
  (exists x, In x nd /\ doc_id x = doc_id r /\ dense_score r = Some (score x))
  \/ (~ In (doc_id r) (map doc_id nd) /\ dense_score r = Some 0.0).

(** The fusion formula on the keys that [_merge_results] writes. *)
Definition fused (self : HybridRetriever) (r : Result) : Prop :=
  get combined_score r ==
    bm25_weight (config self) * get bm25_score r
    + dense_weight (config self) * get dense_score r.

(** What holds of [merged] after the first loop has run over [nb_done]. *)
Definition bm25_inv (self : HybridRetriever) (nb_done : list Result)
  (merged : dict Result) : Prop :=
  NoDup (map fst merged)
  /\ (forall k, In k (map fst merged) <-> In k (map doc_id nb_done))
  /\ (forall k m, dict_get merged k = Some m ->
        doc_id m = k
        /\ (exists x, In x nb_done /\ doc_id x = k /\ bm25_score m = Some (score x))
        /\ dense_score m = Some 0.0
        /\ combined_score m = Some (bm25_weight (config self) * get bm25_score m)).

(** The unit [k] occurs at most once among the results [l]. *)
Definition occurs_once (k : string) (l : list Result) : Prop :=
  (count_occ string_dec (map doc_id l) k <= 1)%nat.

(** What holds of [merged] after the second loop has run over [nd_done]:
    every entry keeps its lexical part, and the entry of a unit that
    occurs at most once in [nd_done] has its dense part and the fusion
    formula (the dense contributions of a repeated unit add up). *)
Definition dense_inv (self : HybridRetriever) (nb nd_done : list Result)
  (merged : dict Result) : Prop :=
  NoDup (map fst merged)
  /\ (forall k, In k (map doc_id nb) -> In k (map fst merged))
  /\ (forall k m, dict_get merged k = Some m ->
        doc_id m = k
        /\ lexical_component nb m
        /\ (occurs_once k nd_done -> dense_component nd_done m /\ fused self m)).

(** The case ids that step 5 treats as already retrieved. *)
Definition existing_case_ids (results : list Result) : list string :=
  map doc_id (filter (fun r => String.eqb (doc_type r) "case") results).

(** [boosted] and [injected] as tests, for filtering result lists. *)
Definition is_boosted (r : Result) : bool :=
  match interpretive_boost r with
  | Some _ => true
  | None => false
  end.

Definition is_injected (r : Result) : bool :=
  match source r with
  | Some s => String.eqb s "interpretation_link"
  | None => false
  end.

(** The list a call returned ([[]] if it raised). *)
Definition results_of (m : IO (list Result)) : list Result :=
  match outcome m with
  | Ok l => l
  | Raise _ => []
  end.

(** The fused list that [retrieve] hands to the boost stage. *)
Definition fused_results (self : HybridRetriever) (query : string) : list Result :=
  _merge_results self
    (results_of (_bm25_search self query 200))
    (results_of (_dense_search self query 200)) 500.

(** The list that [retrieve] returns, given the output of the boost stage. *)
Definition final_results (self : HybridRetriever) (k : option Z)
  (boosted_results : list Result) : list Result :=
  if diversification_enabled (config self)
  then _diversify_results self boosted_results (int_or k (top_k (config self)))
  else slice_to (sorted_desc score boosted_results) (int_or k (top_k (config self))).

(** The boost stage as [retrieve] runs it on the fused list: skipped
    unless the caller and the configuration both ask for it. *)
Definition boost_stage (self : HybridRetriever) (query : string)
  (use_interpretation_links : bool) : IO (list Result) :=
  if use_interpretation_links && interpretation_boost_enabled (config self)
  then _apply_interpretation_boost self (fused_results self query) query
  else ret (fused_results self query).

(** The normalized lexical hits of a query. *)
Definition lexical_hits (self : HybridRetriever) (query : string) : list Result :=
  _normalize_scores (results_of (_bm25_search self query 200)).

(** The arithmetic mean, as the specification words the synthetic score:
    the sum of the values over their number. *)
Definition mean (xs : list Q) : Q :=
  fold_right Qplus 0 xs / inject_Z (Z.of_nat (List.length xs)).

End Retrieval.

(* ====================================================================== *)
(** * Interpretation-aware retriever (dense only) *)
(* ====================================================================== *)

Module Aware.
Import Py Sql.
Local Open Scope string_scope.
Local Open Scope list_scope.
Local Open Scope Q_scope.
Local Open Scope io_scope.

(** [RetrievalConfig] of [interpretation_aware_retriever.py]. *)
Record RetrievalConfig : Type := {
  top_k : Z;
  dense_k_multiplier : Z;
  max_interpretive_per_statute : Z;
  min_interpretation_boost : Q;
  synthetic_penalty : Q
}.

Definition default_config : RetrievalConfig :=
  {| top_k := 10; dense_k_multiplier := 3; max_interpretive_per_statute := 3;
     min_interpretation_boost := 1.5; synthetic_penalty := 0.7 |}.

(** A candidate dict.  Every candidate has all the keys; [court], [year],
    [section_number] and [para_no] are display metadata and are left out. *)
Record Candidate : Type := mkCandidate {
  id : string;
  doc_type : string;
  title : string;
  content : string;
  citation : option string;
  score : Q;
  retrieval_method : string;
  is_interpretive : bool;
  interprets_statute : option string;
  interpretation_type : option string
}.

(** A row of the link query: the link joined with its case document. *)
Record LinkRow : Type := {
  row_statute_id : string;
  row_case_id : string;
  row_interpretation_type : string;
  row_authority : string;
  row_boost_factor : Q;
  row_confidence : option Q;
  row_citation : option string;
  row_title : option string;
  row_content : string
}.

Record InterpretationAwareRetriever : Type := {
  documents : list Document.t;
  interpretation_links : list InterpretationLink.t;
  faiss_search : list Q -> Z -> res (list (Z * Q));
  embeddings_create : string -> string -> res (list Q);
  doc_id_mapping : list (Z * string);
  config : RetrievalConfig;
  embedding_model : string;
  db_error : Event -> option PyExn
}.

(** [self.db.execute(...)]: the request is issued; the database raises,
    or it answers from its snapshot. *)
Definition db_call {A} (self : InterpretationAwareRetriever) (request : Event)
  (answer : A) : IO A :=
  call request
    (match db_error self request with
     | Some e => Raise e
     | None => Ok answer
     end).

Definition find_document (self : InterpretationAwareRetriever) (doc_id : string)
  : option Document.t :=
  find (fun d => String.eqb (Document.id d) doc_id) (documents self).

Definition or_empty (s : option string) : string :=
  match s with
  | Some x => x
  | None => ""
  end.

Definition candidate_of_document (d : Document.t) (similarity : Q) : Candidate :=
  {| id := Document.id d;
     doc_type := Document.doc_type d;
     title := or_empty (Document.title d);
     content := Document.full_text d;
     citation := Some (or_empty (Document.citation d));
     score := similarity;
     retrieval_method := "dense";
     is_interpretive := false;
     interprets_statute := None;
     interpretation_type := None |}.

(** The body of the loop of [_dense_search].  [1.0 / (1.0 + float(distance))]
    is a division of Python floats: it raises [ZeroDivisionError] when the
    distance is -1. *)
Definition dense_hit (self : InterpretationAwareRetriever)
  (candidates : list Candidate) (hit : Z * Q) : IO (list Candidate) :=
  let (idx, distance) := hit in
  if (idx =? -1)%Z then ret candidates
  else
    match Retrieval.mapping_get (doc_id_mapping self) idx with
    | None => ret candidates
    | Some doc_id =>
        if String.eqb doc_id "" then ret candidates
        else
          result <- db_call self (QueryDocument doc_id) (find_document self doc_id) ;;
          match result with
          | Some d =>
              if Qeq_bool (1.0 + distance) 0
              then raise (Exception "ZeroDivisionError: float division by zero")
              else
                let similarity := 1.0 / (1.0 + distance) in
                ret (candidates ++ [candidate_of_document d similarity])
          | None => ret candidates
          end
    end.

(** [_dense_search]: no [try] here; a failing embedding call, index
    search or database call propagates. *)
Definition _dense_search (self : InterpretationAwareRetriever) (query : string)
  (k : Z) : IO (list Candidate) :=
  query_embedding <- call (EmbeddingsCreate (embedding_model self) query)
                          (embeddings_create self (embedding_model self) query) ;;
  found <- call (FaissSearch k) (faiss_search self query_embedding k) ;;
  for_each found [] (dense_hit self).

(** [_extract_statute_ids]. *)
Definition _extract_statute_ids (candidates : list Candidate) : list string :=
  map id (filter (fun doc => String.eqb (doc_type doc) "statute") candidates).

(** The WHERE clause: [il.statute_id = ANY(:statute_ids) AND il.verified = TRUE]. *)
Definition link_selected (statute_ids : list string) (l : InterpretationLink.t) : bool :=
  where_holds
    (sql_and (sql_in (Some (InterpretationLink.statute_id l)) statute_ids)
             (sql_is_true (InterpretationLink.verified l))).

(** [FROM interpretation_links il JOIN documents d ON il.case_id = d.id]. *)
Definition join_document (self : InterpretationAwareRetriever)
  (l : InterpretationLink.t) : list LinkRow :=
  match find_document self (InterpretationLink.case_id l) with
  | Some d =>
      [{| row_statute_id := InterpretationLink.statute_id l;
          row_case_id := InterpretationLink.case_id l;
          row_interpretation_type := InterpretationLink.interpretation_type l;
          row_authority := InterpretationLink.authority l;
          row_boost_factor := InterpretationLink.boost_factor l;
          row_confidence := InterpretationLink.confidence l;
          row_citation := Document.citation d;
          row_title := Document.title d;
          row_content := Document.full_text d |}]
  | None => []
  end.

(** [ORDER BY il.boost_factor DESC, il.confidence DESC]. *)
Definition row_before (a b : LinkRow) : bool :=
  if Qeq_bool (row_boost_factor a) (row_boost_factor b)
  then Retrieval.desc_nulls_first (row_confidence a) (row_confidence b)
  else Qle_bool (row_boost_factor b) (row_boost_factor a).

(** Grouping the rows by statute, in row order. *)
Definition add_row (interpretation_map : dict (list LinkRow)) (row : LinkRow)
  : dict (list LinkRow) :=
  match dict_get interpretation_map (row_statute_id row) with
  | Some rows => dict_set interpretation_map (row_statute_id row) (rows ++ [row])
  | None => dict_set interpretation_map (row_statute_id row) [row]
  end.

(** [_get_interpretation_links]: the query is not guarded by any [try]. *)
Definition _get_interpretation_links (self : InterpretationAwareRetriever)
  (statute_ids : list string) : IO (dict (list LinkRow)) :=
  match statute_ids with
  | [] => ret []
  | _ =>
      rows <- db_call self (QueryInterpretationLinks statute_ids)
                (sort_by row_before
                   (flat_map (join_document self)
                      (filter (link_selected statute_ids) (interpretation_links self)))) ;;
      ret (fold_left add_row rows [])
  end.

(** The inner [for doc in boosted_candidates: if doc['id'] == case_id: ...; break]. *)
Fixpoint boost_first (case_id statute_id : string) (row : LinkRow)
  (boosted_candidates : list Candidate) : list Candidate :=
  match boosted_candidates with
  | [] => []
  | doc :: rest =>
      if String.eqb (id doc) case_id
      then mkCandidate (id doc) (doc_type doc) (title doc) (content doc) (citation doc)
             (score doc * row_boost_factor row) (retrieval_method doc)
             true (Some statute_id) (Some (row_interpretation_type row))
           :: rest
      else doc :: boost_first case_id statute_id row rest
  end.

Definition synthetic_candidate (statute_id : string) (row : LinkRow)
  (synthetic_score : Q) : Candidate :=
  {| id := row_case_id row;
     doc_type := "case";
     title := or_empty (row_title row);
     content := row_content row;
     citation := row_citation row;
     score := synthetic_score;
     retrieval_method := "interpretation_link";
     is_interpretive := true;
     interprets_statute := Some statute_id;
     interpretation_type := Some (row_interpretation_type row) |}.

(** The state of the two nested loops: the list being built, whose
    first [n] entries are the very dicts of [candidates] (the copy is
    shallow), and the ids added so far. *)
Definition boost_state : Type := (list Candidate * list string)%type.

(** One interpretive case of one statute. *)
Definition boost_case (self : InterpretationAwareRetriever)
  (existing_ids : list string) (statute_id : string) (statute_score : Q)
  (st : boost_state) (interp_case : LinkRow) : boost_state :=
  let (boosted_candidates, added_case_ids) := st in
  let case_id := row_case_id interp_case in
  if mem case_id existing_ids
  then (boost_first case_id statute_id interp_case boosted_candidates, added_case_ids)
  else if mem case_id added_case_ids then st
  else
    let synthetic_score :=
      statute_score * synthetic_penalty (config self) * row_boost_factor interp_case in
    (boosted_candidates ++ [synthetic_candidate statute_id interp_case synthetic_score],
     case_id :: added_case_ids).

(** [next((doc['score'] for doc in candidates if doc['id'] == statute_id), 0.5)]. *)
Definition statute_score_of (candidates : list Candidate) (statute_id : string) : Q :=
  match find (fun doc => String.eqb (id doc) statute_id) candidates with
  | Some doc => score doc
  | None => 0.5
  end.

(** One statute of [interpretation_map.items()].  [candidates] is read
    through the shared dicts: the first [n] entries of the current list. *)
Definition boost_statute (self : InterpretationAwareRetriever) (n : nat)
  (existing_ids : list string) (st : boost_state)
  (item : string * list LinkRow) : boost_state :=
  let (statute_id, interpretive_cases) := item in
  let statute_score := statute_score_of (firstn n (fst st)) statute_id in
  fold_left (boost_case self existing_ids statute_id statute_score)
    (slice_to interpretive_cases (max_interpretive_per_statute (config self))) st.

(** [_apply_interpretation_boost]. *)
Definition _apply_interpretation_boost (self : InterpretationAwareRetriever)
  (candidates : list Candidate) (interpretation_map : dict (list LinkRow))
  : list Candidate :=
  let existing_ids := map id candidates in
  fst (fold_left (boost_statute self (List.length candidates) existing_ids)
         interpretation_map (candidates, [])).

(** The counters of [_diversify_and_rerank], keyed by the value of
    [doc['interprets_statute']] (a string or [None]).  The dict is kept as
    a list of bindings, the newest first: a lookup finds the latest
    binding of its key, an assignment adds one. *)
Definition key_eqb (a b : option string) : bool :=
  match a, b with
  | Some x, Some y => String.eqb x y
  | None, None => true
  | _, _ => false
  end.

Fixpoint interp_count (counts : list (option string * Z)) (key : option string) : Z :=
  match counts with
  | [] => 0%Z
  | (k, c) :: rest => if key_eqb key k then c else interp_count rest key
  end.

(** The loop of [_diversify_and_rerank] over the sorted candidates. *)
Fixpoint diversify_loop (cap k : Z) (todo : list Candidate)
  (interp_count_per_statute : list (option string * Z))
  (final_results : list Candidate) : list Candidate :=
  match todo with
  | [] => final_results
  | doc :: rest =>
      if is_interpretive doc
      then
        let statute_id := interprets_statute doc in
        let count := interp_count interp_count_per_statute statute_id in
        if (count >=? cap)%Z
        then diversify_loop cap k rest interp_count_per_statute final_results
        else
          let counts := (statute_id, (count + 1)%Z) :: interp_count_per_statute in
          let final_results := final_results ++ [doc] in
          if (Z.of_nat (List.length final_results) >=? k)%Z then final_results
          else diversify_loop cap k rest counts final_results
      else
        let final_results := final_results ++ [doc] in
        if (Z.of_nat (List.length final_results) >=? k)%Z then final_results
        else diversify_loop cap k rest interp_count_per_statute final_results
  end.

(** [_diversify_and_rerank]. *)
Definition _diversify_and_rerank (self : InterpretationAwareRetriever)
  (candidates : list Candidate) (k : Z) : list Candidate :=
  diversify_loop (max_interpretive_per_statute (config self)) k
    (sorted_desc score candidates) [] [].

(** [retrieve]. *)
Definition retrieve (self : InterpretationAwareRetriever) (query : string)
  (k : option Z) : IO (list Candidate) :=
  let k := int_or k (top_k (config self)) in
  candidates <- _dense_search self query (k * dense_k_multiplier (config self))%Z ;;
  match candidates with
  | [] => ret []
  | _ =>
      let statute_ids := _extract_statute_ids candidates in
      interpretation_map <- _get_interpretation_links self statute_ids ;;
      let boosted_candidates :=
        _apply_interpretation_boost self candidates interpretation_map in
      ret (_diversify_and_rerank self boosted_candidates k)
  end.

(** ** Vocabulary *)

(** [doc] is counted against statute [s] by the diversification. *)
Definition interprets (s : string) (doc : Candidate) : bool :=
  match interprets_statute doc with
  | Some s' => String.eqb s' s
  | None => false
  end.

Definition count_interpreting (s : string) (l : list Candidate) : nat :=
  List.length (filter (interprets s) l).

(** A candidate that is annotated with a statute is flagged interpretive. *)
Definition flagged (doc : Candidate) : Prop :=
  interprets_statute doc <> None -> is_interpretive doc = true.

(** A candidate that the boost has not touched. *)
Definition untouched (doc : Candidate) : Prop :=
  is_interpretive doc = false /\ interprets_statute doc = None.

(** The interpretive candidate [doc] is backed by a stored, verified link. *)
Definition backed (self : InterpretationAwareRetriever) (doc : Candidate) : Prop :=
  exists link,
    In link (interpretation_links self)
    /\ InterpretationLink.case_id link = id doc
    /\ interprets_statute doc = Some (InterpretationLink.statute_id link)
    /\ InterpretationLink.verified link = Some true.

(** The property the boost maintains on every candidate. *)
Definition sound (self : InterpretationAwareRetriever) (doc : Candidate) : Prop :=
  flagged doc /\ (is_interpretive doc = true -> backed self doc).

(** The row comes from a stored, verified link. *)
Definition row_backed (self : InterpretationAwareRetriever) (row : LinkRow) : Prop :=
  exists link,
    In link (interpretation_links self)
    /\ InterpretationLink.case_id link = row_case_id row
    /\ InterpretationLink.statute_id link = row_statute_id row
    /\ InterpretationLink.verified link = Some true.

End Aware.

(** ** Concrete retrievers used as examples *)

Module Scenarios.
Import Py Retrieval.
Local Open Scope string_scope.
Local Open Scope list_scope.
Local Open Scope Q_scope.

Definition doc (id doc_type : string) : Document.t :=
  {| Document.id := id;
     Document.doc_type := doc_type;
     Document.parent_id := None;
     Document.level := 0;
     Document.title := Some id;
     Document.citation := None;
     Document.full_text := "text";
     Document.hash := None |}.

Definition hit (unit_id doc_type : string) (bm25 : Q) : EsHit :=
  {| hit_unit_id := unit_id; hit_text := "text"; hit_citation := None;
     hit_doc_type := doc_type; hit_score := bm25 |}.

Definition link (statute case : string) (boost : Q) (verified : option bool)
  : InterpretationLink.t :=
  {| InterpretationLink.statute_id := statute;
     InterpretationLink.case_id := case;
     InterpretationLink.interpretation_type := "NARROW";
     InterpretationLink.authority := "BINDING";
     InterpretationLink.boost_factor := boost;
     InterpretationLink.applicability_score := Some 0.8;
     InterpretationLink.confidence := Some 0.9;
     InterpretationLink.extraction_method := Some "MANUAL";
     InterpretationLink.verified := verified |}.

(** A retriever whose embedding service is down: every embedding call
    raises, so only Elasticsearch contributes hits. *)
Definition lexical_retriever (cfg : RetrievalConfig) (hits : list EsHit)
  (links : list InterpretationLink.t) (docs : list Document.t) : HybridRetriever :=
  {| documents := docs;
     interpretation_links := links;
     es_search := fun _ _ => Ok hits;
     faiss_search := fun _ _ => Ok [];
     embeddings_create := fun _ _ => Raise (Exception "EmbeddingFailed");
     config := cfg;
     faiss_mapping := [];
     embedding_model := "text-embedding-3-large";
     db_error := fun _ => None |}.

(** Statute S with two verified links, to C1 (retrieved) and to C2 (not
    retrieved); lexical hits S, C1, X. *)
Definition inject_retriever : HybridRetriever :=
  lexical_retriever default_config
    [hit "S" "statute" 3; hit "C1" "case" 2; hit "X" "case" 1]
    [link "S" "C1" 2 (Some true); link "S" "C2" 2 (Some true)]
    [doc "S" "statute"; doc "C1" "case"; doc "C2" "case"; doc "X" "case"].

(** Statute S with one link, to C1, whose [verified] column is NULL. *)
Definition null_verified_retriever : HybridRetriever :=
  lexical_retriever default_config
    [hit "S" "statute" 3; hit "C1" "case" 2; hit "X" "case" 1]
    [link "S" "C1" 2.8 None]
    [doc "S" "statute"; doc "C1" "case"; doc "X" "case"].

Definition four_cases_hits : list EsHit :=
  [hit "S" "statute" 5; hit "C1" "case" 4; hit "C2" "case" 3;
   hit "C3" "case" 2; hit "C4" "case" 1].
Definition four_cases_links : list InterpretationLink.t :=
  [link "S" "C1" 2 (Some true); link "S" "C2" 2 (Some true);
   link "S" "C3" 2 (Some true); link "S" "C4" 2 (Some true)].
Definition four_cases_docs : list Document.t :=
  [doc "S" "statute"; doc "C1" "case"; doc "C2" "case";
   doc "C3" "case"; doc "C4" "case"].

(** The default configuration with diversification switched off. *)
Definition no_diversification : RetrievalConfig :=
  {| top_k := 10; bm25_weight := 0.4; dense_weight := 0.4; lepard_weight := 0.2;
     max_interpretive_cases := 3; interpretation_boost_enabled := true;
     diversification_enabled := false |}.

(** Statute S with four linked, retrieved cases. *)
Definition undiversified_retriever : HybridRetriever :=
  lexical_retriever no_diversification four_cases_hits four_cases_links four_cases_docs.
Definition diversified_retriever : HybridRetriever :=
  lexical_retriever default_config four_cases_hits four_cases_links four_cases_docs.

(** One unit D found by both sides: the only lexical hit, and the only
    dense hit (FAISS position 0, distance 0). *)
Definition both_sides_retriever : HybridRetriever :=
  {| documents := [doc "D" "case"];
     interpretation_links := [];
     es_search := fun _ _ => Ok [hit "D" "case" 7];
     faiss_search := fun _ _ => Ok [(0%Z, 0)];
     embeddings_create := fun _ _ => Ok [1; 0];
     config := default_config;
     faiss_mapping := [(0%Z, "D")];
     embedding_model := "text-embedding-3-large";
     db_error := fun _ => None |}.

(** The unit B is found twice by the dense side (FAISS positions 0 and
    2 map to it), D once; A, B, C are the lexical hits. *)
Definition repeated_dense_retriever : HybridRetriever :=
  {| documents := [doc "A" "statute"; doc "B" "case"; doc "C" "case"; doc "D" "case"];
     interpretation_links := [];
     es_search := fun _ _ => Ok [hit "A" "statute" 7; hit "B" "case" 3; hit "C" "case" 5];
     faiss_search := fun _ _ => Ok [(0%Z, 0); (1%Z, 1); (2%Z, 3)];
     embeddings_create := fun _ _ => Ok [1; 0];
     config := default_config;
     faiss_mapping := [(0%Z, "B"); (1%Z, "D"); (2%Z, "B")];
     embedding_model := "text-embedding-3-large";
     db_error := fun _ => None |}.

(** The retriever of the injection scenario, with a database that has
    lost its connection: it raises on the link query. *)
Definition link_store_down_retriever : HybridRetriever :=
  {| documents := documents inject_retriever;
     interpretation_links := interpretation_links inject_retriever;
     es_search := es_search inject_retriever;
     faiss_search := faiss_search inject_retriever;
     embeddings_create := embeddings_create inject_retriever;
     config := config inject_retriever;
     faiss_mapping := faiss_mapping inject_retriever;
     embedding_model := embedding_model inject_retriever;
     db_error := fun request =>
       match request with
       | QueryInterpretationLinks _ => Some (Exception "OperationalError")
       | _ => None
       end |}.

(** Neither side finds anything. *)
Definition empty_retriever : HybridRetriever :=
  lexical_retriever default_config []
    [link "S" "C1" 2 (Some true)] [doc "S" "statute"; doc "C1" "case"].

End Scenarios.

(* ====================================================================== *)
(** * Database loader *)
(* ====================================================================== *)

Module Loader.
Import Py.
Local Open Scope string_scope.
Local Open Scope list_scope.
Local Open Scope Z_scope.

(** [ParsedDocument] ([ingestion/models.py]); [hash] is a required [str]. *)
Record ParsedDocument : Type := {
  id : string;
  doc_type : string;
  title : string;
  full_text : string;
  parent_id : option string;
  level : Z;
  citation : option string;
  hash : string
}.

(** [IngestionResult] ([ingestion/models.py]). *)
Record IngestionResult : Type := mkResult {
  status : string;
  total_documents : Z;
  inserted : Z;
  skipped : Z;
  errors : Z;
  error_messages : list string;
  skipped_ids : list string;
  inserted_ids : list string
}.

Definition add_error (r : IngestionResult) (error : string) : IngestionResult :=
  mkResult (status r) (total_documents r) (inserted r) (skipped r) (errors r + 1)
    (error_messages r ++ [error]) (skipped_ids r) (inserted_ids r).

Definition add_skip (r : IngestionResult) (doc_id reason : string) : IngestionResult :=
  mkResult (status r) (total_documents r) (inserted r) (skipped r + 1) (errors r)
    (error_messages r ++ [fstring ["Skipped "; doc_id; ": "; reason]])
    (skipped_ids r ++ [doc_id]) (inserted_ids r).

Definition add_success (r : IngestionResult) (doc_id : string) : IngestionResult :=
  mkResult (status r) (total_documents r) (inserted r + 1) (skipped r) (errors r)
    (error_messages r) (skipped_ids r) (inserted_ids r ++ [doc_id]).

Definition set_status (r : IngestionResult) (s : string) : IngestionResult :=
  mkResult s (total_documents r) (inserted r) (skipped r) (errors r)
    (error_messages r) (skipped_ids r) (inserted_ids r).

(** A SQLAlchemy session on the [documents] table: the committed rows,
    and the rows the open transaction has flushed (INSERTed but not yet
    committed).  Both are visible to the transaction's own statements. *)
Record Session : Type := {
  committed : list Document.t;
  flushed : list Document.t
}.

Definition visible (s : Session) : list Document.t := committed s ++ flushed s.

(** The constraints of [documents] ([database/models/document.py]):
    primary key [id], [hash] UNIQUE, [parent_id] REFERENCES [documents.id],
    and [ck_valid_level]. *)
Definition pk_violation (rows : list Document.t) (d : Document.t) : bool :=
  existsb (fun r => String.eqb (Document.id r) (Document.id d)) rows.

Definition hash_violation (rows : list Document.t) (d : Document.t) : bool :=
  match Document.hash d with
  | None => false
  | Some h =>
      existsb (fun r => match Document.hash r with
                        | Some h' => String.eqb h' h
                        | None => false
                        end) rows
  end.

Definition fk_violation (rows : list Document.t) (d : Document.t) : bool :=
  match Document.parent_id d with
  | None => false
  | Some p => negb (existsb (fun r => String.eqb (Document.id r) p) (d :: rows))
  end.

Definition level_violation (d : Document.t) : bool :=
  negb ((0 <=? Document.level d) && (Document.level d <=? 3)).

(** [session.add(db_doc); session.flush()]: the INSERT is sent to the
    database, which raises [IntegrityError] on a violated constraint.
    The values are taken to fit their columns (an id within
    VARCHAR(255), a hash within VARCHAR(64), ...): a flush that fails on
    a length or a type is outside this model. *)
Definition add_and_flush (s : Session) (d : Document.t) : res Session :=
  if pk_violation (visible s) d then Raise (IntegrityError "pk_documents")
  else if hash_violation (visible s) d then Raise (IntegrityError "uq_documents_hash")
  else if fk_violation (visible s) d then Raise (IntegrityError "fk_documents_parent_id_documents")
  else if level_violation d then Raise (IntegrityError "ck_documents_valid_level")
  else Ok {| committed := committed s; flushed := flushed s ++ [d] |}.

(** [session.rollback()]: the open transaction is undone as a whole. *)
Definition rollback (s : Session) : Session :=
  {| committed := committed s; flushed := [] |}.

(** [session.commit()]. *)
Definition commit (s : Session) : Session :=
  {| committed := committed s ++ flushed s; flushed := [] |}.

(** [PostgresLoader]: its two flags.  The code that read them is
    commented out in [_load_single_document]. *)
Record PostgresLoader : Type := {
  skip_existing : bool;
  allow_duplicates : bool
}.

Definition default_loader : PostgresLoader :=
  {| skip_existing := true; allow_duplicates := false |}.

(** [Document(id=doc.id, ...)]. *)
Definition db_doc_of (doc : ParsedDocument) : Document.t :=
  {| Document.id := id doc;
     Document.doc_type := doc_type doc;
     Document.parent_id := parent_id doc;
     Document.level := level doc;
     Document.title := Some (title doc);
     Document.citation := citation doc;
     Document.full_text := full_text doc;
     Document.hash := Some (hash doc) |}.

(** [_load_single_document]: only [IntegrityError] is caught. *)
Definition _load_single_document (self : PostgresLoader) (session : Session)
  (doc : ParsedDocument) (result : IngestionResult)
  : res (Session * IngestionResult) :=
  let db_doc := db_doc_of doc in
  match add_and_flush session db_doc with
  | Ok session' => Ok (session', add_success result (id doc))
  | Raise (IntegrityError e) =>
      Ok (rollback session, add_skip result (id doc) (fstring ["integrity error: "; e]))
  | Raise e => Raise e
  end.

(** [sorted(batch, key=lambda doc: doc.level)]: ascending, stable. *)
Definition sorted_by_level (batch : list ParsedDocument) : list ParsedDocument :=
  sort_by (fun x y => level x <=? level y) batch.

(** The [for doc in batch] loop of [_load_batch]: any exception of a
    single document is recorded and the loop goes on. *)
Fixpoint load_each (self : PostgresLoader) (batch : list ParsedDocument)
  (session : Session) (result : IngestionResult) : Session * IngestionResult :=
  match batch with
  | [] => (session, result)
  | doc :: rest =>
      match _load_single_document self session doc result with
      | Ok (session', result') => load_each self rest session' result'
      | Raise _ =>
          load_each self rest session
            (add_error result (fstring ["Failed to load "; id doc]))
      end
  end.

(** [_load_batch]: a fresh session on the table, the batch in level
    order, then the commit. *)
Definition _load_batch (self : PostgresLoader) (table : list Document.t)
  (batch : list ParsedDocument) (result : IngestionResult)
  : list Document.t * IngestionResult :=
  let session := {| committed := table; flushed := [] |} in
  let batch := sorted_by_level batch in
  let (session, result) := load_each self batch session result in
  (committed (commit session), result).

(** [documents[i:i + batch_size] for i in range(0, len(documents), batch_size)]
    for a positive [batch_size]. *)
Fixpoint batches {A} (fuel : nat) (batch_size : nat) (documents : list A)
  : list (list A) :=
  match fuel, documents with
  | _, [] => []
  | O, _ => []
  | S fuel', _ =>
      firstn batch_size documents
      :: batches fuel' batch_size (skipn batch_size documents)
  end.

Fixpoint load_batches (self : PostgresLoader) (bs : list (list ParsedDocument))
  (table : list Document.t) (result : IngestionResult)
  : list Document.t * IngestionResult :=
  match bs with
  | [] => (table, result)
  | batch :: rest =>
      let (table', result') := _load_batch self table batch result in
      load_batches self rest table' result'
  end.

(** [load_documents].  [range] raises on a zero step and is empty for a
    negative one.  [_load_batch] does not raise here (the commit of the
    model always succeeds), so the [except] around it is never entered;
    [finalize] only stamps the end time. *)
Definition load_documents (self : PostgresLoader) (table : list Document.t)
  (documents : list ParsedDocument) (batch_size : Z)
  : res (list Document.t * IngestionResult) :=
  let result :=
    mkResult "success" (Z.of_nat (List.length documents)) 0 0 0 [] [] [] in
  if batch_size =? 0 then Raise (ValueError "range() arg 3 must not be zero")
  else
    let bs := if batch_size <? 0 then []
              else batches (List.length documents) (Z.to_nat batch_size) documents in
    let (table', result) := load_batches self bs table result in
    let result :=
      if errors result >? 0
      then set_status result (if inserted result >? 0 then "partial" else "failed")
      else result in
    Ok (table', result).

(** The hash of [doc] is the hash of a row the session can see. *)
Definition hash_present (rows : list Document.t) (doc : ParsedDocument) : Prop :=
  exists row, In row rows /\ Document.hash row = Some (hash doc).

(** Three root documents: [doc_b] repeats the text (hence the hash) of
    [doc_a], and [doc_c] repeats the id of [doc_a] with another text. *)
Definition doc_a : ParsedDocument :=
  {| id := "sg_statute_act_s1"; doc_type := "statute"; title := "Section 1";
     full_text := "[Repealed]"; parent_id := None; level := 0;
     citation := None; hash := "h_repealed" |}.
Definition doc_b : ParsedDocument :=
  {| id := "sg_statute_act_s2"; doc_type := "statute"; title := "Section 2";
     full_text := "[Repealed]"; parent_id := None; level := 0;
     citation := None; hash := "h_repealed" |}.
Definition doc_c : ParsedDocument :=
  {| id := "sg_statute_act_s1"; doc_type := "statute"; title := "Section 1";
     full_text := "Short title"; parent_id := None; level := 0;
     citation := None; hash := "h_short_title" |}.

Definition source_abc : list ParsedDocument := [doc_a; doc_b; doc_c].

(** The table after one, and after two, ingestions of the same source
    (the empty table when a load raises). *)
Definition ingest (table : list Document.t) (documents : list ParsedDocument)
  (batch_size : Z) : list Document.t :=
  match load_documents default_loader table documents batch_size with
  | Ok (table', _) => table'
  | Raise _ => table
  end.

End Loader.

(* ====================================================================== *)
(** * Vocabulary for ranking, fusion and boost properties *)
(* ====================================================================== *)

Module Ranking.
Import Py Retrieval.
Local Open Scope string_scope.
Local Open Scope list_scope.
Local Open Scope Q_scope.

(** The list is in non-increasing score order. *)
Definition descending (l : list Result) : Prop :=
  StronglySorted (fun a b => score b <= score a) l.

(** The number of results a call of [retrieve] asks for: [k or config.top_k]. *)
Definition effective_k (self : HybridRetriever) (k : option Z) : Z :=
  int_or k (top_k (config self)).

(** The unit of [r] was found by one of the two searches. *)
Definition retrieved_by (bm25_results dense_results : list Result) (r : Result) : Prop :=
  In (doc_id r) (map doc_id bm25_results) \/ In (doc_id r) (map doc_id dense_results).

(** [out] is the top [k] of [l] by score: [l], put in non-increasing
    score order, starts with [out], and [out] has [k] entries, or all of
    [l] when there are fewer. *)
Definition top_by_score (k : Z) (l out : list Result) : Prop :=
  exists rest,
    Permutation l (out ++ rest)
    /\ descending (out ++ rest)
    /\ ((0 <= k)%Z -> List.length out = Nat.min (Z.to_nat k) (List.length l)).

(** The request is a document lookup. *)
Definition is_document_query (e : Event) : Prop :=
  match e with
  | QueryDocument _ => True
  | _ => False
  end.

End Ranking.

Module Fusion.
Import Py Retrieval.
Local Open Scope string_scope.
Local Open Scope list_scope.
Local Open Scope Q_scope.

(** The score lies in the unit interval. *)
Definition unit_score (r : Result) : Prop := 0 <= score r /\ score r <= 1.

(** [y] is [x] with another score; every other key is as it was. *)
Definition rescored (x y : Result) : Prop := y = set_score (score y) x.

(** No result of [l] scores higher, or lower, than [x]. *)
Definition best_hit (l : list Result) (x : Result) : Prop :=
  forall z, In z l -> score z <= score x.
Definition worst_hit (l : list Result) (x : Result) : Prop :=
  forall z, In z l -> score x <= score z.

(** Min-max scaling of [x] to [y] between the scores [lo] and [hi], as
    the docstring of [_normalize_scores] words it: 1 when all scores
    agree, [(score - lo) / (hi - lo)] otherwise. *)
Definition min_max_scaled (lo hi : Q) (x y : Result) : Prop :=
  (lo == hi -> score y == 1)
  /\ (~ lo == hi -> score y == (score x - lo) / (hi - lo)).

(** What both loops of [_merge_results] keep of [merged]: the keys are
    distinct, every entry is stored under its own [doc_id], and every key
    is one of [ids]. *)
Definition keyed (ids : list string) (merged : dict Result) : Prop :=
  NoDup (map fst merged)
  /\ forall k m, In (k, m) merged -> doc_id m = k /\ In k ids.

(** The fused score lies between 0 and the sum of the two weights. *)
Definition within_weights (self : HybridRetriever) (r : Result) : Prop :=
  0 <= score r /\ score r <= bm25_weight (config self) + dense_weight (config self).

End Fusion.

Module FusionScenarios.
Import Py Retrieval Scenarios.
Local Open Scope string_scope.
Local Open Scope list_scope.
Local Open Scope Q_scope.

(** Three lexical hits and two dense hits that share the unit B. *)
Definition overlap_retriever : HybridRetriever :=
  {| documents := [doc "A" "statute"; doc "B" "case"; doc "C" "case"; doc "D" "case"];
     interpretation_links := [];
     es_search := fun _ _ => Ok [hit "A" "statute" 7; hit "B" "case" 3; hit "C" "case" 5];
     faiss_search := fun _ _ => Ok [(0%Z, 0); (1%Z, 1)];
     embeddings_create := fun _ _ => Ok [1; 0];
     config := default_config;
     faiss_mapping := [(0%Z, "B"); (1%Z, "D")];
     embedding_model := "text-embedding-3-large";
     db_error := fun _ => None |}.

(** The two result lists that [retrieve] fuses in that scenario. *)
Definition overlap_bm25 : list Result :=
  results_of (_bm25_search overlap_retriever "misrepresentation" 200).
Definition overlap_dense : list Result :=
  results_of (_dense_search overlap_retriever "misrepresentation" 200).

End FusionScenarios.

Module Boost.
Import Py Sql Retrieval.
Local Open Scope string_scope.
Local Open Scope list_scope.
Local Open Scope Q_scope.

(** A stored link that the boost stage's query returns for the statutes
    [ids]. *)
Definition selected (self : HybridRetriever) (ids : list string)
  (link : InterpretationLink.t) : Prop :=
  In link (interpretation_links self) /\ link_selected ids link = true.

(** [link] is about the case [k]. *)
Definition for_case (k : string) (link : InterpretationLink.t) : bool :=
  String.eqb (InterpretationLink.case_id link) k.

(** The order of the first ORDER BY column: highest boost factor first. *)
Definition by_boost (a b : InterpretationLink.t) : Prop :=
  InterpretationLink.boost_factor b <= InterpretationLink.boost_factor a.

(** A returned link such that no returned link of the same case has a
    higher boost factor. *)
Definition strongest (self : HybridRetriever) (ids : list string)
  (link : InterpretationLink.t) : Prop :=
  selected self ids link
  /\ forall l', selected self ids l' ->
       InterpretationLink.case_id l' = InterpretationLink.case_id link ->
       by_boost link l'.

(** Step 4 on one result: [r] is left as it is when no returned link
    names it as the case, and is boosted by a strongest such link
    otherwise. *)
Definition boosted_from (self : HybridRetriever) (ids : list string)
  (r r' : Result) : Prop :=
  (r' = r
   /\ forall l, selected self ids l -> InterpretationLink.case_id l <> doc_id r)
  \/ exists link,
       strongest self ids link
       /\ InterpretationLink.case_id link = doc_id r
       /\ r' = set_boost (InterpretationLink.boost_factor link)
                         (InterpretationLink.statute_id link) r.

(** Step 5 on one appended result: it is built from the document of a
    linked case that is not among the case results, with the score
    [0.7 * avg_score * boost_factor] of a strongest link. *)
Definition injected_from (self : HybridRetriever) (ids : list string)
  (kept : list Result) (r : Result) : Prop :=
  exists link case_doc,
    strongest self ids link
    /\ ~ In (InterpretationLink.case_id link) (existing_case_ids kept)
    /\ In case_doc (documents self)
    /\ Document.id case_doc = InterpretationLink.case_id link
    /\ r = synthetic_result case_doc (0.7 * avg_score kept) (boost_info_of link).

(** Every returned link's case is among the case results, or has no
    document, or has been appended. *)
Definition all_linked_cases_present (self : HybridRetriever) (ids : list string)
  (kept added : list Result) : Prop :=
  forall link, selected self ids link ->
    In (InterpretationLink.case_id link) (existing_case_ids kept)
    \/ (forall d, In d (documents self) ->
          Document.id d <> InterpretationLink.case_id link)
    \/ In (InterpretationLink.case_id link) (map doc_id added).

(** The requests of the boost stage: none, or the link query for [ids]
    followed by document lookups only. *)
Definition boost_requests (ids : list string) (evs : list Event) : Prop :=
  (ids = [] /\ evs = [])
  \/ (ids <> []
      /\ exists lookups,
           evs = QueryInterpretationLinks ids :: lookups
           /\ Forall Ranking.is_document_query lookups).

(** A result that is the case of a stored link is typed as a case. *)
Definition linked_cases_typed (self : HybridRetriever) (results : list Result) : Prop :=
  forall r link,
    In r results -> In link (interpretation_links self) ->
    InterpretationLink.case_id link = doc_id r -> doc_type r = "case".

(** The boost stage left [r'] where [r] was and raised its score by a
    factor between 1 and [hi]. *)
Definition raised_within (hi : Q) (r r' : Result) : Prop :=
  doc_id r' = doc_id r /\ score r <= score r' /\ score r' <= hi * score r.

End Boost.

Module BoostChecks.
Import Py Sql Retrieval.
Local Open Scope string_scope.
Local Open Scope list_scope.
Local Open Scope Q_scope.

(** Every result that is the case of a stored link is typed as a case. *)
Definition linked_cases_typed (self : HybridRetriever) (results : list Result) : bool :=
  forallb (fun r =>
             String.eqb (doc_type r) "case"
             || negb (existsb (Boost.for_case (doc_id r)) (interpretation_links self)))
          results.

(** No score is negative. *)
Definition scores_non_negative (results : list Result) : bool :=
  forallb (fun r => Qle_bool 0 (score r)) results.

End BoostChecks.

(* ====================================================================== *)
(** * Helper methods of the link model *)
(* ====================================================================== *)

Module LinkMethods.
Import Py Sql.
Import InterpretationLink.
Local Open Scope string_scope.
Local Open Scope list_scope.
Local Open Scope Q_scope.

(** [effective_boost]: a missing applicability score and a score of 0.0
    are both falsy. *)
Definition effective_boost (self : InterpretationLink.t) : Q :=
  match applicability_score self with
  | Some a =>
      if Qeq_bool a 0 then boost_factor self else boost_factor self * a
  | None => boost_factor self
  end.

(** [set(xs)], [a & b] and [a | b] on lists without repetition. *)
Definition py_set (xs : list string) : list string := nodup string_dec xs.
Definition set_and (a b : list string) : list string := filter (fun x => mem x b) a.
Definition set_or (a b : list string) : list string :=
  a ++ filter (fun x => negb (mem x a)) b.

(** [not self.fact_pattern_tags or not user_tags]: the column is nullable,
    and an empty list is falsy. *)
Definition no_tags (fact_pattern_tags : option (list string)) (user_tags : list string)
  : bool :=
  match fact_pattern_tags, user_tags with
  | Some (_ :: _), _ :: _ => false
  | _, _ => true
  end.

Definition tags_of (fact_pattern_tags : option (list string)) : list string :=
  match fact_pattern_tags with
  | Some tags => tags
  | None => []
  end.

(** [matches_fact_pattern], on the column [self.fact_pattern_tags]. *)
Definition matches_fact_pattern (fact_pattern_tags : option (list string))
  (user_tags : list string) : bool :=
  if no_tags fact_pattern_tags user_tags then false
  else
    match set_and (py_set (tags_of fact_pattern_tags)) (py_set user_tags) with
    | [] => false
    | _ :: _ => true
    end.

(** [fact_overlap_score], on the column [self.fact_pattern_tags]. *)
Definition fact_overlap_score (fact_pattern_tags : option (list string))
  (user_tags : list string) : Q :=
  if no_tags fact_pattern_tags user_tags then 0.0
  else
    let link_set := py_set (tags_of fact_pattern_tags) in
    let user_set := py_set user_tags in
    let intersection := Z.of_nat (List.length (set_and link_set user_set)) in
    let union := Z.of_nat (List.length (set_or link_set user_set)) in
    if (union >? 0)%Z then inject_Z intersection / inject_Z union else 0.0.

(** The two tag lists name the same tags. *)
Definition same_tags (a b : list string) : Prop := forall x, In x a <-> In x b.

(** A binding link of boost 2.0 that applies only weakly: its
    applicability score is 0.3. *)
Definition weakly_applicable_link : InterpretationLink.t :=
  {| statute_id := "sg_statute_misrep_act_s2";
     case_id := "sg_case_2013_sgca_36_para_45";
     interpretation_type := "NARROW";
     authority := "BINDING";
     boost_factor := 2.0;
     applicability_score := Some 0.3;
     confidence := Some 0.9;
     extraction_method := Some "MANUAL";
     verified := Some true |}.

End LinkMethods.

Module LoaderChecks.
Import Py Loader.
Local Open Scope string_scope.
Local Open Scope list_scope.
Local Open Scope Z_scope.

(** The counters after [docs] have been handled, against the counters
    before: every document was counted once, as inserted or as skipped,
    no error was counted, and the status was left alone. *)
Definition counted (docs : list ParsedDocument) (r r' : IngestionResult) : Prop :=
  inserted r' + skipped r' = inserted r + skipped r + Z.of_nat (List.length docs)
  /\ inserted r <= inserted r'
  /\ errors r' = errors r
  /\ status r' = status r
  /\ total_documents r' = total_documents r
  /\ (forall x, In x (inserted_ids r) -> In x (inserted_ids r'))
  /\ (forall x, In x (skipped_ids r) -> In x (skipped_ids r'))
  /\ (forall d, In d docs ->
        In (id d) (inserted_ids r') \/ In (id d) (skipped_ids r'))
  /\ (forall d, In d docs -> level_violation (db_doc_of d) = true ->
        In (id d) (skipped_ids r')).

(** The row is one of [docs], and that document was reported as inserted. *)
Definition stored_from (docs : list ParsedDocument) (r' : IngestionResult)
  (row : Document.t) : Prop :=
  exists d, In d docs /\ row = db_doc_of d /\ In (id d) (inserted_ids r').

(** The table kept its rows and gained rows of [docs] only, at most as
    many as were reported inserted. *)
Definition grown (docs : list ParsedDocument) (table table' : list Document.t)
  (r r' : IngestionResult) : Prop :=
  exists added,
    table' = table ++ added
    /\ Z.of_nat (List.length added) <= inserted r' - inserted r
    /\ Forall (stored_from docs r') added.

(** The counters of a fresh [IngestionResult] for [n] documents. *)
Definition fresh_result (n : nat) : IngestionResult :=
  mkResult "success" (Z.of_nat n) 0 0 0 [] [] [].

End LoaderChecks.

(* ====================================================================== *)
(** * Tree integrity check of the loader module *)
(* ====================================================================== *)

Module TreeIntegrity.
Import Py Sql.
Local Open Scope string_scope.
Local Open Scope list_scope.
Local Open Scope Z_scope.

(** [str(n)] of an int. *)
Definition str_int (n : Z) : string := NilZero.string_of_int (Z.to_int n).

Definition sql_not (a : sql_bool) : sql_bool := option_map negb a.

Definition sql_is_not_null {A} (a : option A) : sql_bool :=
  sql_not (sql_is_null a).

(** [Document.parent_id.isnot(None),
     ~Document.parent_id.in_(session.query(Document.id))]. *)
Definition orphan_filter (table : list Document.t) (doc : Document.t) : bool :=
  where_holds
    (sql_and (sql_is_not_null (Document.parent_id doc))
             (sql_not (sql_in (Document.parent_id doc) (map Document.id table)))).

Definition orphaned (table : list Document.t) : list Document.t :=
  filter (orphan_filter table) table.

Definition orphan_message (doc : Document.t) : string :=
  fstring ["Orphaned document "; Document.id doc; ": parent ";
           match Document.parent_id doc with Some p => p | None => "None" end;
           " not found"].

(** [session.query(Document).filter(Document.parent_id.isnot(None)).all()]. *)
Definition docs_with_parents (table : list Document.t) : list Document.t :=
  filter (fun doc => where_holds (sql_is_not_null (Document.parent_id doc))) table.

(** The body of the second loop: the parent is the first row with the
    id, and a missing parent is passed over. *)
Definition level_mismatch (table : list Document.t) (doc : Document.t) : list string :=
  match Document.parent_id doc with
  | Some parent_id =>
      match find (fun r => String.eqb (Document.id r) parent_id) table with
      | Some parent =>
          if negb (Document.level doc =? Document.level parent + 1)
          then [fstring ["Level mismatch for "; Document.id doc;
                         ": level="; str_int (Document.level doc);
                         " but parent level="; str_int (Document.level parent)]]
          else []
      | None => []
      end
  | None => []
  end.

(** [validate_tree_integrity], on the rows of [documents]. *)
Definition validate_tree_integrity (table : list Document.t) : list string :=
  map orphan_message (orphaned table)
  ++ flat_map (level_mismatch table) (docs_with_parents table).

(** Every parent reference of [rows] points to a row of [rows]. *)
Definition resolved (rows : list Document.t) : Prop :=
  forall d p, In d rows -> Document.parent_id d = Some p ->
    In p (map Document.id rows).

End TreeIntegrity.

Module LoaderScenarios.
Import Py Loader.
Local Open Scope string_scope.
Local Open Scope list_scope.
Local Open Scope Z_scope.

(** An act, one of its sections, a paragraph filed two levels below the
    act, and a section whose parent is not in the source. *)
Definition tree_source : list ParsedDocument :=
  [ {| id := "act"; doc_type := "statute"; title := "Act"; full_text := "An Act";
       parent_id := None; level := 0; citation := None; hash := "h_act" |};
    {| id := "act_s1"; doc_type := "statute"; title := "Section 1";
       full_text := "Short title"; parent_id := Some "act"; level := 1;
       citation := None; hash := "h_s1" |};
    {| id := "act_p1"; doc_type := "statute"; title := "Paragraph";
       full_text := "Paragraph text"; parent_id := Some "act"; level := 2;
       citation := None; hash := "h_p1" |};
    {| id := "other_s1"; doc_type := "statute"; title := "Section 1";
       full_text := "Other text"; parent_id := Some "other"; level := 1;
       citation := None; hash := "h_o1" |} ].

End LoaderScenarios.

Module ModelChecks.
Import Py Sql Models.
Import InterpretationLink.

(** The CHECK constraints of the link model, without its NOT NULL. *)
Definition link_model_checks (l : InterpretationLink.t) : bool :=
  forallb check_holds
    [LinkModel.ck_valid_boost_factor l; LinkModel.ck_valid_applicability_score l;
     LinkModel.ck_valid_confidence l].

(** Every stored link passes those CHECK constraints. *)
Definition links_pass_checks (links : list InterpretationLink.t) : bool :=
  forallb link_model_checks links.

End ModelChecks.

Module AwareRanking.
Import Py Sql Aware.
Local Open Scope string_scope.
Local Open Scope list_scope.
Local Open Scope Q_scope.

(** The list is in non-increasing score order. *)
Definition descending (l : list Candidate) : Prop :=
  StronglySorted (fun a b => score b <= score a) l.

(** The number of results a call of [retrieve] asks for. *)
Definition effective_k (self : InterpretationAwareRetriever) (k : option Z) : Z :=
  int_or k (top_k (config self)).

(** The state of the boost loops lists the candidates first, under their
    own ids, then the added cases, in the order they were added, and no
    id twice. *)
Definition distinct_state (existing_ids : list string) (st : boost_state) : Prop :=
  map id (fst st) = existing_ids ++ rev (snd st)
  /\ NoDup (existing_ids ++ rev (snd st)).

(** The statute S and its case C1 are found by the dense search; the
    verified links of S name C1 and C2. *)
Definition linked_retriever : InterpretationAwareRetriever :=
  {| documents := [Scenarios.doc "S" "statute"; Scenarios.doc "C1" "case";
                   Scenarios.doc "C2" "case"];
     interpretation_links := [Scenarios.link "S" "C1" 2 (Some true);
                              Scenarios.link "S" "C2" 1.5 (Some true)];
     faiss_search := fun _ _ => Ok [(0%Z, 0); (1%Z, 1)];
     embeddings_create := fun _ _ => Ok [1; 0];
     doc_id_mapping := [(0%Z, "S"); (1%Z, "C1")];
     config := default_config;
     embedding_model := "text-embedding-3-large";
     db_error := fun _ => None |}.

(** The list a call returned ([[]] if it raised). *)
Definition candidates_of (m : IO (list Candidate)) : list Candidate :=
  match outcome m with
  | Ok l => l
  | Raise _ => []
  end.

(** What its dense search and its link query return. *)
Definition linked_candidates : list Candidate :=
  match outcome (_dense_search linked_retriever "misrepresentation" 30) with
  | Ok l => l
  | Raise _ => []
  end.

Definition linked_map : dict (list LinkRow) :=
  match outcome (_get_interpretation_links linked_retriever
                   (_extract_statute_ids linked_candidates)) with
  | Ok m => m
  | Raise _ => []
  end.

End AwareRanking.

Module DenseSearch.
Import Py Retrieval.
Local Open Scope string_scope.
Local Open Scope list_scope.
Local Open Scope Q_scope.

(** [r] was built from the FAISS hit [(idx, distance)] of [found]: the
    position is mapped to the id of a stored document, and the score is
    [1 / (1 + distance)]. *)
Definition dense_result_of (self : HybridRetriever) (found : list (Z * Q))
  (r : Result) : Prop :=
  exists doc idx distance,
    In (idx, distance) found
    /\ idx <> (-1)%Z
    /\ mapping_get (faiss_mapping self) idx = Some (Document.id doc)
    /\ In doc (documents self)
    /\ r = result_of_document doc (1.0 / (1.0 + distance)).

(** No distance is negative. *)
Definition distances_non_negative (found : list (Z * Q)) : bool :=
  forallb (fun hit => Qle_bool 0 (snd hit)) found.

(** A similarity: positive and at most 1. *)
Definition similarity_score (r : Result) : Prop := 0 < score r /\ score r <= 1.

End DenseSearch.

Module AwareLinks.
Import Py Sql Aware.
Local Open Scope string_scope.
Local Open Scope list_scope.
Local Open Scope Q_scope.

(** The rows of the link query, in the order the database returns them. *)
Definition link_rows (self : InterpretationAwareRetriever) (statute_ids : list string)
  : list LinkRow :=
  sort_by row_before
    (flat_map (join_document self)
       (filter (link_selected statute_ids) (interpretation_links self))).

(** [row] is about the statute [k]. *)
Definition for_statute (k : string) (row : LinkRow) : bool :=
  String.eqb (row_statute_id row) k.

(** Highest boost factor first. *)
Definition row_by_boost (a b : LinkRow) : Prop :=
  row_boost_factor b <= row_boost_factor a.

(** The group of a statute: all of its rows, strongest first. *)
Definition strongest_first (self : InterpretationAwareRetriever)
  (statute_ids : list string) (k : string) (rows : list LinkRow) : Prop :=
  rows = filter (for_statute k) (link_rows self statute_ids)
  /\ rows <> []
  /\ StronglySorted row_by_boost rows.

End AwareLinks.

(* ====================================================================== *)
(** * Properties *)
(* ====================================================================== *)

(** ** Python prelude: lists, sorting, dicts *)
Section PreludeFacts.
Import Py.

Lemma mem_In (x : string) (xs : list string) : mem x xs = true <-> In x xs.
Proof.
  unfold mem. rewrite existsb_exists. split.
  - intros [y [Hy Heq]]. apply String.eqb_eq in Heq. now subst.
  - intros H. exists x. split; [assumption | apply String.eqb_refl].
Qed.

Lemma insert_by_perm {A} (geb : A -> A -> bool) (x : A) (l : list A) :
  Permutation (x :: l) (insert_by geb x l).
Proof.
  induction l as [| y l IH]; simpl.
  - apply Permutation_refl.
  - destruct (geb x y).
    + apply Permutation_refl.
    + eapply perm_trans; [apply perm_swap |].
      now apply perm_skip.
Qed.

Lemma sort_by_perm {A} (geb : A -> A -> bool) (l : list A) :
  Permutation l (sort_by geb l).
Proof.
  induction l as [| x l IH]; simpl.
  - constructor.
  - eapply perm_trans; [apply perm_skip, IH | apply insert_by_perm].
Qed.

Lemma sort_by_In {A} (geb : A -> A -> bool) (l : list A) (x : A) :
  In x (sort_by geb l) <-> In x l.
Proof.
  split; intros H.
  - eapply Permutation_in; [apply Permutation_sym, sort_by_perm | exact H].
  - eapply Permutation_in; [apply sort_by_perm | exact H].
Qed.

Lemma sorted_desc_In {A} (key : A -> Q) (l : list A) (x : A) :
  In x (sorted_desc key l) <-> In x l.
Proof. apply sort_by_In. Qed.

Lemma firstn_subset {A} (n : nat) (l : list A) (x : A) :
  In x (firstn n l) -> In x l.
Proof.
  revert l. induction n as [| n IH]; intros [| y l]; simpl; try tauto.
  intros [H | H]; [now left | right; now apply IH].
Qed.

Lemma slice_to_In {A} (l : list A) (k : Z) (x : A) :
  In x (slice_to l k) -> In x l.
Proof.
  unfold slice_to. destruct (k <? 0)%Z; apply firstn_subset.
Qed.

Lemma dict_get_In {V} (d : dict V) (k : string) (v : V) :
  dict_get d k = Some v -> In (k, v) d.
Proof.
  induction d as [| [k' v'] d IH]; simpl; [discriminate |].
  destruct (String.eqb k k') eqn:E.
  - apply String.eqb_eq in E. intros [= ->]. subst. now left.
  - intros H. right. now apply IH.
Qed.

Lemma dict_set_values {V} (P : V -> Prop) (d : dict V) (k : string) (v : V) :
  Forall P (dict_values d) -> P v -> Forall P (dict_values (dict_set d k v)).
Proof.
  unfold dict_values.
  induction d as [| [k' v'] d IH]; simpl; intros Hd Hv.
  - now constructor.
  - inversion Hd; subst.
    destruct (String.eqb k k'); simpl; constructor; auto.
Qed.

End PreludeFacts.

(** ** Computations with requests *)

Section MonadFacts.
Import Py.

Lemma bind_ok {A B} (m : IO A) (f : A -> IO B) (a : A) (t : list Event) :
  m = (Ok a, t) -> bind m f = (outcome (f a), t ++ requests (f a)).
Proof. intros ->. unfold bind. now destruct (f a). Qed.

Lemma bind_raise {A B} (m : IO A) (f : A -> IO B) (e : PyExn) (t : list Event) :
  m = (Raise e, t) -> bind m f = (Raise e, t).
Proof. now intros ->. Qed.

(** A loop keeps what its body keeps, as long as the body returns, and
    its requests are requests of the body. *)
Lemma for_each_invariant {A B} (I : B -> Prop) (E : Event -> Prop)
  (body : B -> A -> IO B) (xs : list A) :
  (forall acc x, In x xs -> I acc ->
     if_ok I (outcome (body acc x)) /\ Forall E (requests (body acc x))) ->
  forall acc, I acc ->
    if_ok I (outcome (for_each xs acc body))
    /\ Forall E (requests (for_each xs acc body)).
Proof.
  induction xs as [| x xs IH]; intros Hbody acc Hacc; cbn [for_each].
  - split; [exact Hacc | constructor].
  - destruct (Hbody acc x (or_introl eq_refl) Hacc) as [Ho Hr].
    destruct (body acc x) as [[acc' | e] t] eqn:Eb; simpl in Ho, Hr.
    + assert (Hrest : forall a y, In y xs -> I a ->
                if_ok I (outcome (body a y)) /\ Forall E (requests (body a y))).
      { intros a y Hy. apply Hbody. now right. }
      destruct (IH Hrest acc' Ho) as [Ho' Hr'].
      unfold bind.
      destruct (for_each xs acc' body) as [r' t']. simpl in *.
      split; [exact Ho' |]. apply Forall_app. now split.
    + unfold bind. simpl. split; [exact Ho | exact Hr].
Qed.

(** [try: m except Exception: return v] always returns. *)
Lemma try_except_ret {A} (m : IO A) (v : A) :
  try_except m (fun _ => ret v)
  = (Ok (match outcome m with Ok a => a | Raise _ => v end), requests m).
Proof.
  destruct m as [[a | e] t]; simpl; [reflexivity |].
  now rewrite app_nil_r.
Qed.

End MonadFacts.

(** ** Sorted lists *)
Section SortedFacts.
Import Py.
Context {A : Type} (R : A -> A -> Prop) (geb : A -> A -> bool).
Hypothesis geb_true : forall x y, geb x y = true -> R x y.
Hypothesis geb_false : forall x y, geb x y = false -> R y x.
Hypothesis R_trans : forall x y z, R x y -> R y z -> R x z.

Lemma insert_by_sorted (x : A) (l : list A) :
  StronglySorted R l -> StronglySorted R (insert_by geb x l).
Proof.
  induction 1 as [| y l Hl IH Hy]; simpl.
  - repeat constructor.
  - destruct (geb x y) eqn:E.
    + constructor; [now constructor |].
      constructor; [now apply geb_true |].
      eapply Forall_impl; [| exact Hy]. intros z Hz.
      eapply R_trans; [apply geb_true; eassumption | assumption].
    + constructor; [assumption |].
      eapply Permutation_Forall; [apply insert_by_perm |].
      constructor; [now apply geb_false | assumption].
Qed.

Lemma sort_by_sorted (l : list A) : StronglySorted R (sort_by geb l).
Proof.
  induction l as [| x l IH]; simpl; [constructor | now apply insert_by_sorted].
Qed.

End SortedFacts.

Section StronglySortedFacts.
Context {A : Type} (R : A -> A -> Prop).

Lemma strongly_sorted_firstn (n : nat) (l : list A) :
  StronglySorted R l -> StronglySorted R (firstn n l).
Proof.
  revert l. induction n as [| n IH]; intros l H; [constructor |].
  destruct l as [| x l]; [constructor |]. simpl.
  apply StronglySorted_inv in H. destruct H as [Hl Hx].
  constructor; [now apply IH |].
  apply Forall_forall. intros y Hy. apply firstn_subset in Hy.
  rewrite Forall_forall in Hx. now apply Hx.
Qed.

Lemma strongly_sorted_drop (l1 : list A) (x : A) (l2 : list A) :
  StronglySorted R (l1 ++ x :: l2) -> StronglySorted R (l1 ++ l2).
Proof.
  induction l1 as [| y l1 IH]; simpl; intros H.
  - now apply StronglySorted_inv in H.
  - apply StronglySorted_inv in H. destruct H as [Hl Hy].
    constructor; [now apply IH |].
    apply Forall_app in Hy. destruct Hy as [H1 H2].
    apply Forall_app. split; [assumption |]. now inversion H2.
Qed.

Lemma strongly_sorted_prefix (l1 l2 : list A) :
  StronglySorted R (l1 ++ l2) -> StronglySorted R l1.
Proof.
  induction l1 as [| y l1 IH]; simpl; intros H; [constructor |].
  apply StronglySorted_inv in H. destruct H as [Hl Hy].
  constructor; [now apply IH |].
  apply Forall_app in Hy. tauto.
Qed.

End StronglySortedFacts.

(** ** Dicts *)
Section DictFacts.
Import Py.
Context {V : Type}.

Lemma dict_get_set (d : dict V) (k0 k : string) (v0 : V) :
  dict_get (dict_set d k0 v0) k
  = if String.eqb k k0 then Some v0 else dict_get d k.
Proof.
  induction d as [| [k' v'] d IH]; simpl.
  - reflexivity.
  - destruct (String.eqb k0 k') eqn:E0; simpl.
    + apply String.eqb_eq in E0. subst k'.
      destruct (String.eqb k k0); reflexivity.
    + destruct (String.eqb k k') eqn:E1.
      * apply String.eqb_eq in E1. subst k'.
        rewrite String.eqb_sym, E0. reflexivity.
      * apply IH.
Qed.

Lemma dict_set_keys (d : dict V) (k0 k : string) (v0 : V) :
  In k (map fst (dict_set d k0 v0)) <-> k = k0 \/ In k (map fst d).
Proof.
  induction d as [| [k' v'] d IH]; simpl.
  - intuition.
  - destruct (String.eqb k0 k') eqn:E0; simpl.
    + apply String.eqb_eq in E0. subst k'. intuition.
    + rewrite IH. intuition.
Qed.

Lemma dict_set_nodup (d : dict V) (k0 : string) (v0 : V) :
  NoDup (map fst d) -> NoDup (map fst (dict_set d k0 v0)).
Proof.
  induction d as [| [k' v'] d IH]; simpl; intros H.
  - repeat constructor. intros [].
  - inversion H as [| ? ? Hnotin Hd]; subst.
    destruct (String.eqb k0 k') eqn:E0; simpl.
    + constructor; assumption.
    + constructor; [| now apply IH].
      rewrite dict_set_keys. intros [-> | Hin]; [| contradiction].
      rewrite String.eqb_refl in E0. discriminate.
Qed.

Lemma In_dict_get (d : dict V) (k : string) (v : V) :
  NoDup (map fst d) -> In (k, v) d -> dict_get d k = Some v.
Proof.
  induction d as [| [k' v'] d IH]; simpl; intros Hnd Hin; [contradiction |].
  inversion Hnd as [| ? ? Hnotin Hd]; subst.
  destruct Hin as [[= -> ->] | Hin].
  - now rewrite String.eqb_refl.
  - destruct (String.eqb k k') eqn:E.
    + apply String.eqb_eq in E. subst k'.
      exfalso. apply Hnotin. apply in_map_iff. now exists (k, v).
    + now apply IH.
Qed.

Lemma dict_get_keys (d : dict V) (k : string) :
  dict_get d k <> None <-> In k (map fst d).
Proof.
  induction d as [| [k' v'] d IH]; simpl.
  - intuition.
  - destruct (String.eqb k k') eqn:E.
    + apply String.eqb_eq in E. subst. intuition congruence.
    + rewrite IH. apply String.eqb_neq in E. intuition congruence.
Qed.

Lemma dict_set_In_weak (d : dict V) (k0 k : string) (v0 v : V) :
  In (k, v) (dict_set d k0 v0) -> (k = k0 /\ v = v0) \/ In (k, v) d.
Proof.
  induction d as [| [k' v'] d IH]; simpl.
  - intros [[= <- <-] | []]. now left.
  - destruct (String.eqb k0 k') eqn:E; simpl.
    + apply String.eqb_eq in E. subst k'.
      intros [[= <- <-] | H]; [now left | right; now right].
    + intros [H | H]; [right; now left |].
      destruct (IH H) as [? | ?]; [now left | right; now right].
Qed.

(** The WHERE clause keeps a link only if its statute is asked for and
    its [verified] flag is true or NULL. *)

End DictFacts.

(** ** Interpretation-link constraints *)
Section LinkConstraints.
Import Py Sql Models InterpretationLink.
Local Open Scope Q_scope.

Lemma in_range_holds (x lo hi : Q) :
  check_holds (in_range (Some x) lo hi) = true -> lo <= x /\ x <= hi.
Proof.
  unfold in_range, sql_ge, sql_le, sql_and, check_holds.
  destruct (Qle_bool lo x) eqn:E1, (Qle_bool x hi) eqn:E2;
    try discriminate.
  intros _. split; now apply Qle_bool_iff.
Qed.


(** What [interpretation_link.py] guarantees: the upper bound is 5. *)
Lemma link_model_admits_in_range (l : t) :
  LinkModel.admits l = true ->
  (1.0 <= boost_factor l /\ boost_factor l <= 5.0) /\
  (forall a, applicability_score l = Some a -> 0 <= a /\ a <= 1).
Proof.
  unfold LinkModel.admits. simpl.
  rewrite !andb_true_iff.
  intros ((Hboost & Happ & _) & _).
  split.
  - now apply in_range_holds.
  - intros a Ha. unfold LinkModel.ck_valid_applicability_score in Happ.
    rewrite Ha in Happ. simpl in Happ.
    apply in_range_holds.
    destruct (in_range (Some a) 0 1) as [[|]|]; simpl in *; auto.
Qed.

(** C1. The claim bounds the boost of every admitted link by 3.0.  The
    table declared in [interpretation_link.py] (the class the retriever
    imports) checks [boost_factor <= 5.0]: a link with boost 4.0 is
    inserted, while [models.py] and the migration, which declare the same
    table, reject it.  In turn [models.py] has no check on
    [applicability_score] and admits 1.5. *)
Theorem C1_link_model_admits_boost_4 :
  insert_link LinkModel.admits [] link_boost_4 = Ok [link_boost_4]
  /\ ~ (boost_factor link_boost_4 <= 3.0)
  /\ FlatModel.admits link_boost_4 = false
  /\ Migration.admits link_boost_4 = false
  /\ insert_link FlatModel.admits [] link_applicability_above_1
     = Ok [link_applicability_above_1]
  /\ applicability_score link_applicability_above_1 = Some 1.5
  /\ LinkModel.admits link_applicability_above_1 = false.
Proof.
  repeat split; try reflexivity.
  intros H. vm_compute in H. apply H. reflexivity.
Qed.

End LinkConstraints.

(** ** The three declarations of the link table *)
Section DeclarationFacts.
Import Py Sql Models ModelChecks.
Import InterpretationLink.
Local Open Scope Q_scope.






End DeclarationFacts.

(** ** Helper methods of the link model *)
Section LinkMethodFacts.
Import Py Sql Models LinkMethods ModelChecks.
Import InterpretationLink.
Local Open Scope string_scope.
Local Open Scope list_scope.
Local Open Scope Q_scope.

Lemma link_model_checks_in_range (l : t) :
  link_model_checks l = true ->
  (1 <= boost_factor l /\ boost_factor l <= 5) /\
  (forall a, applicability_score l = Some a -> 0 <= a /\ a <= 1).
Proof.
  unfold link_model_checks. simpl. rewrite !andb_true_iff.
  intros (Hboost & Happ & _). split.
  - apply in_range_holds in Hboost. lra.
  - intros a Ha. unfold LinkModel.ck_valid_applicability_score in Happ.
    rewrite Ha in Happ. simpl in Happ.
    apply in_range_holds.
    destruct (in_range (Some a) 0 1) as [[|]|]; simpl in *; auto.
Qed.

(** X14. For a link that passes the three CHECK constraints of the link
    model, the effective boost is positive and never above the stored
    boost factor (so at most 5).  It is the product of the boost factor
    and the applicability score when that score is present and not 0,
    and the stored boost factor itself when the score is missing or 0.
    It can fall below 1: a link of boost 2.0 and applicability 0.3
    passes the constraints and has an effective boost of 0.6. *)
Theorem effective_boost_bounds :
  (forall self : InterpretationLink.t,
   link_model_checks self = true ->
   0 < effective_boost self
   /\ effective_boost self <= boost_factor self
   /\ boost_factor self <= 5
   /\ (forall a, applicability_score self = Some a -> ~ a == 0 ->
         effective_boost self = boost_factor self * a)
   /\ (forall a, applicability_score self = Some a -> a == 0 ->
         effective_boost self = boost_factor self)
   /\ (applicability_score self = None -> effective_boost self = boost_factor self))
  /\ link_model_checks weakly_applicable_link = true
  /\ effective_boost weakly_applicable_link == 0.6
  /\ effective_boost weakly_applicable_link < 1.
Proof.
  split; [| split; [reflexivity | split; [reflexivity | reflexivity]]].
  intros self Hadm.
  destruct (link_model_checks_in_range self Hadm) as [[Hb1 Hb2] Happ].
  unfold effective_boost.
  destruct (applicability_score self) as [a |] eqn:Ea.
  - destruct (Happ a eq_refl) as [Ha0 Ha1].
    destruct (Qeq_bool a 0) eqn:E0.
    + apply Qeq_bool_iff in E0.
      split; [lra |]. split; [lra |]. split; [lra |].
      split; [intros a' [= <-] Hne; contradiction |].
      split; [reflexivity | discriminate].
    + apply Qeq_bool_neq in E0.
      assert (Hpos : 0 < a).
      { apply Qle_lteq in Ha0. destruct Ha0 as [H | H]; [assumption |].
        exfalso. apply E0. now symmetry. }
      assert (0 < boost_factor self * a) by (apply Qmult_lt_0_compat; lra).
      assert (0 <= boost_factor self * (1 - a)) by (apply Qmult_le_0_compat; lra).
      split; [lra |]. split; [lra |]. split; [lra |].
      split; [intros a' [= <-] _; reflexivity |].
      split; [| discriminate].
      intros a' [= <-] Hz. contradiction.
  - split; [lra |]. split; [lra |]. split; [lra |].
    split; [discriminate |]. split; [discriminate | reflexivity].
Qed.

Lemma effective_boost_witness :
  0 < effective_boost link_boost_4
  /\ effective_boost link_boost_4 <= boost_factor link_boost_4
  /\ boost_factor link_boost_4 <= 5
  /\ (forall a, applicability_score link_boost_4 = Some a -> ~ a == 0 ->
        effective_boost link_boost_4 = boost_factor link_boost_4 * a)
  /\ (forall a, applicability_score link_boost_4 = Some a -> a == 0 ->
        effective_boost link_boost_4 = boost_factor link_boost_4)
  /\ (applicability_score link_boost_4 = None ->
      effective_boost link_boost_4 = boost_factor link_boost_4).
Proof.
  apply (proj1 effective_boost_bounds link_boost_4). reflexivity.
Defined.

Lemma filter_length_le {A} (f : A -> bool) (l : list A) :
  (List.length (filter f l) <= List.length l)%nat.
Proof.
  induction l as [| x l IH]; simpl; [lia |]. destruct (f x); simpl; lia.
Qed.

Lemma filter_length_all {A} (f : A -> bool) (l : list A) :
  List.length (filter f l) = List.length l -> forall x, In x l -> f x = true.
Proof.
  induction l as [| y l IH]; simpl; [contradiction |].
  pose proof (filter_length_le f l) as Hle.
  destruct (f y) eqn:E; simpl; intros Hlen x [<- | Hx]; try assumption; try lia.
  apply IH; [lia | assumption].
Qed.

Lemma filter_all {A} (f : A -> bool) (l : list A) :
  (forall x, In x l -> f x = true) -> filter f l = l.
Proof.
  induction l as [| y l IH]; simpl; intros H; [reflexivity |].
  rewrite (H y (or_introl eq_refl)). f_equal. apply IH. intros x Hx. apply H. now right.
Qed.

Lemma filter_none {A} (f : A -> bool) (l : list A) :
  (forall x, In x l -> f x = false) -> filter f l = [].
Proof.
  induction l as [| y l IH]; simpl; intros H; [reflexivity |].
  rewrite (H y (or_introl eq_refl)). apply IH. intros x Hx. apply H. now right.
Qed.

Lemma set_sizes (a b : list string) :
  (List.length (set_and a b) <= List.length a)%nat
  /\ (List.length a <= List.length (set_or a b))%nat.
Proof.
  unfold set_and, set_or. split; [apply filter_length_le |].
  rewrite length_app. lia.
Qed.

Lemma set_sizes_equal (a b : list string) :
  List.length (set_and a b) = List.length (set_or a b)
  <-> (forall x, In x a <-> In x b).
Proof.
  pose proof (set_sizes a b) as [H1 H2]. unfold set_and, set_or in *.
  rewrite length_app in *. split.
  - intros H.
    assert (Ha : List.length (filter (fun x => mem x b) a) = List.length a) by lia.
    assert (Hb : List.length (filter (fun x => negb (mem x a)) b) = 0%nat) by lia.
    intros x. split; intros Hx.
    + apply mem_In. exact (filter_length_all _ _ Ha x Hx).
    + destruct (mem x a) eqn:E; [now apply mem_In |].
      exfalso. apply length_zero_iff_nil in Hb.
      assert (Hin : In x (filter (fun x => negb (mem x a)) b)).
      { apply filter_In. split; [assumption | now rewrite E]. }
      rewrite Hb in Hin. contradiction.
  - intros H. rewrite filter_all, filter_none; [simpl; lia | |].
    + intros x Hx. apply negb_false_iff. apply mem_In. now apply H.
    + intros x Hx. apply mem_In. now apply H.
Qed.

Lemma inject_nat_le (n m : nat) :
  (n <= m)%nat -> inject_Z (Z.of_nat n) <= inject_Z (Z.of_nat m).
Proof.
  intros H. rewrite <- Zle_Qle. lia.
Qed.

(** X15. [fact_overlap_score] lies between 0 and 1; it is positive exactly
    when [matches_fact_pattern] holds, and 1 exactly when both tag lists
    are non-empty and name the same tags.  When the link's tags are NULL
    or empty, or there are no user tags, the score is 0.0 and there is
    no match. *)
Theorem fact_overlap_score_range :
  forall (fact_pattern_tags : option (list string)) (user_tags : list string),
  0 <= fact_overlap_score fact_pattern_tags user_tags
  /\ fact_overlap_score fact_pattern_tags user_tags <= 1
  /\ (0 < fact_overlap_score fact_pattern_tags user_tags
      <-> matches_fact_pattern fact_pattern_tags user_tags = true)
  /\ (fact_overlap_score fact_pattern_tags user_tags == 1
      <-> (exists t ts, fact_pattern_tags = Some (t :: ts))
          /\ user_tags <> []
          /\ same_tags (tags_of fact_pattern_tags) user_tags)
  /\ (fact_pattern_tags = None \/ fact_pattern_tags = Some [] \/ user_tags = [] ->
      fact_overlap_score fact_pattern_tags user_tags = 0.0
      /\ matches_fact_pattern fact_pattern_tags user_tags = false).
Proof.
  intros tags user.
  assert (Hno : no_tags tags user = false
                <-> (exists t ts, tags = Some (t :: ts)) /\ user <> []).
  { unfold no_tags. destruct tags as [[| t ts] |], user as [| u us]; split;
      try discriminate; try reflexivity;
      try (intros [(t' & ts' & H) Hu]; first [discriminate | contradiction]);
      try (intros _; split; [eauto | discriminate]). }
  assert (Hyes : tags = None \/ tags = Some [] \/ user = [] -> no_tags tags user = true).
  { unfold no_tags. intros [-> | [-> | ->]]; [reflexivity | reflexivity |].
    now destruct tags as [[| t ts] |]. }
  unfold fact_overlap_score, matches_fact_pattern.
  destruct (no_tags tags user) eqn:En.
  { split; [lra |]. split; [lra |].
    split; [split; intros H; [lra | discriminate] |].
    split; [| intros _; now split].
    split; intros H; [lra |].
    destruct H as (H1 & H2 & _).
    assert (true = false) by (apply Hno; now split). discriminate. }
  cbv zeta.
  set (a := py_set (tags_of tags)). set (b := py_set user).
  pose proof (set_sizes a b) as [H1 H2].
  assert (Ha : (0 < List.length a)%nat).
  { unfold a, py_set. destruct tags as [[| t ts] |]; simpl in En; try discriminate.
    assert (Hin : In t (nodup string_dec (tags_of (Some (t :: ts)))))
      by (apply nodup_In; now left).
    destruct (nodup string_dec (tags_of (Some (t :: ts)))); [contradiction | simpl; lia]. }
  set (i := List.length (set_and a b)) in *.
  set (u := List.length (set_or a b)) in *.
  assert (Hu : (0 < u)%nat) by lia.
  assert (Hgt : (Z.of_nat u >? 0)%Z = true) by (apply Z.gtb_lt; lia).
  rewrite Hgt.
  assert (Huq : 0 < inject_Z (Z.of_nat u)).
  { replace 0 with (inject_Z 0) by reflexivity. rewrite <- Zlt_Qlt. lia. }
  assert (Hiq : 0 <= inject_Z (Z.of_nat i)).
  { replace 0 with (inject_Z 0) by reflexivity. rewrite <- Zle_Qle. lia. }
  assert (Hle : inject_Z (Z.of_nat i) <= inject_Z (Z.of_nat u))
    by (apply inject_nat_le; lia).
  split; [apply Qle_shift_div_l; [assumption | lra] |].
  split; [apply Qle_shift_div_r; [assumption | lra] |].
  split; [| split].
  - assert (Hpos : 0 < inject_Z (Z.of_nat i) / inject_Z (Z.of_nat u) <-> (0 < i)%nat).
    { split.
      - intros H. destruct i; [| lia]. exfalso. simpl in H.
        unfold Qdiv in H. rewrite Qmult_0_l in H. lra.
      - intros H. apply Qlt_shift_div_l; [assumption |].
        rewrite Qmult_0_l. replace 0 with (inject_Z 0) by reflexivity.
        rewrite <- Zlt_Qlt. lia. }
    rewrite Hpos. unfold i. destruct (set_and a b); simpl; split; intros H;
      try lia; try discriminate; reflexivity.
  - assert (Hone : inject_Z (Z.of_nat i) / inject_Z (Z.of_nat u) == 1 <-> i = u).
    { split.
      - intros H.
        assert (Heq : inject_Z (Z.of_nat i) == inject_Z (Z.of_nat u)).
        { assert (Hne : ~ inject_Z (Z.of_nat u) == 0) by lra.
          pose proof (@Qmult_div_r (inject_Z (Z.of_nat i)) (inject_Z (Z.of_nat u)) Hne)
            as Hm.
          rewrite H in Hm. lra. }
        destruct (inject_Z_injective (Z.of_nat i) (Z.of_nat u)) as [Hinj _].
        apply Nat2Z.inj. now apply Hinj.
      - intros ->. apply Qmult_inv_r. lra. }
    rewrite Hone. unfold i, u. rewrite set_sizes_equal.
    destruct (proj1 Hno eq_refl) as [Htags Huser].
    unfold same_tags, a, b, py_set. split.
    + intros H. split; [exact Htags |]. split; [exact Huser |]. intros x.
      rewrite <- (nodup_In string_dec (tags_of tags)), <- (nodup_In string_dec user).
      apply H.
    + intros (_ & _ & H) x. rewrite !nodup_In. apply H.
  - intros H. apply Hyes in H. discriminate.
Qed.

End LinkMethodFacts.

(** ** Synthesis scorer *)
Section SynthesisFacts.
Import SynthesisScorer.
Local Open Scope Q_scope.

(** C7, as stated, fails: with the synthesis section missing and the
    other three sections perfect, the overall score is exactly 0.70, which
    passes. *)
Lemma C7_three_perfect_sections_reach_threshold :
  well_scored three_perfect_sections
  /\ synthesis_score three_perfect_sections == 0
  /\ 0.70 <= overall_score three_perfect_sections
  /\ passed three_perfect_sections = true.
Proof.
  unfold well_scored, in_unit. simpl.
  repeat split; try (vm_compute; congruence).
Qed.

(** C7, amended.  [overall] is the weighted sum with weights 0.25, 0.25,
    0.30, 0.20 and [passed] holds iff [overall >= 0.70]; when the synthesis
    score is 0, [overall] never exceeds 0.70 and reaches 0.70 exactly when
    the three other sections all score 1. *)
Theorem C7_missing_synthesis_caps_overall (s : SectionScores) :
  well_scored s ->
  synthesis_score s == 0 ->
  overall_score s ==
    0.25 * statute_score s + 0.25 * interpretation_score s
    + 0.30 * synthesis_score s + 0.20 * practical_effect_score s
  /\ (passed s = true <-> 0.70 <= overall_score s)
  /\ overall_score s <= 0.70
  /\ (0.70 <= overall_score s <->
      statute_score s == 1 /\ interpretation_score s == 1
      /\ practical_effect_score s == 1).
Proof.
  unfold well_scored, in_unit, passed, overall_score.
  intros ((Ha0 & Ha1) & (Hb0 & Hb1) & _ & (Hd0 & Hd1)) Hsyn.
  split; [reflexivity |].
  split; [apply Qle_bool_iff |].
  rewrite Hsyn.
  split; [lra |].
  split.
  - intros H. repeat split; lra.
  - intros (Ha & Hb & Hd). rewrite Ha, Hb, Hd. lra.
Qed.

Lemma C7_missing_synthesis_witness :
  well_scored three_good_sections
  /\ synthesis_score three_good_sections == 0
  /\ overall_score three_good_sections <= 0.70
  /\ passed three_good_sections = false.
Proof.
  assert (Hw : well_scored three_good_sections).
  { unfold well_scored, in_unit. simpl. repeat split; vm_compute; congruence. }
  assert (Hs : synthesis_score three_good_sections == 0) by reflexivity.
  destruct (C7_missing_synthesis_caps_overall Hw Hs) as (_ & _ & Hle & _).
  repeat split; try exact Hle; try apply Hw; reflexivity.
Defined.

End SynthesisFacts.

(** ** Pipeline construction *)
Section PipelineFacts.
Import Py Pipeline.
Local Open Scope string_scope.

(** C9. Whatever the arguments, [StandardIngestionPipeline.__init__]
    raises [NameError] for [rules_parser], a name that is neither a
    parameter, nor a module global, nor a builtin; so [run_ingestion]
    raises the same error and never calls [run]. *)
Theorem C9_init_raises_name_error :
  forall source_adapter statute_parser case_parser loader batch_size : PyObj,
    __init__ source_adapter statute_parser case_parser loader batch_size
    = Raise (NameError "rules_parser")
    /\ forall (R : Type) (run : StandardIngestionPipeline -> res R),
         run_ingestion run source_adapter loader statute_parser case_parser batch_size
         = Raise (NameError "rules_parser").
Proof.
  intros sa sp cp ld bs.
  assert (H : __init__ sa sp cp ld bs = Raise (NameError "rules_parser")).
  { unfold __init__, py_or. cbn [res_bind].
    change (load_name _ "source_adapter") with (Ok sa).
    change (load_name _ "statute_parser") with (Ok sp).
    cbn [res_bind].
    destruct (truthy sp); reflexivity. }
  split; [exact H |].
  intros R run. unfold run_ingestion. rewrite H. reflexivity.
Qed.

End PipelineFacts.

(** ** The two searches *)

Section SearchFacts.
Import Py Sql Retrieval.
Local Open Scope string_scope.
Local Open Scope list_scope.
Local Open Scope Q_scope.

Variable self : HybridRetriever.

Lemma result_of_hit_plain (hit : EsHit) : plain (result_of_hit hit).
Proof. unfold plain; simpl. repeat split; congruence. Qed.

Lemma result_of_document_plain (doc : Document.t) (sim : Q) :
  plain (result_of_document doc sim).
Proof. unfold plain; simpl. repeat split; congruence. Qed.

(** [_bm25_search] never raises and issues one Elasticsearch request. *)
Lemma bm25_search_total (query : string) (k : Z) :
  exists l, _bm25_search self query k = (Ok l, [EsSearch "legal_documents" query k])
            /\ Forall plain l.
Proof.
  unfold _bm25_search, try_except, bind, call, ret.
  destruct (es_search self query k) as [hits | e]; simpl.
  - eexists; split; [reflexivity |].
    apply Forall_forall. intros r Hr. apply in_map_iff in Hr.
    destruct Hr as [h [<- _]]. apply result_of_hit_plain.
  - exists []. split; [reflexivity | constructor].
Qed.

(** A database call raises what [db_error] says, or answers. *)
Lemma db_call_cases {A} (request : Event) (answer : A) :
  (exists e, db_error self request = Some e
             /\ db_call self request answer = (Raise e, [request]))
  \/ (db_error self request = None
      /\ db_call self request answer = (Ok answer, [request])).
Proof.
  unfold db_call, call. destruct (db_error self request) as [e |].
  - left. now exists e.
  - right. now split.
Qed.

Lemma query_document_cases (doc_id : string) :
  (exists e, db_error self (QueryDocument doc_id) = Some e
             /\ query_document self doc_id = (Raise e, [QueryDocument doc_id]))
  \/ (db_error self (QueryDocument doc_id) = None
      /\ query_document self doc_id
         = (Ok (find (fun d => String.eqb (Document.id d) doc_id) (documents self)),
            [QueryDocument doc_id])).
Proof. apply db_call_cases. Qed.

Lemma dense_hit_plain (results : list Result) (hit : Z * Q) :
  Forall plain results ->
  if_ok (Forall plain) (outcome (dense_hit self results hit))
  /\ Forall not_link_query (requests (dense_hit self results hit)).
Proof.
  intros Hres. unfold dense_hit. destruct hit as [idx distance].
  destruct (idx =? -1)%Z; [split; [exact Hres | constructor] |].
  destruct (mapping_get (faiss_mapping self) idx) as [doc_id |];
    [| split; [exact Hres | constructor]].
  destruct (query_document_cases doc_id) as [(e & _ & E) | (_ & E)];
    unfold bind; rewrite E.
  - split; [exact I | repeat constructor].
  - destruct (find _ (documents self)) as [doc |]; simpl.
    + split; [| repeat constructor].
      apply Forall_app. split; [assumption |].
      constructor; [apply result_of_document_plain | constructor].
    + split; [assumption | repeat constructor].
Qed.

(** The body of the [try] of [_dense_search]. *)
Lemma dense_search_body_plain (query : string) (k : Z) :
  if_ok (Forall plain)
    (outcome (bind (_get_embedding self query) (fun query_embedding =>
              bind (call (FaissSearch k) (faiss_search self query_embedding k))
                   (fun found => for_each found [] (dense_hit self)))))
  /\ Forall not_link_query
       (requests (bind (_get_embedding self query) (fun query_embedding =>
                  bind (call (FaissSearch k) (faiss_search self query_embedding k))
                       (fun found => for_each found [] (dense_hit self))))).
Proof.
  unfold _get_embedding, call.
  destruct (embeddings_create self (embedding_model self) query) as [emb | e];
    [| simpl; split; repeat constructor].
  cbn [bind].
  destruct (faiss_search self emb k) as [found | e];
    [| simpl; split; repeat constructor].
  cbn [bind].
  destruct (@for_each_invariant _ _ (Forall plain) not_link_query (dense_hit self) found)
    with (acc := @nil Result) as [Ho Hr].
  - intros acc x _ Hacc. now apply dense_hit_plain.
  - constructor.
  - destruct (for_each found [] (dense_hit self)) as [r t]. simpl in *.
    split; [exact Ho | repeat constructor; exact Hr].
Qed.

(** [_dense_search] never raises and never queries the link table: the
    embedding call, the index search and the document lookups all sit in
    its [try]. *)
Lemma dense_search_total (query : string) (k : Z) :
  exists l evs, _dense_search self query k = (Ok l, evs)
                /\ Forall plain l /\ Forall not_link_query evs.
Proof.
  unfold _dense_search. rewrite try_except_ret.
  eexists; eexists. split; [reflexivity |].
  destruct (dense_search_body_plain query k) as [Ho Hr].
  split; [| exact Hr].
  destruct (outcome _) as [l | e]; [exact Ho | constructor].
Qed.

(** When the embedding call raises, [_dense_search] returns the empty
    list after that one request. *)
Lemma dense_search_embedding_failed (query : string) (k : Z) (e : PyExn) :
  embeddings_create self (embedding_model self) query = Raise e ->
  _dense_search self query k
  = (Ok [], [EmbeddingsCreate (embedding_model self) query]).
Proof.
  intros H. unfold _dense_search, _get_embedding, try_except, bind, call.
  rewrite H. reflexivity.
Qed.

End SearchFacts.

(** ** What the dense search returns *)
Section DenseSearchFacts.
Import Py Retrieval Ranking DenseSearch.
Local Open Scope string_scope.
Local Open Scope list_scope.
Local Open Scope Q_scope.

Variable self : HybridRetriever.

Lemma dense_result_of_mono (found found' : list (Z * Q)) (r : Result) :
  (forall h, In h found -> In h found') ->
  dense_result_of self found r -> dense_result_of self found' r.
Proof.
  intros Hsub (doc & idx & d & H1 & H2). exists doc, idx, d.
  split; [now apply Hsub | exact H2].
Qed.

Lemma dense_hit_spec (results : list Result) (hit : Z * Q) :
  if_ok (fun l => exists added,
           l = results ++ added
           /\ Forall (dense_result_of self [hit]) added
           /\ (List.length added <= 1)%nat)
        (outcome (dense_hit self results hit)).
Proof.
  assert (Hnone : exists added,
            results = results ++ added
            /\ Forall (dense_result_of self [hit]) added
            /\ (List.length added <= 1)%nat).
  { exists []. rewrite app_nil_r. repeat split; auto. }
  unfold dense_hit. destruct hit as [idx distance].
  destruct (idx =? -1)%Z eqn:Ei; [exact Hnone |].
  apply Z.eqb_neq in Ei.
  destruct (mapping_get (faiss_mapping self) idx) as [doc_id |] eqn:Em;
    [| exact Hnone].
  destruct (query_document_cases self doc_id) as [(e & _ & E) | (_ & E)];
    unfold bind; rewrite E; [exact I |].
  destruct (find _ (documents self)) as [doc |] eqn:Ef; simpl; [| exact Hnone].
  exists [result_of_document doc (1.0 / (1.0 + distance))].
  split; [reflexivity |]. split; [| simpl; lia].
  constructor; [| constructor].
  apply find_some in Ef. destruct Ef as [Hin Heq]. apply String.eqb_eq in Heq.
  exists doc, idx, distance. rewrite Heq.
  split; [now left |]. split; [exact Ei |]. split; [exact Em |].
  split; [exact Hin | reflexivity].
Qed.

Lemma dense_loop_spec (found : list (Z * Q)) :
  forall results : list Result,
  if_ok (fun l => exists added,
           l = results ++ added
           /\ Forall (dense_result_of self found) added
           /\ (List.length added <= List.length found)%nat)
        (outcome (for_each found results (dense_hit self))).
Proof.
  induction found as [| hit found IH]; intros results; cbn [for_each].
  - simpl. exists []. rewrite app_nil_r. repeat split; auto.
  - pose proof (dense_hit_spec results hit) as H1.
    destruct (dense_hit self results hit) as [[l1 | e] t1]; [| exact I].
    simpl in H1. destruct H1 as (a1 & -> & F1 & L1).
    pose proof (IH (results ++ a1)) as H2. unfold bind.
    destruct (for_each found (results ++ a1) (dense_hit self)) as [[l2 | e] t2];
      [| exact I].
    simpl in *. destruct H2 as (a2 & -> & F2 & L2).
    exists (a1 ++ a2). rewrite app_assoc. split; [reflexivity |]. split.
    + apply Forall_app. split.
      * eapply Forall_impl; [| exact F1]. intros r.
        apply dense_result_of_mono. intros h [<- | []]. now left.
      * eapply Forall_impl; [| exact F2]. intros r.
        apply dense_result_of_mono. intros h Hh. now right.
    + rewrite length_app. lia.
Qed.

Lemma dense_result_similarity (found : list (Z * Q)) (r : Result) :
  distances_non_negative found = true ->
  dense_result_of self found r -> similarity_score r.
Proof.
  intros Hpos (doc & idx & d & Hin & _ & _ & _ & ->).
  unfold distances_non_negative in Hpos. rewrite forallb_forall in Hpos.
  apply Hpos in Hin. simpl in Hin. apply Qle_bool_iff in Hin.
  unfold similarity_score. simpl. split.
  - apply Qlt_shift_div_l; lra.
  - apply Qle_shift_div_r; lra.
Qed.

(** X4. When the embedding service and the index answer, every result of
    [_dense_search] is a stored document that the mapping names for one
    of the returned positions, scored [1 / (1 + distance)]; there are at
    most as many results as hits, and with non-negative distances every
    score is positive and at most 1. *)
Theorem dense_search_returns_stored_documents :
  forall (query : string) (k : Z) (emb : list Q) (found : list (Z * Q)),
  embeddings_create self (embedding_model self) query = Ok emb ->
  faiss_search self emb k = Ok found ->
  exists l evs,
    _dense_search self query k = (Ok l, evs)
    /\ Forall (dense_result_of self found) l
    /\ (List.length l <= List.length found)%nat
    /\ (distances_non_negative found = true -> Forall similarity_score l).
Proof.
  intros query k emb found Ee Ef.
  unfold _dense_search. rewrite try_except_ret.
  eexists; eexists. split; [reflexivity |].
  unfold _get_embedding, call. rewrite Ee. cbn [bind]. rewrite Ef. cbn [bind].
  pose proof (dense_loop_spec found []) as H.
  destruct (for_each found [] (dense_hit self)) as [[l | e] t]; simpl in *.
  - destruct H as (added & -> & F & L). simpl.
    split; [exact F |]. split; [exact L |].
    intros Hpos. eapply Forall_impl; [| exact F].
    intros r. now apply dense_result_similarity.
  - split; [constructor |]. split; [lia | constructor].
Qed.

End DenseSearchFacts.

Section DenseSearchWitness.
Import Py Retrieval Ranking DenseSearch.
Local Open Scope string_scope.
Local Open Scope list_scope.
Local Open Scope Q_scope.

Lemma dense_search_witness :
  exists l evs,
    _dense_search FusionScenarios.overlap_retriever "misrepresentation" 200 = (Ok l, evs)
    /\ Forall (dense_result_of FusionScenarios.overlap_retriever [(0%Z, 0); (1%Z, 1)]) l
    /\ (List.length l <= List.length [(0%Z, 0); (1%Z, 1)])%nat
    /\ (distances_non_negative [(0%Z, 0); (1%Z, 1)] = true -> Forall similarity_score l).
Proof.
  apply (@dense_search_returns_stored_documents FusionScenarios.overlap_retriever
           "misrepresentation" 200%Z [1; 0] [(0%Z, 0); (1%Z, 1)]); reflexivity.
Defined.

End DenseSearchWitness.

(** ** Fusion *)
Section MergeFacts.
Import Py Retrieval.
Local Open Scope string_scope.
Local Open Scope list_scope.
Local Open Scope Q_scope.

Variable self : HybridRetriever.

Lemma fold_left_invariant {A B} (I : B -> Prop) (f : B -> A -> B)
  (l : list A) (b : B) :
  I b -> (forall b a, I b -> In a l -> I (f b a)) -> I (fold_left f l b).
Proof.
  revert b. induction l as [| a l IH]; simpl; intros b Hb Hstep; [assumption |].
  apply IH.
  - apply Hstep; auto.
  - intros b' a' Hb' Ha'. apply Hstep; auto.
Qed.

Lemma normalize_doc_ids (l : list Result) :
  map doc_id (_normalize_scores l) = map doc_id l.
Proof.
  destruct l as [| r l]; [reflexivity |].
  unfold _normalize_scores.
  destruct (Qeq_bool _ _); rewrite map_map; reflexivity.
Qed.

Lemma normalize_plain (l : list Result) :
  Forall plain l -> Forall plain (_normalize_scores l).
Proof.
  intros H. destruct l as [| r l]; [assumption |].
  unfold _normalize_scores.
  destruct (Qeq_bool _ _); apply Forall_map;
    (eapply Forall_impl; [| exact H]); intros a Ha; exact Ha.
Qed.

Lemma merge_bm25_plain (merged : dict Result) (result : Result) :
  Forall plain (dict_values merged) -> plain result ->
  Forall plain (dict_values (merge_bm25 self merged result)).
Proof.
  intros Hm Hr. unfold merge_bm25. apply dict_set_values; [assumption |].
  exact Hr.
Qed.

Lemma merge_dense_plain (merged : dict Result) (result : Result) :
  Forall plain (dict_values merged) -> plain result ->
  Forall plain (dict_values (merge_dense self merged result)).
Proof.
  intros Hm Hr. unfold merge_dense.
  destruct (dict_get merged (doc_id result)) as [m |] eqn:E.
  - apply dict_set_values; [assumption |].
    apply dict_get_In in E.
    rewrite Forall_forall in Hm.
    assert (Hpm : plain m).
    { apply Hm. unfold dict_values. apply in_map_iff. now exists (doc_id result, m). }
    exact Hpm.
  - apply dict_set_values; [assumption | exact Hr].
Qed.

(** Fusion writes none of the interpretation keys. *)
Lemma merge_results_plain (bm25_results dense_results : list Result) (k : Z) :
  Forall plain bm25_results -> Forall plain dense_results ->
  Forall plain (_merge_results self bm25_results dense_results k).
Proof.
  intros Hb Hd. unfold _merge_results.
  apply normalize_plain in Hb. apply normalize_plain in Hd.
  rewrite Forall_forall in Hb, Hd.
  set (m1 := fold_left (merge_bm25 self) _ []).
  assert (H1 : Forall plain (dict_values m1)).
  { apply fold_left_invariant; [constructor |].
    intros b a Hbb Ha. apply merge_bm25_plain; auto. }
  set (m2 := fold_left (merge_dense self) _ m1).
  assert (H2 : Forall plain (dict_values m2)).
  { apply fold_left_invariant; [assumption |].
    intros b a Hbb Ha. apply merge_dense_plain; auto. }
  apply Forall_forall. intros r Hr.
  apply slice_to_In, sorted_desc_In in Hr.
  unfold dict_values in Hr. rewrite map_map in Hr.
  apply in_map_iff in Hr. destruct Hr as [[k' m] [<- Hin]]. simpl.
  rewrite Forall_forall in H2.
  assert (Hpm : plain m).
  { apply H2. unfold dict_values. apply in_map_iff. now exists (k', m). }
  exact Hpm.
Qed.

(** With no dense result the fused score is the lexical component. *)
Lemma merge_results_lexical_only (bm25_results : list Result) (k : Z) :
  Forall (fun r => lexical_ranked self (_normalize_scores bm25_results) r
                   /\ score r = bm25_weight (config self) * get bm25_score r)
         (_merge_results self bm25_results [] k).
Proof.
  unfold _merge_results. simpl fold_left at 1.
  set (nb := _normalize_scores bm25_results).
  set (m1 := fold_left (merge_bm25 self) _ []).
  assert (H1 : Forall (lexical_ranked self nb) (dict_values m1)).
  { apply fold_left_invariant; [constructor |].
    intros b a Hb Ha. unfold merge_bm25. apply dict_set_values; [assumption |].
    exists a. repeat split. exact Ha. }
  apply Forall_forall. intros r Hr.
  apply slice_to_In, sorted_desc_In in Hr.
  unfold dict_values in Hr. rewrite map_map in Hr.
  apply in_map_iff in Hr. destruct Hr as [[k' m] [<- Hin]]. simpl.
  rewrite Forall_forall in H1.
  destruct (H1 m) as (x & Hx & Hid & Hb & Hd & Hc).
  { unfold dict_values. apply in_map_iff. now exists (k', m). }
  split.
  - exists x. repeat split; assumption.
  - unfold get. simpl. now rewrite Hc, Hb.
Qed.

End MergeFacts.

(** ** Score normalization and fusion *)
Section NormalizeFacts.
Import Py Retrieval Ranking Fusion.
Local Open Scope string_scope.
Local Open Scope list_scope.
Local Open Scope Q_scope.

Lemma min_list_spec (xs : list Q) :
  forall x,
    min_list x xs <= x
    /\ Forall (fun y => min_list x xs <= y) xs
    /\ (min_list x xs = x \/ In (min_list x xs) xs).
Proof.
  unfold min_list. induction xs as [| y xs IH]; intros x; simpl.
  - split; [apply Qle_refl | split; [constructor | now left]].
  - destruct (Qle_bool x y) eqn:E.
    + apply Qle_bool_iff in E.
      destruct (IH x) as (H1 & H2 & H3).
      split; [assumption | split; [| tauto]].
      constructor; [eapply Qle_trans; eassumption | assumption].
    + assert (Hyx : y <= x).
      { apply Qlt_le_weak, Qnot_le_lt. intros Hle.
        apply Qle_bool_iff in Hle. congruence. }
      destruct (IH y) as (H1 & H2 & H3).
      split; [eapply Qle_trans; eassumption | split; [| intuition auto]].
      constructor; assumption.
Qed.

Lemma max_list_spec (xs : list Q) :
  forall x,
    x <= max_list x xs
    /\ Forall (fun y => y <= max_list x xs) xs
    /\ (max_list x xs = x \/ In (max_list x xs) xs).
Proof.
  unfold max_list. induction xs as [| y xs IH]; intros x; simpl.
  - split; [apply Qle_refl | split; [constructor | now left]].
  - destruct (Qle_bool y x) eqn:E.
    + apply Qle_bool_iff in E.
      destruct (IH x) as (H1 & H2 & H3).
      split; [assumption | split; [| tauto]].
      constructor; [eapply Qle_trans; eassumption | assumption].
    + assert (Hxy : x <= y).
      { apply Qlt_le_weak, Qnot_le_lt. intros Hle.
        apply Qle_bool_iff in Hle. congruence. }
      destruct (IH y) as (H1 & H2 & H3).
      split; [eapply Qle_trans; eassumption | split; [| intuition auto]].
      constructor; assumption.
Qed.

Lemma normalize_unit (l : list Result) : Forall unit_score (_normalize_scores l).
Proof.
  destruct l as [| r rest]; [constructor |].
  unfold _normalize_scores.
  set (lo := min_list (score r) (map score rest)).
  set (hi := max_list (score r) (map score rest)).
  destruct (min_list_spec (map score rest) (score r)) as (Hlo1 & Hlo2 & _).
  destruct (max_list_spec (map score rest) (score r)) as (Hhi1 & Hhi2 & _).
  fold lo in Hlo1, Hlo2. fold hi in Hhi1, Hhi2.
  assert (Hall : forall x, In x (r :: rest) -> lo <= score x /\ score x <= hi).
  { intros x [<- | Hx]; [split; assumption |].
    rewrite Forall_forall in Hlo2, Hhi2.
    split; [apply Hlo2 | apply Hhi2]; now apply in_map. }
  destruct (Qeq_bool hi lo) eqn:E.
  - apply Forall_forall. intros x Hx. apply in_map_iff in Hx.
    destruct Hx as [y [<- _]]. unfold unit_score. simpl. split; lra.
  - assert (Hlt : lo < hi).
    { apply Qeq_bool_neq in E.
      assert (lo <= hi) by (eapply Qle_trans; eassumption).
      apply Qle_lteq in H. destruct H as [H | H]; [assumption |].
      exfalso. apply E. now symmetry. }
    apply Forall_forall. intros x Hx. apply in_map_iff in Hx.
    destruct Hx as [y [<- Hy]]. destruct (Hall y Hy) as [H1 H2].
    unfold unit_score. simpl. split.
    + apply Qle_shift_div_l; lra.
    + apply Qle_shift_div_r; lra.
Qed.

Lemma Forall2_map_right {A B} (P : A -> B -> Prop) (f : A -> B) (l l0 : list A) :
  (forall x, In x l0 -> In x l) ->
  (forall x, In x l -> P x (f x)) -> Forall2 P l0 (map f l0).
Proof.
  intros Hsub H. induction l0 as [| x l0 IH]; simpl; constructor.
  - apply H, Hsub. now left.
  - apply IH. intros y Hy. apply Hsub. now right.
Qed.

Lemma normalize_scaled (r : Result) (rest : list Result) :
  exists a b,
    In a (r :: rest) /\ worst_hit (r :: rest) a
    /\ In b (r :: rest) /\ best_hit (r :: rest) b
    /\ Forall2 (fun x y =>
         rescored x y
         /\ min_max_scaled (score a) (score b) x y
         /\ (best_hit (r :: rest) x -> score y == 1)
         /\ (worst_hit (r :: rest) x -> ~ score a == score b -> score y == 0))
       (r :: rest) (_normalize_scores (r :: rest)).
Proof.
  unfold _normalize_scores.
  set (lo := min_list (score r) (map score rest)).
  set (hi := max_list (score r) (map score rest)).
  destruct (min_list_spec (map score rest) (score r)) as (Hlo1 & Hlo2 & Hlo3).
  destruct (max_list_spec (map score rest) (score r)) as (Hhi1 & Hhi2 & Hhi3).
  fold lo in Hlo1, Hlo2, Hlo3. fold hi in Hhi1, Hhi2, Hhi3.
  assert (Hall : forall x, In x (r :: rest) -> lo <= score x /\ score x <= hi).
  { intros x [<- | Hx]; [split; assumption |].
    rewrite Forall_forall in Hlo2, Hhi2.
    split; [apply Hlo2 | apply Hhi2]; now apply in_map. }
  assert (Ha : exists a, In a (r :: rest) /\ score a = lo).
  { destruct Hlo3 as [H | H].
    - exists r. split; [now left | now symmetry].
    - apply in_map_iff in H. destruct H as (a & Ha & Hin).
      exists a. split; [now right | exact Ha]. }
  assert (Hb : exists b, In b (r :: rest) /\ score b = hi).
  { destruct Hhi3 as [H | H].
    - exists r. split; [now left | now symmetry].
    - apply in_map_iff in H. destruct H as (b & Hb & Hin).
      exists b. split; [now right | exact Hb]. }
  destruct Ha as (a & Hain & Hsa). destruct Hb as (b & Hbin & Hsb).
  exists a, b. rewrite Hsa, Hsb.
  split; [exact Hain |].
  split; [intros z Hz; rewrite Hsa; now apply Hall |].
  split; [exact Hbin |].
  split; [intros z Hz; rewrite Hsb; now apply Hall |].
  destruct (Qeq_bool hi lo) eqn:E.
  - apply Qeq_bool_iff in E.
    apply Forall2_map_right with (l := r :: rest); [auto |].
    intros x Hx. split; [reflexivity |]. split; [| split].
    + split; [intros _; simpl; lra | intros Hne; exfalso; apply Hne; now symmetry].
    + intros _. simpl. lra.
    + intros _ Hne. exfalso. apply Hne. now symmetry.
  - apply Qeq_bool_neq in E.
    assert (Hlt : lo < hi).
    { assert (H : lo <= hi) by (eapply Qle_trans; eassumption).
      apply Qle_lteq in H. destruct H as [H | H]; [assumption |].
      exfalso. apply E. now symmetry. }
    assert (Hne : ~ hi - lo == 0) by lra.
    apply Forall2_map_right with (l := r :: rest); [auto |].
    intros x Hx. destruct (Hall x Hx) as [Hx1 Hx2].
    split; [reflexivity |]. split; [| split].
    + split; [intros Heq; exfalso; apply E; now symmetry | intros _; reflexivity].
    + intros Hbest. simpl.
      assert (Hxhi : score x == hi).
      { apply Qle_antisym; [exact Hx2 |]. rewrite <- Hsb. now apply Hbest. }
      rewrite Hxhi. now apply Qmult_inv_r.
    + intros Hworst _. simpl.
      assert (Hxlo : score x == lo).
      { apply Qle_antisym; [| exact Hx1]. rewrite <- Hsa. now apply Hworst. }
      rewrite Hxlo. unfold Qdiv. setoid_replace (lo - lo) with 0 by ring.
      apply Qmult_0_l.
Qed.

(** X5. [_normalize_scores] returns the empty list for the empty list.
    For a non-empty list it keeps every result at its position and
    changes only its score, by min-max scaling between the lowest and
    the highest score of the list: every new score lies in the unit
    interval, is 1 when all scores agree and
    [(score - lowest) / (highest - lowest)] otherwise; so every best hit
    gets 1 and, when the scores differ, every worst hit gets 0. *)
Theorem normalize_scores_unit_interval :
  _normalize_scores [] = []
  /\ forall (r : Result) (rest : list Result),
       map doc_id (_normalize_scores (r :: rest)) = map doc_id (r :: rest)
       /\ Forall unit_score (_normalize_scores (r :: rest))
       /\ exists a b,
            In a (r :: rest) /\ worst_hit (r :: rest) a
            /\ In b (r :: rest) /\ best_hit (r :: rest) b
            /\ Forall2 (fun x y =>
                 rescored x y
                 /\ min_max_scaled (score a) (score b) x y
                 /\ (best_hit (r :: rest) x -> score y == 1)
                 /\ (worst_hit (r :: rest) x -> ~ score a == score b -> score y == 0))
               (r :: rest) (_normalize_scores (r :: rest)).
Proof.
  split; [reflexivity |].
  intros r rest. split; [apply normalize_doc_ids |].
  split; [apply normalize_unit | apply normalize_scaled].
Qed.

End NormalizeFacts.

Section FusionFormula.
Import Py Retrieval.
Local Open Scope string_scope.
Local Open Scope list_scope.
Local Open Scope Q_scope.

Variable self : HybridRetriever.

Lemma get_set_fusion (b d c : Q) (m : Result) :
  get combined_score (set_fusion b d c m) = c
  /\ get bm25_score (set_fusion b d c m) = b
  /\ get dense_score (set_fusion b d c m) = d.
Proof. repeat split. Qed.

Lemma merge_bm25_step (done : list Result) (merged : dict Result) (x : Result) :
  bm25_inv self done merged ->
  bm25_inv self (done ++ [x]) (merge_bm25 self merged x).
Proof.
  intros (Hnd & Hkeys & Hent). unfold merge_bm25.
  split; [now apply dict_set_nodup |].
  split.
  - intros k. rewrite dict_set_keys, map_app, in_app_iff, Hkeys. simpl.
    intuition.
  - intros k m. rewrite dict_get_set.
    destruct (String.eqb k (doc_id x)) eqn:E.
    + apply String.eqb_eq in E. subst k. intros [= <-]. simpl.
      repeat split.
      exists x. repeat split. apply in_app_iff. right. now left.
    + intros Hget. destruct (Hent k m Hget) as (Hid & (y & Hy & Hyid & Hyb) & Hd & Hc).
      repeat split; auto.
      exists y. repeat split; auto. apply in_app_iff. now left.
Qed.

Lemma merge_bm25_loop (nb done : list Result) (merged : dict Result) :
  bm25_inv self done merged ->
  bm25_inv self (done ++ nb) (fold_left (merge_bm25 self) nb merged).
Proof.
  revert done merged. induction nb as [| x nb IH]; intros done merged H; simpl.
  - now rewrite app_nil_r.
  - replace (done ++ x :: nb) with ((done ++ [x]) ++ nb)
      by (rewrite <- app_assoc; reflexivity).
    apply IH. now apply merge_bm25_step.
Qed.

Lemma bm25_inv_dense_inv (nb : list Result) (merged : dict Result) :
  bm25_inv self nb merged -> dense_inv self nb [] merged.
Proof.
  intros (Hnd & Hkeys & Hent).
  split; [assumption |]. split; [intros k Hk; now apply Hkeys |].
  intros k m Hget.
  destruct (Hent k m Hget) as (Hid & (y & Hy & Hyid & Hyb) & Hd & Hc).
  split; [exact Hid |]. split.
  - left. exists y. repeat split; auto. congruence.
  - intros _. split.
    + right. split; [intros [] | assumption].
    + unfold fused, get. rewrite Hd, Hc, Hyb. unfold get. rewrite Hyb. ring.
Qed.

Lemma occurs_once_snoc (k : string) (done : list Result) (x : Result) :
  occurs_once k (done ++ [x]) ->
  (k <> doc_id x /\ occurs_once k done)
  \/ (k = doc_id x /\ ~ In k (map doc_id done)).
Proof.
  unfold occurs_once. rewrite map_app, count_occ_app. simpl.
  destruct (string_dec (doc_id x) k) as [E | E]; intros H.
  - right. split; [now symmetry |]. apply count_occ_not_In with (eq_dec := string_dec). lia.
  - left. split; [congruence | lia].
Qed.

Lemma occurs_once_grow (k : string) (done : list Result) (x : Result) :
  k <> doc_id x -> occurs_once k (done ++ [x]) -> occurs_once k done.
Proof.
  intros Hne H. apply occurs_once_snoc in H. destruct H as [[_ H] | [E _]]; congruence.
Qed.

Lemma lexical_component_set_fusion (nb : list Result) (m : Result) (d c : Q) :
  lexical_component nb m ->
  lexical_component nb (set_fusion (get bm25_score m) d c m).
Proof.
  intros [(y & Hy & Hyid & Hyb) | (Hno & Hz)].
  - left. exists y. repeat split; auto. simpl. unfold get. now rewrite Hyb.
  - right. split; [exact Hno |]. simpl. unfold get. now rewrite Hz.
Qed.

Lemma merge_dense_step (nb done : list Result) (merged : dict Result) (x : Result) :
  dense_inv self nb done merged ->
  dense_inv self nb (done ++ [x]) (merge_dense self merged x).
Proof.
  intros (Hnd & Hkeys & Hent). unfold merge_dense.
  assert (Hgrow : forall k' (m' : Result),
             dict_get merged k' = Some m' -> k' <> doc_id x ->
             doc_id m' = k' /\ lexical_component nb m'
             /\ (occurs_once k' (done ++ [x]) ->
                 dense_component (done ++ [x]) m' /\ fused self m')).
  { intros k' m' Hget Hne.
    destruct (Hent k' m' Hget) as (Hid & Hlex & Hunit).
    split; [exact Hid |]. split; [exact Hlex |].
    intros Honce. apply occurs_once_grow in Honce; [| exact Hne].
    destruct (Hunit Honce) as [Hden Hf]. split; [| exact Hf].
    destruct Hden as [(y & Hy & Hyid & Hys) | (Hno & Hz)].
    - left. exists y. repeat split; auto. apply in_app_iff. now left.
    - right. split; [| assumption].
      rewrite map_app, in_app_iff. simpl. rewrite Hid. intuition congruence. }
  destruct (dict_get merged (doc_id x)) as [m |] eqn:E.
  - destruct (Hent _ _ E) as (Hid & Hlex & Hunit).
    split; [now apply dict_set_nodup |].
    split.
    { intros k Hk. apply dict_set_keys. right. now apply Hkeys. }
    intros k m'. rewrite dict_get_set.
    destruct (String.eqb k (doc_id x)) eqn:Ek.
    + apply String.eqb_eq in Ek. subst k. intros [= <-].
      split; [exact Hid |].
      split; [now apply lexical_component_set_fusion |].
      intros Honce. apply occurs_once_snoc in Honce.
      destruct Honce as [[Hne _] | [_ Hfresh]]; [congruence |].
      assert (Honce0 : occurs_once (doc_id x) done).
      { unfold occurs_once.
        apply (count_occ_not_In string_dec) in Hfresh. rewrite Hfresh. lia. }
      destruct (Hunit Honce0) as [Hden Hf].
      assert (Hzero : dense_score m = Some 0.0).
      { destruct Hden as [(y & Hy & Hyid & _) | (_ & Hz)]; [| assumption].
        exfalso. apply Hfresh. apply in_map_iff. exists y. split; congruence. }
      split.
      * left. exists x. repeat split; auto. apply in_app_iff. right. now left.
      * unfold fused in *. pose proof (get_set_fusion (get bm25_score m) (score x)
          (get combined_score m + dense_weight (config self) * score x) m)
          as (Ec & Eb & Ed).
        rewrite Ec, Eb, Ed.
        rewrite Hf. unfold get at 2. rewrite Hzero. ring.
    + apply String.eqb_neq in Ek. intros Hget. now apply Hgrow.
  - split; [now apply dict_set_nodup |].
    split.
    { intros k Hk. apply dict_set_keys. right. now apply Hkeys. }
    intros k m'. rewrite dict_get_set.
    destruct (String.eqb k (doc_id x)) eqn:Ek.
    + apply String.eqb_eq in Ek. subst k. intros [= <-].
      split; [reflexivity |]. split.
      * right. split; [| reflexivity]. simpl.
        intros Hin. apply Hkeys in Hin. apply dict_get_keys in Hin. congruence.
      * intros _. split.
        -- left. exists x. repeat split; auto. apply in_app_iff. right. now left.
        -- unfold fused, get. simpl. ring.
    + apply String.eqb_neq in Ek. intros Hget. now apply Hgrow.
Qed.

Lemma merge_dense_loop (nb nd done : list Result) (merged : dict Result) :
  dense_inv self nb done merged ->
  dense_inv self nb (done ++ nd) (fold_left (merge_dense self) nd merged).
Proof.
  revert done merged. induction nd as [| x nd IH]; intros done merged H; simpl.
  - now rewrite app_nil_r.
  - replace (done ++ x :: nd) with ((done ++ [x]) ++ nd)
      by (rewrite <- app_assoc; reflexivity).
    apply IH. now apply merge_dense_step.
Qed.

(** Every fused result carries the normalized lexical score of its unit;
    a result whose unit occurs at most once among the dense hits also
    carries the normalized dense score of its unit and the weighted sum
    of the two. *)
Lemma merge_results_fused_unit (bm25_results dense_results : list Result) (k : Z)
  (r : Result) :
  In r (_merge_results self bm25_results dense_results k) ->
  lexical_component (_normalize_scores bm25_results) r
  /\ score r = get combined_score r
  /\ (occurs_once (doc_id r) dense_results ->
      dense_component (_normalize_scores dense_results) r /\ fused self r).
Proof.
  intros Hr. unfold _merge_results in Hr.
  set (nb := _normalize_scores bm25_results) in *.
  set (nd := _normalize_scores dense_results) in *.
  assert (H1 : bm25_inv self nb (fold_left (merge_bm25 self) nb [])).
  { apply (merge_bm25_loop nb (done := [])).
    split; [constructor |]. split; [intros k0; simpl; tauto |].
    intros k0 m; simpl; discriminate. }
  apply bm25_inv_dense_inv in H1.
  pose proof (merge_dense_loop nd H1) as H2.
  simpl in H2. destruct H2 as (Hkeys & _ & Hent).
  apply slice_to_In, sorted_desc_In in Hr.
  unfold dict_values in Hr. rewrite map_map in Hr.
  apply in_map_iff in Hr. destruct Hr as [[k' m] [<- Hin]]. simpl.
  apply In_dict_get in Hin; [| assumption].
  destruct (Hent _ _ Hin) as (Hid & Hlex & Hunit).
  split; [exact Hlex |]. split; [reflexivity |].
  intros Honce. apply Hunit.
  unfold occurs_once in *. unfold nd. rewrite normalize_doc_ids.
  simpl in Honce. now rewrite Hid in Honce.
Qed.

(** The same for all results at once, when no unit occurs twice among
    the dense hits. *)
Lemma merge_results_fused (bm25_results dense_results : list Result) (k : Z)
  (r : Result) :
  NoDup (map doc_id dense_results) ->
  In r (_merge_results self bm25_results dense_results k) ->
  lexical_component (_normalize_scores bm25_results) r
  /\ dense_component (_normalize_scores dense_results) r
  /\ fused self r
  /\ score r = get combined_score r.
Proof.
  intros Hnd Hr.
  destruct (merge_results_fused_unit bm25_results dense_results k r Hr)
    as (Hlex & Hs & Hunit).
  destruct Hunit as [Hden Hf].
  { unfold occurs_once. now apply NoDup_count_occ. }
  repeat split; auto.
Qed.

End FusionFormula.

(** ** Order and size of the returned list *)
Section RankingFacts.
Import Py Retrieval Ranking.
Local Open Scope string_scope.
Local Open Scope list_scope.

Lemma sorted_desc_descending (l : list Result) : descending (sorted_desc score l).
Proof.
  unfold descending, sorted_desc. apply sort_by_sorted.
  - intros x y H. now apply Qle_bool_iff.
  - intros x y H. apply Qlt_le_weak. apply Qnot_le_lt. intros Hle.
    apply Qle_bool_iff in Hle. congruence.
  - intros x y z Hxy Hyz. eapply Qle_trans; eassumption.
Qed.

Lemma slice_to_descending (l : list Result) (k : Z) :
  descending l -> descending (slice_to l k).
Proof.
  unfold slice_to. destruct (k <? 0)%Z; apply strongly_sorted_firstn.
Qed.

Lemma slice_to_length (A : Type) (l : list A) (k : Z) :
  (0 <= k)%Z -> (Z.of_nat (List.length (slice_to l k)) <= k)%Z.
Proof.
  intros Hk. unfold slice_to.
  destruct (k <? 0)%Z eqn:E; [apply Z.ltb_lt in E; lia |].
  rewrite length_firstn. lia.
Qed.

Lemma diversify_loop_descending (M k : Z) (todo : list Result) :
  forall counts acc,
    descending (acc ++ todo) -> descending (diversify_loop M k todo counts acc).
Proof.
  unfold descending.
  induction todo as [| x todo IH]; intros counts acc H; simpl.
  - now rewrite app_nil_r in H.
  - assert (Hkeep : forall c,
              StronglySorted (fun a b => (score b <= score a)%Q)
                (if (Z.of_nat (List.length (acc ++ [x])) >=? k)%Z
                 then acc ++ [x]
                 else diversify_loop M k todo c (acc ++ [x]))).
    { intros c. destruct (Z.of_nat _ >=? k)%Z.
      - apply strongly_sorted_prefix with (l2 := todo).
        now rewrite <- app_assoc.
      - apply IH. now rewrite <- app_assoc. }
    destruct (interprets_statute x) as [sid |].
    + destruct (count_get counts sid >=? M)%Z.
      * apply IH. eapply strongly_sorted_drop. eassumption.
      * apply Hkeep.
    + apply Hkeep.
Qed.

Lemma diversify_loop_length (M k : Z) (todo : list Result) :
  forall counts acc,
    (Z.of_nat (List.length acc) < k)%Z ->
    (Z.of_nat (List.length (diversify_loop M k todo counts acc)) <= k)%Z.
Proof.
  induction todo as [| x todo IH]; intros counts acc H; simpl.
  - lia.
  - assert (Hkeep : forall c,
              (Z.of_nat (List.length
                 (if (Z.of_nat (List.length (acc ++ [x])) >=? k)%Z
                  then acc ++ [x]
                  else diversify_loop M k todo c (acc ++ [x]))) <= k)%Z).
    { intros c. destruct (Z.of_nat (List.length (acc ++ [x])) >=? k)%Z eqn:E.
      - rewrite length_app. simpl. lia.
      - apply IH. rewrite Z.geb_leb in E. apply Z.leb_gt in E. exact E. }
    destruct (interprets_statute x) as [sid |].
    + destruct (count_get counts sid >=? M)%Z; [now apply IH | apply Hkeep].
    + apply Hkeep.
Qed.

(** The list that [retrieve] builds from the boost stage's output is in
    non-increasing score order and, for a positive [k], has at most [k]
    entries. *)
Lemma final_results_ranked (self : HybridRetriever) (k : option Z)
  (l : list Result) :
  descending (final_results self k l)
  /\ ((1 <= effective_k self k)%Z ->
      (Z.of_nat (List.length (final_results self k l)) <= effective_k self k)%Z).
Proof.
  unfold final_results, effective_k.
  destruct (diversification_enabled (config self)).
  - split.
    + unfold _diversify_results. apply diversify_loop_descending. simpl.
      apply sorted_desc_descending.
    + intros Hk. unfold _diversify_results. apply diversify_loop_length.
      simpl. lia.
  - split.
    + apply slice_to_descending, sorted_desc_descending.
    + intros Hk. apply slice_to_length. lia.
Qed.

End RankingFacts.

Section MergeShape.
Import Py Retrieval Ranking Fusion.
Local Open Scope string_scope.
Local Open Scope list_scope.
Local Open Scope Q_scope.

Variable self : HybridRetriever.

Lemma keyed_set (ids : list string) (merged : dict Result) (k : string)
  (m : Result) :
  keyed ids merged -> doc_id m = k -> In k ids ->
  keyed ids (dict_set merged k m).
Proof.
  intros [Hnd Hent] Hid Hk. split; [now apply dict_set_nodup |].
  intros k' m' Hin. apply dict_set_In_weak in Hin.
  destruct Hin as [[-> ->] | Hin]; [now split | now apply Hent].
Qed.

Lemma merge_bm25_keyed (ids : list string) (merged : dict Result) (x : Result) :
  keyed ids merged -> In (doc_id x) ids -> keyed ids (merge_bm25 self merged x).
Proof.
  intros H Hx. unfold merge_bm25. now apply keyed_set.
Qed.

Lemma merge_dense_keyed (ids : list string) (merged : dict Result) (x : Result) :
  keyed ids merged -> In (doc_id x) ids -> keyed ids (merge_dense self merged x).
Proof.
  intros H Hx. unfold merge_dense.
  destruct (dict_get merged (doc_id x)) as [m |] eqn:E.
  - apply keyed_set; [assumption | | assumption].
    apply dict_get_In in E. destruct H as [_ Hent].
    simpl. now apply Hent in E.
  - now apply keyed_set.
Qed.

Lemma keyed_values (ids : list string) (merged : dict Result) :
  keyed ids merged ->
  NoDup (map doc_id (dict_values merged))
  /\ forall r, In r (dict_values merged) -> In (doc_id r) ids.
Proof.
  intros [Hnd Hent]. split.
  - unfold dict_values. rewrite map_map.
    replace (map (fun x => doc_id (snd x)) merged) with (map fst merged);
      [assumption |].
    apply map_ext_in. intros [k m] Hin. simpl. symmetry. now apply Hent.
  - intros r Hr. unfold dict_values in Hr. apply in_map_iff in Hr.
    destruct Hr as [[k m] [<- Hin]]. simpl.
    destruct (Hent _ _ Hin) as [-> ?]. assumption.
Qed.

Lemma NoDup_firstn {A} (n : nat) (l : list A) : NoDup l -> NoDup (firstn n l).
Proof.
  revert l. induction n as [| n IH]; intros l H; [constructor |].
  destruct l as [| x l]; [constructor |]. simpl.
  inversion H; subst. constructor; [| now apply IH].
  intros Hin. now apply firstn_subset in Hin.
Qed.

Lemma slice_to_nodup_ids (l : list Result) (k : Z) :
  NoDup (map doc_id l) -> NoDup (map doc_id (slice_to l k)).
Proof.
  intros H. unfold slice_to.
  destruct (k <? 0)%Z; rewrite <- firstn_map; now apply NoDup_firstn.
Qed.

Lemma merged_keyed (bm25_results dense_results : list Result) :
  keyed (map doc_id bm25_results ++ map doc_id dense_results)
    (fold_left (merge_dense self) (_normalize_scores dense_results)
       (fold_left (merge_bm25 self) (_normalize_scores bm25_results) [])).
Proof.
  set (ids := map doc_id bm25_results ++ map doc_id dense_results).
  apply fold_left_invariant.
  - apply fold_left_invariant.
    + split; [constructor | intros k m []].
    + intros b a Hb Ha. apply merge_bm25_keyed; [assumption |].
      apply in_or_app. left. rewrite <- (normalize_doc_ids bm25_results).
      now apply in_map.
  - intros b a Hb Ha. apply merge_dense_keyed; [assumption |].
    apply in_or_app. right. rewrite <- (normalize_doc_ids dense_results).
    now apply in_map.
Qed.

Lemma merge_results_shape (bm25_results dense_results : list Result) (k : Z) :
  NoDup (map doc_id (_merge_results self bm25_results dense_results k))
  /\ Forall (retrieved_by bm25_results dense_results)
       (_merge_results self bm25_results dense_results k)
  /\ descending (_merge_results self bm25_results dense_results k).
Proof.
  unfold _merge_results.
  pose proof (merged_keyed bm25_results dense_results) as Hk.
  set (merged := fold_left (merge_dense self) (_normalize_scores dense_results)
                   (fold_left (merge_bm25 self) (_normalize_scores bm25_results) []))
    in *.
  set (merged' := map (fun kv => (fst kv, set_score (get combined_score (snd kv)) (snd kv)))
                      merged).
  assert (Hk' : keyed (map doc_id bm25_results ++ map doc_id dense_results) merged').
  { destruct Hk as [Hnd Hent]. split.
    - unfold merged'. rewrite map_map. simpl. exact Hnd.
    - intros k0 m Hin. unfold merged' in Hin. apply in_map_iff in Hin.
      destruct Hin as [[k1 m1] [[= <- <-] Hin]]. simpl.
      now apply Hent. }
  destruct (keyed_values Hk') as [Hnd Hids].
  split; [| split].
  - apply slice_to_nodup_ids.
    eapply Permutation_NoDup; [| exact Hnd].
    apply Permutation_map. unfold sorted_desc. apply sort_by_perm.
  - apply Forall_forall. intros r Hr.
    apply slice_to_In, sorted_desc_In in Hr.
    apply Hids in Hr. apply in_app_or in Hr. exact Hr.
  - apply slice_to_descending, sorted_desc_descending.
Qed.

(** X6. [_merge_results] returns every unit at most once, only units that one
    of the two searches found, highest fused score first, and at most [k]
    of them. *)
Theorem merge_results_distinct_ranked :
  forall (bm25_results dense_results : list Result) (k : Z),
  (0 <= k)%Z ->
  NoDup (map doc_id (_merge_results self bm25_results dense_results k))
  /\ Forall (retrieved_by bm25_results dense_results)
       (_merge_results self bm25_results dense_results k)
  /\ descending (_merge_results self bm25_results dense_results k)
  /\ (Z.of_nat (List.length (_merge_results self bm25_results dense_results k)) <= k)%Z.
Proof.
  intros b d k Hk.
  destruct (merge_results_shape b d k) as (H1 & H2 & H3).
  repeat split; try assumption.
  unfold _merge_results. now apply slice_to_length.
Qed.

(** X7. With non-negative weights and a dense search that returns every unit
    once, every fused score lies between 0 and the sum of the two
    weights. *)
Theorem merge_results_score_within_weights :
  forall (bm25_results dense_results : list Result) (k : Z),
  0 <= bm25_weight (config self) ->
  0 <= dense_weight (config self) ->
  NoDup (map doc_id dense_results) ->
  Forall (within_weights self) (_merge_results self bm25_results dense_results k).
Proof.
  intros b d k Hwb Hwd Hnd. apply Forall_forall. intros r Hr.
  destruct (merge_results_fused self b d k r Hnd Hr) as (Hlex & Hden & Hf & Hs).
  assert (Hb : 0 <= get bm25_score r /\ get bm25_score r <= 1).
  { destruct Hlex as [(x & Hx & _ & E) | [_ E]]; unfold get; rewrite E.
    - pose proof (normalize_unit b) as Hu. rewrite Forall_forall in Hu.
      exact (Hu x Hx).
    - split; lra. }
  assert (Hd : 0 <= get dense_score r /\ get dense_score r <= 1).
  { destruct Hden as [(x & Hx & _ & E) | [_ E]]; unfold get; rewrite E.
    - pose proof (normalize_unit d) as Hu. rewrite Forall_forall in Hu.
      exact (Hu x Hx).
    - split; lra. }
  unfold within_weights, fused in *. rewrite Hs, Hf.
  destruct Hb as [Hb1 Hb2], Hd as [Hd1 Hd2].
  set (wb := bm25_weight (config self)) in *.
  set (wd := dense_weight (config self)) in *.
  set (x := get bm25_score r) in *. set (y := get dense_score r) in *.
  assert (0 <= wb * x) by (apply Qmult_le_0_compat; assumption).
  assert (0 <= wd * y) by (apply Qmult_le_0_compat; assumption).
  assert (0 <= wb * (1 - x)) by (apply Qmult_le_0_compat; lra).
  assert (0 <= wd * (1 - y)) by (apply Qmult_le_0_compat; lra).
  split; lra.
Qed.

End MergeShape.

Section MergeWitnesses.
Import Py Retrieval Ranking Fusion.
Local Open Scope string_scope.
Local Open Scope list_scope.
Local Open Scope Q_scope.

Lemma merge_results_distinct_witness :
  NoDup (map doc_id
           (_merge_results FusionScenarios.overlap_retriever
              FusionScenarios.overlap_bm25 FusionScenarios.overlap_dense 500))
  /\ Forall (retrieved_by FusionScenarios.overlap_bm25 FusionScenarios.overlap_dense)
       (_merge_results FusionScenarios.overlap_retriever
          FusionScenarios.overlap_bm25 FusionScenarios.overlap_dense 500)
  /\ descending
       (_merge_results FusionScenarios.overlap_retriever
          FusionScenarios.overlap_bm25 FusionScenarios.overlap_dense 500)
  /\ (Z.of_nat (List.length
         (_merge_results FusionScenarios.overlap_retriever
            FusionScenarios.overlap_bm25 FusionScenarios.overlap_dense 500)) <= 500)%Z.
Proof.
  apply (merge_results_distinct_ranked FusionScenarios.overlap_retriever).
  vm_compute. discriminate.
Defined.

Lemma merge_results_within_weights_witness :
  Forall (within_weights FusionScenarios.overlap_retriever)
    (_merge_results FusionScenarios.overlap_retriever
       FusionScenarios.overlap_bm25 FusionScenarios.overlap_dense 500).
Proof.
  apply (merge_results_score_within_weights FusionScenarios.overlap_retriever).
  - vm_compute. discriminate.
  - vm_compute. discriminate.
  - vm_compute. repeat constructor; simpl; intuition discriminate.
Defined.

End MergeWitnesses.

(** ** Interpretation boost *)
Section BoostStage.
Import Py Sql Retrieval Ranking Boost.
Local Open Scope string_scope.
Local Open Scope list_scope.
Local Open Scope Q_scope.

Variable self : HybridRetriever.

Lemma link_selected_sound (ids : list string) (l : InterpretationLink.t) :
  link_selected ids l = true ->
  In (InterpretationLink.statute_id l) ids
  /\ InterpretationLink.verified l <> Some false.
Proof.
  unfold link_selected, sql_in, sql_is_true, sql_is_null. simpl.
  destruct (mem (InterpretationLink.statute_id l) ids) eqn:Em;
    destruct (InterpretationLink.verified l) as [[|]|]; simpl;
    try discriminate; intros _; (split; [now apply mem_In | congruence]).
Qed.

Lemma links_by_boost (l : list InterpretationLink.t) :
  StronglySorted by_boost (sort_by link_before l).
Proof.
  apply sort_by_sorted; unfold by_boost, link_before.
  - intros x y. cbv zeta.
    destruct (Qeq_bool _ _) eqn:E.
    + intros _. apply Qeq_bool_iff in E. rewrite E. apply Qle_refl.
    + intros H. now apply Qle_bool_iff.
  - intros x y. cbv zeta.
    destruct (Qeq_bool _ _) eqn:E.
    + intros _. apply Qeq_bool_iff in E. rewrite E. apply Qle_refl.
    + intros H. apply Qlt_le_weak, Qnot_le_lt. intros Hle.
      apply Qle_bool_iff in Hle. congruence.
  - intros x y z Hxy Hyz. eapply Qle_trans; eassumption.
Qed.

Lemma find_sorted_first {A} (R : A -> A -> Prop) (p : A -> bool) (l : list A) (x : A) :
  (forall a, R a a) -> StronglySorted R l -> find p l = Some x ->
  forall y, In y l -> p y = true -> R x y.
Proof.
  intros Hrefl Hs. induction Hs as [| a l Hl IH Ha]; simpl; [discriminate |].
  destruct (p a) eqn:E.
  - intros [= <-] y [<- | Hy] _; [apply Hrefl |].
    rewrite Forall_forall in Ha. now apply Ha.
  - intros Hf y [<- | Hy] Hp; [congruence |]. now apply IH.
Qed.

Lemma case_boost_map_get (links : list InterpretationLink.t) :
  forall (d : dict BoostInfo) (k : string),
    dict_get (fold_left add_link links d) k
    = match dict_get d k with
      | Some v => Some v
      | None => option_map boost_info_of (find (for_case k) links)
      end.
Proof.
  induction links as [| l links IH]; intros d k; simpl.
  - now destruct (dict_get d k).
  - rewrite IH. unfold add_link, dict_mem, for_case.
    destruct (dict_get d (InterpretationLink.case_id l)) as [v |] eqn:E.
    + destruct (dict_get d k) eqn:Ek; [reflexivity |].
      destruct (String.eqb (InterpretationLink.case_id l) k) eqn:Ec; [| reflexivity].
      apply String.eqb_eq in Ec. congruence.
    + rewrite dict_get_set. rewrite (String.eqb_sym k).
      destruct (String.eqb (InterpretationLink.case_id l) k) eqn:Ec.
      * apply String.eqb_eq in Ec. subst k. now rewrite E.
      * reflexivity.
Qed.

Lemma case_boost_map_nodup (links : list InterpretationLink.t) :
  NoDup (map fst (build_case_boost_map links)).
Proof.
  unfold build_case_boost_map. apply fold_left_invariant; [constructor |].
  intros d l Hd _. unfold add_link.
  destruct (dict_mem d (InterpretationLink.case_id l)); [assumption |].
  now apply dict_set_nodup.
Qed.

Lemma selected_sorted (ids : list string) (l : InterpretationLink.t) :
  In l (sort_by link_before (filter (link_selected ids) (interpretation_links self)))
  <-> selected self ids l.
Proof.
  rewrite sort_by_In, filter_In. reflexivity.
Qed.

Lemma case_boost_map_some (ids : list string) (k : string) (info : BoostInfo) :
  dict_get
    (build_case_boost_map
       (sort_by link_before (filter (link_selected ids) (interpretation_links self))))
    k = Some info ->
  exists link,
    strongest self ids link
    /\ InterpretationLink.case_id link = k /\ info = boost_info_of link.
Proof.
  unfold build_case_boost_map. rewrite case_boost_map_get. simpl.
  destruct (find (for_case k) _) as [l |] eqn:Ef; [| discriminate].
  intros [= <-]. exists l.
  pose proof (find_some _ _ Ef) as [Hin Hk].
  unfold for_case in Hk. apply String.eqb_eq in Hk.
  split; [| now split]. split; [now apply selected_sorted |].
  intros l' Hl' Hc.
  eapply (@find_sorted_first _ by_boost); try exact Ef.
  - intros a. apply Qle_refl.
  - apply links_by_boost.
  - now apply selected_sorted.
  - unfold for_case. apply String.eqb_eq. congruence.
Qed.

Lemma case_boost_map_none (ids : list string) (k : string) :
  dict_get
    (build_case_boost_map
       (sort_by link_before (filter (link_selected ids) (interpretation_links self))))
    k = None ->
  forall l, selected self ids l -> InterpretationLink.case_id l <> k.
Proof.
  unfold build_case_boost_map. rewrite case_boost_map_get. simpl.
  destruct (find (for_case k) _) as [l |] eqn:Ef; [discriminate |].
  intros _ l Hl Hc. apply selected_sorted in Hl.
  pose proof (find_none _ _ Ef _ Hl) as H. unfold for_case in H.
  apply String.eqb_neq in H. contradiction.
Qed.

Lemma boost_results_from (ids : list string) (results : list Result) :
  Forall2 (boosted_from self ids) results
    (map (boost_result
            (build_case_boost_map
               (sort_by link_before
                  (filter (link_selected ids) (interpretation_links self)))))
         results).
Proof.
  induction results as [| r rs IH]; simpl; constructor; [| exact IH].
  unfold boost_result.
  destruct (dict_get _ (doc_id r)) as [info |] eqn:E.
  - right. apply case_boost_map_some in E.
    destruct E as (link & Hs & Hc & ->). exists link.
    split; [exact Hs | split; [exact Hc | reflexivity]].
  - left. split; [reflexivity |]. now apply case_boost_map_none.
Qed.

Lemma unselected_from (ids : list string) (results : list Result) :
  (forall l, ~ selected self ids l) ->
  Forall2 (boosted_from self ids) results results.
Proof.
  intros Hno. induction results as [| r rs IH]; constructor; [| exact IH].
  left. split; [reflexivity |]. intros l Hl. now apply Hno in Hl.
Qed.

(** One lookup of step 5: the database raises, or the case is appended
    when it has a document. *)
Lemma add_missing_case_cases (existing : list string) (synthetic_score : Q)
  (acc : list Result) (k : string) (info : BoostInfo) :
  mem k existing = false ->
  (exists e, add_missing_case self existing synthetic_score acc (k, info)
             = (Raise e, [QueryDocument k]))
  \/ (exists doc,
        find (fun d => String.eqb (Document.id d) k) (documents self) = Some doc
        /\ add_missing_case self existing synthetic_score acc (k, info)
           = (Ok (acc ++ [synthetic_result doc synthetic_score info]), [QueryDocument k]))
  \/ (find (fun d => String.eqb (Document.id d) k) (documents self) = None
      /\ add_missing_case self existing synthetic_score acc (k, info)
         = (Ok acc, [QueryDocument k])).
Proof.
  intros Em. unfold add_missing_case. rewrite Em.
  destruct (query_document_cases self k) as [(e & _ & E) | (_ & E)];
    unfold bind; rewrite E.
  - left. now exists e.
  - right. destruct (find _ (documents self)) as [doc |].
    + left. now exists doc.
    + right. now split.
Qed.

(** Step 5: the loop sends document lookups only; when it returns, it
    has appended one result for each missing linked case that has a
    document. *)
Lemma add_missing_loop_spec (existing : list string) (synthetic_score : Q)
  (items : dict BoostInfo) :
  NoDup (map fst items) ->
  forall acc : list Result,
    Forall is_document_query
      (requests (for_each items acc (add_missing_case self existing synthetic_score)))
    /\ if_ok (fun out => exists added,
         out = acc ++ added
         /\ Forall (fun r =>
              exists k info case_doc,
                In (k, info) items
                /\ ~ In k existing
                /\ In case_doc (documents self)
                /\ Document.id case_doc = k
                /\ doc_id r = k
                /\ r = synthetic_result case_doc synthetic_score info) added
         /\ NoDup (map doc_id added)
         /\ (forall k info, In (k, info) items ->
               In k existing
               \/ (forall d, In d (documents self) -> Document.id d <> k)
               \/ In k (map doc_id added)))
        (outcome (for_each items acc (add_missing_case self existing synthetic_score))).
Proof.
  induction items as [| [k info] items IH]; intros Hnd acc; cbn [for_each].
  - split; [constructor |]. simpl. exists []. rewrite app_nil_r.
    split; [reflexivity |]. split; [constructor |].
    split; [constructor |]. intros k0 info0 [].
  - simpl in Hnd. inversion Hnd as [| ? ? Hk Hnd']; subst.
    destruct (mem k existing) eqn:Em.
    + assert (Hstep : add_missing_case self existing synthetic_score acc (k, info)
                      = (Ok acc, [])).
      { unfold add_missing_case. now rewrite Em. }
      rewrite (bind_ok _ Hstep). destruct (IH Hnd' acc) as [Hev Hout].
      cbn [outcome requests fst snd app]. split; [exact Hev |].
      destruct (outcome (for_each items acc _)) as [out | e]; [| exact I].
      simpl in *. destruct Hout as (added & -> & Hadd & Hids & Hall).
      exists added. split; [reflexivity |]. split; [| split].
      * eapply Forall_impl; [| exact Hadd].
        intros r (k' & info' & doc & H1 & H2). exists k', info', doc.
        split; [now right | assumption].
      * assumption.
      * intros k' info' [[= <- <-] | Hin].
        -- left. now apply mem_In.
        -- eapply Hall; eassumption.
    + assert (Hnot : ~ In k existing).
      { intros Hin. apply mem_In in Hin. congruence. }
      destruct (@add_missing_case_cases existing synthetic_score acc k info Em)
        as [(e & Hstep) | [(doc & Ef & Hstep) | (Ef & Hstep)]].
      * rewrite (bind_raise _ Hstep). simpl.
        split; [repeat constructor | exact I].
      * rewrite (bind_ok _ Hstep).
        destruct (IH Hnd' (acc ++ [synthetic_result doc synthetic_score info]))
          as [Hev Hout].
        cbn [outcome requests fst snd]. split; [constructor; [exact I | exact Hev] |].
        destruct (outcome (for_each items _ _)) as [out | e]; [| exact I].
        simpl in *. destruct Hout as (added & -> & Hadd & Hids & Hall).
        exists (synthetic_result doc synthetic_score info :: added).
        rewrite <- app_assoc. simpl.
        apply find_some in Ef. destruct Ef as [Hin Heq].
        apply String.eqb_eq in Heq.
        split; [reflexivity |]. split; [| split].
        -- constructor.
           ++ exists k, info, doc. repeat split; auto.
           ++ eapply Forall_impl; [| exact Hadd].
              intros r (k' & info' & doc' & H1 & H2). exists k', info', doc'.
              split; [now right | assumption].
        -- constructor; [| assumption].
           rewrite Heq. intros Hin'. apply Hk.
           apply in_map_iff in Hin'. destruct Hin' as (r & Hr & Hrin).
           rewrite Forall_forall in Hadd.
           destruct (Hadd r Hrin) as (k' & info' & doc' & H1 & _ & _ & _ & H5 & _).
           apply in_map_iff. exists (k', info'). split; [simpl; congruence | assumption].
        -- intros k' info' [[= <- <-] | Hin'].
           ++ right. right. left. assumption.
           ++ destruct (Hall _ _ Hin') as [H | [H | H]]; auto.
      * rewrite (bind_ok _ Hstep). destruct (IH Hnd' acc) as [Hev Hout].
        cbn [outcome requests fst snd]. split; [constructor; [exact I | exact Hev] |].
        destruct (outcome (for_each items acc _)) as [out | e]; [| exact I].
        simpl in *. destruct Hout as (added & -> & Hadd & Hids & Hall).
        exists added. split; [reflexivity |]. split; [| split].
        -- eapply Forall_impl; [| exact Hadd].
           intros r (k' & info' & doc & H1 & H2). exists k', info', doc.
           split; [now right | assumption].
        -- assumption.
        -- intros k' info' [[= <- <-] | Hin'].
           ++ right. left. intros d Hd Hid.
              pose proof (find_none _ _ Ef _ Hd) as Hn. simpl in Hn.
              apply String.eqb_neq in Hn. contradiction.
           ++ eapply Hall; eassumption.
Qed.

Lemma selected_nil (l : InterpretationLink.t) : ~ selected self [] l.
Proof.
  intros [_ H]. unfold link_selected, sql_in in H. simpl in H.
  destruct (InterpretationLink.verified l) as [[|]|]; discriminate.
Qed.

(** The link query raises what the database raises, or returns the
    selected links, strongest first. *)
Lemma query_interpretation_links_cases (ids : list string) :
  (exists e, db_error self (QueryInterpretationLinks ids) = Some e
             /\ query_interpretation_links self ids
                = (Raise e, [QueryInterpretationLinks ids]))
  \/ (db_error self (QueryInterpretationLinks ids) = None
      /\ query_interpretation_links self ids
         = (Ok (sort_by link_before
                  (filter (link_selected ids) (interpretation_links self))),
            [QueryInterpretationLinks ids])).
Proof. apply db_call_cases. Qed.

(** Without a statute among the first 20 results the stage returns its
    input and sends nothing. *)
Lemma apply_boost_no_statute (results : list Result) (query : string) :
  statute_ids_of results = [] ->
  _apply_interpretation_boost self results query = (Ok results, []).
Proof. intros H. unfold _apply_interpretation_boost. now rewrite H. Qed.

(** An exception of the link query leaves the stage as it is. *)
Lemma apply_boost_link_query_raises (results : list Result) (query : string)
  (e : PyExn) :
  statute_ids_of results <> [] ->
  db_error self (QueryInterpretationLinks (statute_ids_of results)) = Some e ->
  _apply_interpretation_boost self results query
  = (Raise e, [QueryInterpretationLinks (statute_ids_of results)]).
Proof.
  intros Hne He. unfold _apply_interpretation_boost.
  destruct (statute_ids_of results) as [| s ids]; [contradiction |].
  destruct (query_interpretation_links_cases (s :: ids)) as [(e' & He' & E) | (He' & _)];
    [| congruence].
  rewrite (bind_raise _ E). congruence.
Qed.

(** What [_apply_interpretation_boost] does, stage by stage: the
    requests it sends, and the list it returns when no database call
    raises. *)
Lemma apply_boost_spec (results : list Result) (query : string) :
  boost_requests (statute_ids_of results)
    (requests (_apply_interpretation_boost self results query))
  /\ if_ok (fun out => exists kept added,
       out = kept ++ added
       /\ Forall2 (boosted_from self (statute_ids_of results)) results kept
       /\ Forall (injected_from self (statute_ids_of results) kept) added
       /\ NoDup (map doc_id added)
       /\ all_linked_cases_present self (statute_ids_of results) kept added)
      (outcome (_apply_interpretation_boost self results query)).
Proof.
  unfold _apply_interpretation_boost.
  destruct (statute_ids_of results) as [| s ids] eqn:Eids.
  { split; [left; now split |]. simpl.
    exists results, []. rewrite app_nil_r.
    split; [reflexivity |].
    split; [apply unselected_from, selected_nil |].
    split; [constructor |]. split; [constructor |].
    intros link Hl. now apply selected_nil in Hl. }
  destruct (query_interpretation_links_cases (s :: ids)) as [(e & _ & E) | (_ & E)].
  { rewrite (bind_raise _ E). simpl. split; [| exact I].
    right. split; [discriminate |]. exists []. split; [reflexivity | constructor]. }
  rewrite (bind_ok _ E).
  set (links := sort_by link_before
                  (filter (link_selected (s :: ids)) (interpretation_links self))).
  destruct links as [| l0 ls] eqn:El.
  { assert (Hno : forall l, ~ selected self (s :: ids) l).
    { intros l Hl. apply selected_sorted in Hl. fold links in Hl.
      rewrite El in Hl. contradiction. }
    simpl. split.
    { right. split; [discriminate |]. exists []. split; [reflexivity | constructor]. }
    exists results, []. rewrite app_nil_r.
    split; [reflexivity |].
    split; [now apply unselected_from |].
    split; [constructor |]. split; [constructor |].
    intros link Hl. now apply Hno in Hl. }
  rewrite <- El.
  set (cmap := build_case_boost_map links).
  set (kept := map (boost_result cmap) results).
  destruct (@add_missing_loop_spec (existing_case_ids kept) (0.7 * avg_score kept) cmap
              (case_boost_map_nodup links) kept) as [Hev Hout].
  fold (existing_case_ids kept).
  cbn [outcome requests fst snd app]. split.
  { right. split; [discriminate |]. eexists. split; [reflexivity | exact Hev]. }
  destruct (outcome (for_each cmap kept _)) as [out | e]; [| exact I].
  simpl in *. destruct Hout as (added & -> & Hadd & Hids & Hall).
  exists kept, added. split; [reflexivity |].
  split; [apply boost_results_from |].
  split.
  { eapply Forall_impl; [| exact Hadd].
    intros r (k & info & doc & Hin & Hnot & Hdoc & Hid & _ & ->).
    apply In_dict_get in Hin; [| apply case_boost_map_nodup].
    apply case_boost_map_some in Hin. destruct Hin as (link & Hs & Hc & ->).
    exists link, doc. subst k.
    split; [exact Hs |]. split; [exact Hnot |]. split; [exact Hdoc |].
    split; [exact Hid | reflexivity]. }
  split; [assumption |].
  intros link Hl.
  destruct (dict_get cmap (InterpretationLink.case_id link)) as [info |] eqn:Eg.
  - apply dict_get_In in Eg. eapply Hall. exact Eg.
  - exfalso. eapply case_boost_map_none; [exact Eg | exact Hl | reflexivity].
Qed.

End BoostStage.

Section BoostStageTheorems.
Import Py Sql Retrieval Ranking Boost BoostChecks ModelChecks.
Local Open Scope string_scope.
Local Open Scope list_scope.
Local Open Scope Q_scope.

Variable self : HybridRetriever.

Lemma statute_ids_of_spec (results : list Result) (s : string) :
  In s (statute_ids_of results)
  <-> exists r, In r (firstn 20 results) /\ doc_type r = "statute" /\ doc_id r = s.
Proof.
  unfold statute_ids_of. rewrite nodup_In, in_map_iff. split.
  - intros (r & Hid & Hr). apply filter_In in Hr. destruct Hr as [Hin Ht].
    apply String.eqb_eq in Ht. now exists r.
  - intros (r & Hin & Ht & Hid). exists r. split; [assumption |].
    apply filter_In. split; [assumption | now apply String.eqb_eq].
Qed.

Lemma boosted_from_ids (ids : list string) (results kept : list Result) :
  Forall2 (boosted_from self ids) results kept ->
  map doc_id kept = map doc_id results
  /\ map doc_type kept = map doc_type results.
Proof.
  induction 1 as [| r r' rs rs' H _ IH]; [now split |].
  destruct IH as [IH1 IH2]. simpl. rewrite IH1, IH2.
  destruct H as [[-> _] | (link & _ & _ & ->)]; now split.
Qed.

(** X8. Whenever the boost stage returns, it has neither dropped nor
    reordered a result.  A result is boosted exactly when the link query
    returns a link that names it as the case, and then by a link with
    the highest boost factor among those; every linked case that is
    missing from the case results and has a document is appended once,
    scored from a link with the highest boost factor for it.  The link
    query is not guarded: when the database raises on it, the stage
    raises the same exception after that one request. *)
Theorem boost_stage_uses_strongest_links :
  forall (results : list Result) (query : string),
  (forall out : list Result,
     outcome (_apply_interpretation_boost self results query) = Ok out ->
     exists kept added,
       out = kept ++ added
       /\ Forall2 (boosted_from self (statute_ids_of results)) results kept
       /\ Forall (injected_from self (statute_ids_of results) kept) added
       /\ NoDup (map doc_id added)
       /\ all_linked_cases_present self (statute_ids_of results) kept added)
  /\ (forall e : PyExn,
        statute_ids_of results <> [] ->
        db_error self (QueryInterpretationLinks (statute_ids_of results)) = Some e ->
        _apply_interpretation_boost self results query
        = (Raise e, [QueryInterpretationLinks (statute_ids_of results)])).
Proof.
  intros results query. split.
  - intros out E.
    destruct (apply_boost_spec self results query) as [_ H].
    rewrite E in H. exact H.
  - intros e. apply apply_boost_link_query_raises.
Qed.

(** X9. The boost stage asks the database for links only when a statute is
    among the first 20 results: without one it returns its input and
    sends nothing; with one it sends a single link query, for the
    distinct statutes of the first 20, and after it only document
    lookups. *)
Theorem boost_stage_requests :
  forall (results : list Result) (query : string),
  NoDup (statute_ids_of results)
  /\ (forall s, In s (statute_ids_of results)
                <-> exists r, In r (firstn 20 results)
                              /\ doc_type r = "statute" /\ doc_id r = s)
  /\ boost_requests (statute_ids_of results)
       (requests (_apply_interpretation_boost self results query))
  /\ (statute_ids_of results = [] ->
      outcome (_apply_interpretation_boost self results query) = Ok results).
Proof.
  intros results query.
  split; [apply NoDup_nodup |].
  split; [intros s; apply statute_ids_of_spec |].
  destruct (apply_boost_spec self results query) as [Hev _].
  split; [exact Hev |].
  intros Hnil. now rewrite apply_boost_no_statute.
Qed.

Lemma selected_checked_boost (ids : list string) (link : InterpretationLink.t) :
  links_pass_checks (interpretation_links self) = true -> selected self ids link ->
  1 <= InterpretationLink.boost_factor link
  /\ InterpretationLink.boost_factor link <= 5.
Proof.
  intros Hadm [Hin _]. unfold links_pass_checks in Hadm.
  rewrite forallb_forall in Hadm. apply Hadm in Hin.
  unfold link_model_checks in Hin. simpl in Hin. rewrite !andb_true_iff in Hin.
  destruct Hin as (Hb & _). apply in_range_holds in Hb. split; lra.
Qed.

(** X10. When every stored link passes the three CHECK constraints of the
    link model and no incoming score is negative, the boost stage,
    whenever it returns, has left each result in place with a score
    between its old score and five times its old score. *)
Theorem boost_raises_scores_at_most_fivefold :
  forall (results : list Result) (query : string) (out : list Result),
  links_pass_checks (interpretation_links self) = true ->
  scores_non_negative results = true ->
  outcome (_apply_interpretation_boost self results query) = Ok out ->
  exists kept added,
    out = kept ++ added /\ Forall2 (raised_within 5) results kept.
Proof.
  intros results query out Hadm Hpos E.
  destruct (apply_boost_spec self results query) as [_ H].
  rewrite E in H. destruct H as (kept & added & -> & H1 & _).
  exists kept, added. split; [reflexivity |].
  unfold scores_non_negative in Hpos. rewrite forallb_forall in Hpos.
  assert (Hpos' : forall r, In r results -> 0 <= score r).
  { intros r Hr. apply Qle_bool_iff. now apply Hpos. }
  clear Hpos E. set (ids := statute_ids_of results) in H1. clearbody ids.
  induction H1 as [| r r' rs rs' H _ IH]; constructor.
  - assert (Hr : 0 <= score r) by (apply Hpos'; now left).
    destruct H as [[-> _] | (link & [Hs _] & _ & ->)].
    + unfold raised_within. repeat split; lra.
    + destruct (selected_checked_boost Hadm Hs) as [Hb1 Hb2].
      unfold raised_within. simpl.
      set (b := InterpretationLink.boost_factor link) in *.
      assert (0 <= score r * (b - 1)) by (apply Qmult_le_0_compat; lra).
      assert (0 <= score r * (5 - b)) by (apply Qmult_le_0_compat; lra).
      repeat split; lra.
  - apply IH. intros x Hx. apply Hpos'. now right.
Qed.

End BoostStageTheorems.

Section BoostStageWitnesses.
Import Py Sql Retrieval Ranking Boost BoostChecks ModelChecks.
Local Open Scope string_scope.
Local Open Scope list_scope.
Local Open Scope Q_scope.

Lemma boost_stage_strongest_witness :
  exists kept added,
    results_of
      (_apply_interpretation_boost Scenarios.inject_retriever
         (fused_results Scenarios.inject_retriever "misrepresentation")
         "misrepresentation")
    = kept ++ added
    /\ Forall2 (boosted_from Scenarios.inject_retriever
                  (statute_ids_of
                     (fused_results Scenarios.inject_retriever "misrepresentation")))
         (fused_results Scenarios.inject_retriever "misrepresentation") kept
    /\ Forall (injected_from Scenarios.inject_retriever
                 (statute_ids_of
                    (fused_results Scenarios.inject_retriever "misrepresentation"))
                 kept) added
    /\ NoDup (map doc_id added)
    /\ all_linked_cases_present Scenarios.inject_retriever
         (statute_ids_of (fused_results Scenarios.inject_retriever "misrepresentation"))
         kept added.
Proof.
  apply (proj1 (boost_stage_uses_strongest_links Scenarios.inject_retriever
                  (fused_results Scenarios.inject_retriever "misrepresentation")
                  "misrepresentation")).
  reflexivity.
Defined.

Lemma boost_raises_scores_witness :
  exists kept added,
    results_of
      (_apply_interpretation_boost Scenarios.inject_retriever
         (fused_results Scenarios.inject_retriever "misrepresentation")
         "misrepresentation")
    = kept ++ added
    /\ Forall2 (raised_within 5)
         (fused_results Scenarios.inject_retriever "misrepresentation") kept.
Proof.
  apply (@boost_raises_scores_at_most_fivefold Scenarios.inject_retriever
           (fused_results Scenarios.inject_retriever "misrepresentation")
           "misrepresentation"); reflexivity.
Defined.

End BoostStageWitnesses.

(** ** Diversification *)
Section DiversifyFacts.
Import Py Retrieval.
Local Open Scope string_scope.
Local Open Scope list_scope.

Lemma count_get_set (d : dict Z) (k0 k : string) (v : Z) :
  count_get (dict_set d k0 v) k = if String.eqb k k0 then v else count_get d k.
Proof.
  unfold count_get. rewrite dict_get_set. now destruct (String.eqb k k0).
Qed.

Lemma count_interpreting_snoc (s : string) (acc : list Result) (r : Result) :
  count_interpreting s (acc ++ [r])
  = (count_interpreting s acc + (if interprets s r then 1 else 0))%nat.
Proof.
  unfold count_interpreting. rewrite filter_app, length_app. simpl.
  now destruct (interprets s r).
Qed.

Lemma diversify_loop_subset (M k : Z) (todo : list Result) :
  forall (counts : dict Z) (acc : list Result) (r : Result),
    In r (diversify_loop M k todo counts acc) -> In r acc \/ In r todo.
Proof.
  induction todo as [| x todo IH]; intros counts acc r; simpl.
  - now left.
  - assert (Hkeep : forall c,
              In r (if (Z.of_nat (List.length (acc ++ [x])) >=? k)%Z
                    then acc ++ [x]
                    else diversify_loop M k todo c (acc ++ [x])) ->
              In r acc \/ x = r \/ In r todo).
    { intros c. destruct (Z.of_nat _ >=? k)%Z.
      - rewrite in_app_iff. simpl. tauto.
      - intros H. apply IH in H. rewrite in_app_iff in H. simpl in H. tauto. }
    destruct (interprets_statute x) as [sid |].
    + destruct (count_get counts sid >=? M)%Z.
      * intros H. apply IH in H. tauto.
      * apply Hkeep.
    + apply Hkeep.
Qed.

(** The counters agree with the kept results, and no statute is over the
    cap. *)
Lemma diversify_loop_cap (M k : Z) (todo : list Result) :
  forall (counts : dict Z) (acc : list Result),
    (forall s, count_get counts s = Z.of_nat (count_interpreting s acc)) ->
    (forall s, (count_interpreting s acc <= Z.to_nat M)%nat) ->
    forall s, (count_interpreting s (diversify_loop M k todo counts acc)
               <= Z.to_nat M)%nat.
Proof.
  induction todo as [| x todo IH]; intros counts acc Hc Hb s; simpl.
  - apply Hb.
  - assert (Hkeep : forall c,
              (forall s, count_get c s = Z.of_nat (count_interpreting s (acc ++ [x]))) ->
              (forall s, (count_interpreting s (acc ++ [x]) <= Z.to_nat M)%nat) ->
              (count_interpreting s
                 (if (Z.of_nat (List.length (acc ++ [x])) >=? k)%Z
                  then acc ++ [x]
                  else diversify_loop M k todo c (acc ++ [x]))
               <= Z.to_nat M)%nat).
    { intros c Hc' Hb'. destruct (Z.of_nat _ >=? k)%Z; [apply Hb' | now apply IH]. }
    destruct (interprets_statute x) as [sid |] eqn:Ex.
    + destruct (count_get counts sid >=? M)%Z eqn:Ecap.
      * now apply IH.
      * apply Hkeep.
        -- intros s'. rewrite count_get_set, count_interpreting_snoc.
           unfold interprets. rewrite Ex.
           rewrite (String.eqb_sym s' sid).
           destruct (String.eqb sid s') eqn:E.
           ++ apply String.eqb_eq in E. subst s'. rewrite Hc. lia.
           ++ rewrite Hc. lia.
        -- intros s'. rewrite count_interpreting_snoc.
           unfold interprets. rewrite Ex.
           destruct (String.eqb sid s') eqn:E.
           ++ apply String.eqb_eq in E. subst s'.
              specialize (Hc sid). lia.
           ++ specialize (Hb s'). lia.
    + apply Hkeep.
      * intros s'. rewrite count_interpreting_snoc.
        unfold interprets. rewrite Ex. rewrite Hc. lia.
      * intros s'. rewrite count_interpreting_snoc.
        unfold interprets. rewrite Ex. specialize (Hb s'). lia.
Qed.

Lemma diversify_results_subset (self : HybridRetriever) (results : list Result)
  (k : Z) (r : Result) :
  In r (_diversify_results self results k) -> In r results.
Proof.
  unfold _diversify_results. intros H.
  apply diversify_loop_subset in H. destruct H as [[] | H].
  now apply sorted_desc_In in H.
Qed.

(** [_diversify_results] keeps at most [max_interpretive_cases] results
    per interpreted statute (none when the configured maximum is negative). *)
Lemma diversify_results_cap (self : HybridRetriever) (results : list Result)
  (k : Z) (s : string) :
  (count_interpreting s (_diversify_results self results k)
   <= Z.to_nat (max_interpretive_cases (config self)))%nat.
Proof.
  unfold _diversify_results. apply diversify_loop_cap.
  - intros s'. reflexivity.
  - intros s'. unfold count_interpreting. simpl. lia.
Qed.

End DiversifyFacts.

(** ** The retrieval pipeline *)
Section RetrieveFacts.
Import Py Sql Retrieval Ranking Boost.
Local Open Scope string_scope.
Local Open Scope list_scope.
Local Open Scope Q_scope.

Variable self : HybridRetriever.

Lemma Forall2_same {A} (R : A -> A -> Prop) (l : list A) :
  (forall x, R x x) -> Forall2 R l l.
Proof. intros H. induction l; constructor; auto. Qed.

Lemma final_results_subset (k : option Z) (l : list Result) (r : Result) :
  In r (final_results self k l) -> In r l.
Proof.
  unfold final_results. destruct (diversification_enabled (config self)).
  - apply diversify_results_subset.
  - intros H. apply slice_to_In in H. now apply sorted_desc_In in H.
Qed.

(** The two searches of [retrieve] always return; the boost stage, which
    is not guarded, decides whether [retrieve] returns.  The requests are
    those of the three stages, in order. *)
Lemma retrieve_stages (query : string) (k : option Z) (use_interpretation_links : bool) :
  retrieve self query k use_interpretation_links
  = (match outcome (boost_stage self query use_interpretation_links) with
     | Ok boosted_results => Ok (final_results self k boosted_results)
     | Raise e => Raise e
     end,
     requests (_bm25_search self query 200)
     ++ requests (_dense_search self query 200)
     ++ requests (boost_stage self query use_interpretation_links)).
Proof.
  destruct (bm25_search_total self query 200) as (bm25 & E1 & _).
  destruct (dense_search_total self query 200) as (dense & ev2 & E2 & _).
  unfold retrieve, boost_stage, fused_results, results_of.
  rewrite (bind_ok _ E1), E1. cbn [outcome requests fst snd].
  rewrite (bind_ok _ E2), E2. cbn [outcome requests fst snd].
  destruct (if use_interpretation_links && interpretation_boost_enabled (config self)
            then _apply_interpretation_boost self (_merge_results self bm25 dense 500) query
            else ret (_merge_results self bm25 dense 500)) as [[b | e] ev3];
    cbn [bind outcome requests fst snd ret]; [| reflexivity].
  unfold final_results. now rewrite app_nil_r.
Qed.

(** A list that [retrieve] returns is built from a list that the boost
    stage returned. *)
Lemma retrieve_returns (query : string) (k : option Z) (use_interpretation_links : bool)
  (out : list Result) :
  outcome (retrieve self query k use_interpretation_links) = Ok out ->
  exists boosted_results,
    outcome (boost_stage self query use_interpretation_links) = Ok boosted_results
    /\ out = final_results self k boosted_results.
Proof.
  rewrite retrieve_stages. cbn [outcome fst].
  destruct (outcome (boost_stage self query use_interpretation_links)) as [b | e];
    [| discriminate].
  intros [= <-]. now exists b.
Qed.

Lemma fused_results_plain (query : string) : Forall plain (fused_results self query).
Proof.
  destruct (bm25_search_total self query 200) as (bm25 & E1 & Hp1).
  destruct (dense_search_total self query 200) as (dense & ev2 & E2 & Hp2 & _).
  unfold fused_results, results_of. rewrite E1, E2. simpl.
  now apply merge_results_plain.
Qed.

Lemma search_requests_not_link_queries (query : string) :
  Forall not_link_query
    (requests (_bm25_search self query 200) ++ requests (_dense_search self query 200)).
Proof.
  destruct (bm25_search_total self query 200) as (bm25 & E1 & _).
  destruct (dense_search_total self query 200) as (dense & ev2 & E2 & _ & Hev2).
  rewrite E1, E2. simpl. constructor; [exact I | exact Hev2].
Qed.

(** With links switched off the boost stage hands the fused list on. *)
Lemma boost_stage_off (query : string) (use_interpretation_links : bool) :
  use_interpretation_links && interpretation_boost_enabled (config self) = false ->
  boost_stage self query use_interpretation_links = (Ok (fused_results self query), []).
Proof. intros H. unfold boost_stage. now rewrite H. Qed.

(** With nothing to hand on, the boost stage returns at once. *)
Lemma boost_stage_empty (query : string) (use_interpretation_links : bool) :
  fused_results self query = [] ->
  boost_stage self query use_interpretation_links = (Ok [], []).
Proof.
  intros H. unfold boost_stage. rewrite H.
  destruct (use_interpretation_links && interpretation_boost_enabled (config self));
    reflexivity.
Qed.

(** What the boost stage returns: the fused results, each one as it was
    or boosted by a strongest returned link, then the injected cases. *)
Lemma boost_stage_returns (query : string) (use_interpretation_links : bool)
  (boosted_results : list Result) :
  outcome (boost_stage self query use_interpretation_links) = Ok boosted_results ->
  exists kept added,
    boosted_results = kept ++ added
    /\ Forall2 (fun r r' =>
         r' = r
         \/ exists link,
              strongest self (statute_ids_of (fused_results self query)) link
              /\ InterpretationLink.case_id link = doc_id r
              /\ r' = set_boost (InterpretationLink.boost_factor link)
                                (InterpretationLink.statute_id link) r)
         (fused_results self query) kept
    /\ Forall (injected_from self (statute_ids_of (fused_results self query)) kept) added.
Proof.
  unfold boost_stage.
  destruct (use_interpretation_links && interpretation_boost_enabled (config self)).
  - intros E.
    destruct (apply_boost_spec self (fused_results self query) query) as [_ H].
    rewrite E in H. destruct H as (kept & added & -> & H1 & H2 & _).
    exists kept, added. split; [reflexivity |]. split; [| exact H2].
    eapply Forall2_impl; [| exact H1].
    intros r r' [[-> _] | H]; [now left | now right].
  - intros [= <-]. exists (fused_results self query), [].
    rewrite app_nil_r. split; [reflexivity |]. split; [| constructor].
    apply Forall2_same. intros r. now left.
Qed.

(** Every boosted or injected result of the boost stage is backed by a
    stored link whose [verified] flag is not false. *)
Lemma boost_stage_backed (query : string) (use_interpretation_links : bool)
  (boosted_results : list Result) :
  outcome (boost_stage self query use_interpretation_links) = Ok boosted_results ->
  forall r, In r boosted_results -> boosted r \/ injected r ->
    exists link,
      In link (interpretation_links self)
      /\ InterpretationLink.case_id link = doc_id r
      /\ interprets_statute r = Some (InterpretationLink.statute_id link)
      /\ InterpretationLink.verified link <> Some false
      /\ (boosted r ->
          interpretive_boost r = Some (InterpretationLink.boost_factor link)).
Proof.
  intros E r Hr Hmark.
  destruct (boost_stage_returns _ _ E) as (kept & added & -> & Hkept & Hadded).
  pose proof (fused_results_plain query) as Hplain.
  assert (Hlink : forall link,
            strongest self (statute_ids_of (fused_results self query)) link ->
            In link (interpretation_links self)
            /\ InterpretationLink.verified link <> Some false).
  { intros link [[Hin Hsel] _]. split; [exact Hin |].
    now apply link_selected_sound in Hsel. }
  apply in_app_iff in Hr. destruct Hr as [Hr | Hr].
  - clear Hadded E.
    set (ids := statute_ids_of (fused_results self query)) in *. clearbody ids.
    set (l := fused_results self query) in *. clearbody l.
    revert Hplain. induction Hkept as [| x x' xs xs' H _ IH]; [contradiction |].
    intros Hplain. inversion Hplain as [| ? ? Hx Hxs]; subst.
    destruct Hr as [<- | Hr]; [| now apply IH].
    destruct H as [-> | (link & Hs & Hc & ->)].
    + exfalso. destruct Hx as (Hb & _ & _ & Hsrc).
      destruct Hmark as [Hbo | Hin]; [now apply Hbo | now apply Hsrc].
    + destruct (Hlink link Hs) as [Hin Hver].
      exists link. simpl. repeat split; auto.
  - rewrite Forall_forall in Hadded.
    destruct (Hadded r Hr) as (link & doc & Hs & _ & _ & Hid & ->).
    destruct (Hlink link Hs) as [Hin Hver].
    exists link. simpl. repeat split; auto.
    intros Hbo. exfalso. now apply Hbo.
Qed.

End RetrieveFacts.

(** ** Means, top-k lists and lexical rankings *)
Section ClaimFacts.
Import Py Sql Retrieval Ranking Boost.
Local Open Scope string_scope.
Local Open Scope list_scope.
Local Open Scope Q_scope.

Variable self : HybridRetriever.

Lemma fold_left_Qplus (xs : list Q) (a : Q) :
  fold_left Qplus xs a == a + fold_right Qplus 0 xs.
Proof.
  revert a. induction xs as [| x xs IH]; intros a; simpl; [ring |].
  rewrite IH. ring.
Qed.

(** Python's [sum] is the sum. *)
Lemma sum_fold_right (xs : list Q) : sum xs == fold_right Qplus 0 xs.
Proof. unfold sum. rewrite fold_left_Qplus. ring. Qed.

(** On a non-empty list [avg_score] is the mean of the first ten scores. *)
Lemma avg_score_mean (results : list Result) :
  results <> [] -> avg_score results == mean (map score (firstn 10 results)).
Proof.
  intros Hne. unfold avg_score, mean.
  destruct results as [| r l]; [contradiction |].
  rewrite length_map, length_firstn, sum_fold_right. reflexivity.
Qed.

Lemma statute_ids_of_nil : statute_ids_of [] = [].
Proof. reflexivity. Qed.

(** A strongest link exists only when the stage had results to work on. *)
Lemma strongest_results_nonempty (results : list Result) (link : InterpretationLink.t) :
  strongest self (statute_ids_of results) link -> results <> [].
Proof.
  intros [[Hin Hsel] _] ->. rewrite statute_ids_of_nil in Hsel.
  apply (@selected_nil self link). now split.
Qed.

Lemma Forall2_nonempty {A B} (R : A -> B -> Prop) (l : list A) (l' : list B) :
  Forall2 R l l' -> l <> [] -> l' <> [].
Proof. intros H Hne. destruct H; [contradiction | discriminate]. Qed.

(** The slice of the sorted list is the top [k] by score. *)
Lemma slice_top_by_score (l : list Result) (k : Z) :
  top_by_score k l (slice_to (sorted_desc score l) k).
Proof.
  pose proof (sorted_desc_descending l) as Hd.
  assert (Hp : Permutation l (sorted_desc score l))
    by (unfold sorted_desc; apply sort_by_perm).
  unfold slice_to.
  destruct (k <? 0)%Z eqn:E.
  - exists (skipn (List.length (sorted_desc score l) - Z.to_nat (- k))
                  (sorted_desc score l)).
    rewrite firstn_skipn. split; [exact Hp |]. split; [exact Hd |].
    intros Hk. apply Z.ltb_lt in E. lia.
  - exists (skipn (Z.to_nat k) (sorted_desc score l)).
    rewrite firstn_skipn. split; [exact Hp |]. split; [exact Hd |].
    intros _. rewrite length_firstn. now rewrite (Permutation_length Hp).
Qed.

(** Boosting a result leaves its fused keys as they are. *)
Lemma lexical_ranked_set_boost (nb : list Result) (boost : Q) (statute : string)
  (r : Result) :
  lexical_ranked self nb r -> lexical_ranked self nb (set_boost boost statute r).
Proof. intros (x & H). exists x. exact H. Qed.

(** When the embedding call has failed, the fused list is a lexical-only
    ranking of the normalized lexical hits. *)
Lemma fused_results_lexical (query : string) (e : PyExn) :
  embeddings_create self (embedding_model self) query = Raise e ->
  Forall (fun r => lexical_ranked self (lexical_hits self query) r
                   /\ score r = bm25_weight (config self) * get bm25_score r)
         (fused_results self query).
Proof.
  intros Hfail. unfold fused_results, lexical_hits.
  rewrite (dense_search_embedding_failed self query 200 Hfail).
  unfold results_of at 2. simpl. apply merge_results_lexical_only.
Qed.

End ClaimFacts.

(** ** The interpretation-aware retriever *)
Section AwareFacts.
Import Py Sql Aware.
Local Open Scope string_scope.
Local Open Scope list_scope.

Variable self : InterpretationAwareRetriever.

Lemma aware_link_selected_sound (ids : list string) (l : InterpretationLink.t) :
  link_selected ids l = true ->
  In (InterpretationLink.statute_id l) ids
  /\ InterpretationLink.verified l = Some true.
Proof.
  unfold link_selected, sql_in, sql_is_true. simpl.
  destruct (mem (InterpretationLink.statute_id l) ids) eqn:Em;
    destruct (InterpretationLink.verified l) as [[|]|]; simpl;
    try discriminate; intros _; (split; [now apply mem_In | reflexivity]).
Qed.

Lemma join_document_backed (ids : list string) (l : InterpretationLink.t)
  (row : LinkRow) :
  In l (interpretation_links self) -> link_selected ids l = true ->
  In row (join_document self l) -> row_backed self row.
Proof.
  intros Hl Hsel Hrow. apply aware_link_selected_sound in Hsel.
  unfold join_document in Hrow.
  destruct (find_document self (InterpretationLink.case_id l)); [| contradiction].
  destruct Hrow as [<- | []]. exists l. simpl. tauto.
Qed.

Lemma add_row_members (m : dict (list LinkRow)) (row : LinkRow)
  (k : string) (rows : list LinkRow) (r : LinkRow) :
  In (k, rows) (add_row m row) -> In r rows ->
  (r = row /\ k = row_statute_id row) \/ (exists rows', In (k, rows') m /\ In r rows').
Proof.
  unfold add_row.
  destruct (dict_get m (row_statute_id row)) as [old |] eqn:E; intros Hin Hr;
    apply dict_set_In_weak in Hin; destruct Hin as [[-> ->] | Hin].
  - apply in_app_iff in Hr. destruct Hr as [Hr | [<- | []]].
    + right. exists old. split; [now apply dict_get_In | assumption].
    + now left.
  - right. now exists rows.
  - destruct Hr as [<- | []]. now left.
  - right. now exists rows.
Qed.

Lemma aware_db_call_cases {A} (request : Event) (answer : A) :
  (exists e, db_error self request = Some e
             /\ db_call self request answer = (Raise e, [request]))
  \/ (db_error self request = None
      /\ db_call self request answer = (Ok answer, [request])).
Proof.
  unfold db_call, call. destruct (db_error self request) as [e |].
  - left. now exists e.
  - right. now split.
Qed.

(** When [_get_interpretation_links] returns, every row it groups under
    a statute is a verified stored link of that statute. *)
Lemma get_interpretation_links_backed (statute_ids : list string) :
  if_ok (fun m => forall k rows row, In (k, rows) m -> In row rows ->
                    row_backed self row /\ row_statute_id row = k)
        (outcome (_get_interpretation_links self statute_ids)).
Proof.
  unfold _get_interpretation_links.
  destruct statute_ids as [| s ids].
  { simpl. intros k rows row []. }
  set (rows := sort_by row_before _).
  destruct (aware_db_call_cases (QueryInterpretationLinks (s :: ids)) rows)
    as [(e & _ & E) | (_ & E)].
  { rewrite (bind_raise _ E). exact I. }
  rewrite (bind_ok _ E). simpl.
  assert (Hrows : forall row, In row rows -> row_backed self row).
  { intros row Hrow. unfold rows in Hrow. apply sort_by_In in Hrow.
    apply in_flat_map in Hrow. destruct Hrow as (l & Hl & Hrow).
    apply filter_In in Hl. destruct Hl as [Hl Hsel].
    eapply join_document_backed; eassumption. }
  apply (fold_left_invariant
           (fun m : dict (list LinkRow) =>
              forall k rs row, In (k, rs) m -> In row rs ->
                row_backed self row /\ row_statute_id row = k)).
  - intros k rs row [].
  - intros m row Hm Hrow k rs r Hin Hr.
    destruct (add_row_members _ _ _ _ _ Hin Hr) as [[-> ->] | (rs' & Hin' & Hr')].
    + split; [now apply Hrows | reflexivity].
    + eapply Hm; eassumption.
Qed.

Lemma untouched_sound (doc : Candidate) : untouched doc -> sound self doc.
Proof.
  intros [Hi Hs]. split.
  - intros H. congruence.
  - intros H. congruence.
Qed.

Lemma boost_first_sound (case_id statute_id : string) (row : LinkRow)
  (l : list Candidate) :
  row_backed self row -> row_case_id row = case_id ->
  row_statute_id row = statute_id ->
  Forall (sound self) l -> Forall (sound self) (boost_first case_id statute_id row l).
Proof.
  intros (link & Hl & Hc & Hs & Hv) Hcase Hstat.
  induction l as [| doc l IH]; intros H; simpl; [constructor |].
  inversion H as [| ? ? Hd Hrest]; subst.
  destruct (String.eqb (id doc) (row_case_id row)) eqn:E.
  - apply String.eqb_eq in E. constructor; [| assumption].
    split.
    + intros _. reflexivity.
    + intros _. exists link. simpl. repeat split; auto; congruence.
  - constructor; [assumption | now apply IH].
Qed.

Lemma boost_case_sound (existing_ids : list string) (statute_id : string)
  (statute_score : Q) (st : boost_state) (row : LinkRow) :
  row_backed self row -> row_statute_id row = statute_id ->
  Forall (sound self) (fst st) ->
  Forall (sound self) (fst (boost_case self existing_ids statute_id statute_score st row)).
Proof.
  intros Hrow Hstat Hst. destruct st as [l added]. unfold boost_case.
  destruct (mem (row_case_id row) existing_ids).
  - simpl. now apply boost_first_sound.
  - destruct (mem (row_case_id row) added); [exact Hst |].
    simpl in *. apply Forall_app. split; [assumption |].
    constructor; [| constructor].
    destruct Hrow as (link & Hl & Hc & Hs & Hv).
    split.
    + intros _. reflexivity.
    + intros _. exists link. simpl. repeat split; auto; congruence.
Qed.

Lemma boost_statute_sound (n : nat) (existing_ids : list string)
  (st : boost_state) (k : string) (rows : list LinkRow) :
  (forall row, In row rows -> row_backed self row /\ row_statute_id row = k) ->
  Forall (sound self) (fst st) ->
  Forall (sound self) (fst (boost_statute self n existing_ids st (k, rows))).
Proof.
  intros Hrows Hst. unfold boost_statute.
  apply (fold_left_invariant (fun st : boost_state => Forall (sound self) (fst st)));
    [assumption |].
  intros st' row Hst' Hrow. apply slice_to_In in Hrow.
  destruct (Hrows row Hrow) as [Hb Hk].
  now apply boost_case_sound.
Qed.

(** After the boost, a candidate annotated with a statute is flagged
    interpretive, and every interpretive candidate is backed by a stored
    link with [verified = true]. *)
Lemma apply_boost_sound (candidates : list Candidate)
  (m : dict (list LinkRow)) :
  (forall k rows row, In (k, rows) m -> In row rows ->
     row_backed self row /\ row_statute_id row = k) ->
  Forall untouched candidates ->
  Forall (sound self) (_apply_interpretation_boost self candidates m).
Proof.
  intros Hm Hc. unfold _apply_interpretation_boost.
  apply (fold_left_invariant (fun st : boost_state => Forall (sound self) (fst st))).
  - simpl. eapply Forall_impl; [| exact Hc]. apply untouched_sound.
  - intros st [k rows] Hst Hin. apply boost_statute_sound; [| assumption].
    intros row Hrow. eapply Hm; eassumption.
Qed.

Lemma aware_count_snoc (s : string) (acc : list Candidate) (doc : Candidate) :
  count_interpreting s (acc ++ [doc])
  = (count_interpreting s acc + (if interprets s doc then 1 else 0))%nat.
Proof.
  unfold count_interpreting. rewrite filter_app, length_app. simpl.
  now destruct (interprets s doc).
Qed.

Lemma aware_diversify_subset (cap k : Z) (todo : list Candidate) :
  forall counts acc doc,
    In doc (diversify_loop cap k todo counts acc) -> In doc acc \/ In doc todo.
Proof.
  induction todo as [| x todo IH]; intros counts acc doc; simpl.
  - now left.
  - assert (Hkeep : forall c,
              In doc (if (Z.of_nat (List.length (acc ++ [x])) >=? k)%Z
                      then acc ++ [x]
                      else diversify_loop cap k todo c (acc ++ [x])) ->
              In doc acc \/ x = doc \/ In doc todo).
    { intros c. destruct (Z.of_nat _ >=? k)%Z.
      - rewrite in_app_iff. simpl. tauto.
      - intros H. apply IH in H. rewrite in_app_iff in H. simpl in H. tauto. }
    destruct (is_interpretive x).
    + destruct (interp_count counts (interprets_statute x) >=? cap)%Z.
      * intros H. apply IH in H. tauto.
      * apply Hkeep.
    + apply Hkeep.
Qed.

Lemma aware_diversify_cap (cap k : Z) (todo : list Candidate) :
  Forall flagged todo ->
  forall counts acc,
    (forall s, interp_count counts (Some s) = Z.of_nat (count_interpreting s acc)) ->
    (forall s, (count_interpreting s acc <= Z.to_nat cap)%nat) ->
    forall s, (count_interpreting s (diversify_loop cap k todo counts acc)
               <= Z.to_nat cap)%nat.
Proof.
  induction todo as [| x todo IH]; intros Hfl counts acc Hc Hb s; simpl.
  - apply Hb.
  - inversion Hfl as [| ? ? Hx Hrest]; subst.
    assert (Hkeep : forall c,
              (forall s, interp_count c (Some s)
                         = Z.of_nat (count_interpreting s (acc ++ [x]))) ->
              (forall s, (count_interpreting s (acc ++ [x]) <= Z.to_nat cap)%nat) ->
              (count_interpreting s
                 (if (Z.of_nat (List.length (acc ++ [x])) >=? k)%Z
                  then acc ++ [x]
                  else diversify_loop cap k todo c (acc ++ [x]))
               <= Z.to_nat cap)%nat).
    { intros c Hc' Hb'. destruct (Z.of_nat _ >=? k)%Z; [apply Hb' | now apply IH]. }
    destruct (is_interpretive x) eqn:Ei.
    + destruct (interp_count counts (interprets_statute x) >=? cap)%Z eqn:Ecap.
      * now apply IH.
      * apply Hkeep.
        -- intros s'. rewrite aware_count_snoc. simpl. unfold interprets.
           destruct (interprets_statute x) as [sid |] eqn:Ex; simpl.
           ++ rewrite (String.eqb_sym s' sid).
              destruct (String.eqb sid s') eqn:E.
              ** apply String.eqb_eq in E. subst s'. rewrite Hc. lia.
              ** rewrite Hc. lia.
           ++ rewrite Hc. lia.
        -- intros s'. rewrite aware_count_snoc. unfold interprets.
           destruct (interprets_statute x) as [sid |] eqn:Ex.
           ++ destruct (String.eqb sid s') eqn:E.
              ** apply String.eqb_eq in E. subst s'. specialize (Hc sid). lia.
              ** specialize (Hb s'). lia.
           ++ specialize (Hb s'). lia.
    + assert (Hnone : interprets_statute x = None).
      { destruct (interprets_statute x) eqn:Ex; [| reflexivity].
        unfold flagged in Hx. rewrite Ex in Hx.
        assert (is_interpretive x = true) by (apply Hx; discriminate).
        congruence. }
      apply Hkeep.
      * intros s'. rewrite aware_count_snoc. unfold interprets. rewrite Hnone, Hc. lia.
      * intros s'. rewrite aware_count_snoc. unfold interprets. rewrite Hnone.
        specialize (Hb s'). lia.
Qed.

Lemma aware_dense_hit_untouched (candidates : list Candidate) (hit : Z * Q) :
  Forall untouched candidates ->
  if_ok (Forall untouched) (outcome (dense_hit self candidates hit)).
Proof.
  intros H. unfold dense_hit. destruct hit as [idx distance].
  destruct (idx =? -1)%Z; [exact H |].
  destruct (Retrieval.mapping_get (doc_id_mapping self) idx) as [doc_id |];
    [| exact H].
  destruct (String.eqb doc_id ""); [exact H |].
  destruct (aware_db_call_cases (QueryDocument doc_id) (find_document self doc_id))
    as [(e & _ & E) | (_ & E)].
  { rewrite (bind_raise _ E). exact I. }
  rewrite (bind_ok _ E).
  destruct (find_document self doc_id) as [d |]; [| exact H].
  destruct (Qeq_bool (1.0 + distance) 0); [exact I |].
  simpl. apply Forall_app. split; [assumption |].
  constructor; [split; reflexivity | constructor].
Qed.

(** When [_dense_search] returns, its candidates are untouched. *)
Lemma aware_dense_search_untouched (query : string) (k : Z) :
  if_ok (Forall untouched) (outcome (_dense_search self query k)).
Proof.
  unfold _dense_search, call.
  destruct (embeddings_create self (embedding_model self) query) as [emb | e];
    [| exact I].
  cbn [bind].
  destruct (faiss_search self emb k) as [found | e]; [| exact I].
  cbn [bind].
  destruct (@for_each_invariant _ _ (Forall untouched) (fun _ => True)
              (dense_hit self) found) with (acc := @nil Candidate) as [Ho _].
  - intros acc x _ Hacc. split; [now apply aware_dense_hit_untouched |].
    apply Forall_forall. intros ev _. exact I.
  - constructor.
  - destruct (for_each found [] (dense_hit self)) as [r t]. exact Ho.
Qed.

(** An exception of the embedding call leaves [retrieve] as it is. *)
Lemma aware_retrieve_embedding_raises (query : string) (k : option Z) (e : PyExn) :
  embeddings_create self (embedding_model self) query = Raise e ->
  retrieve self query k
  = (Raise e, [EmbeddingsCreate (embedding_model self) query]).
Proof.
  intros H. unfold retrieve, _dense_search, call. rewrite H. reflexivity.
Qed.

(** So does an exception of the index search. *)
Lemma aware_retrieve_index_raises (query : string) (k : option Z) (emb : list Q)
  (e : PyExn) :
  embeddings_create self (embedding_model self) query = Ok emb ->
  faiss_search self emb
    (int_or k (top_k (config self)) * dense_k_multiplier (config self))%Z = Raise e ->
  outcome (retrieve self query k) = Raise e.
Proof.
  intros H1 H2. unfold retrieve, _dense_search, call. rewrite H1. cbn [bind].
  rewrite H2. reflexivity.
Qed.

(** A list that [retrieve] returns is empty, after an empty dense
    search, or is built from the candidates that the dense search
    returned and the link map that the link query returned. *)
Lemma aware_retrieve_returns (query : string) (k : option Z) (out : list Candidate) :
  outcome (retrieve self query k) = Ok out ->
  exists candidates,
    outcome (_dense_search self query
               (int_or k (top_k (config self)) * dense_k_multiplier (config self))%Z)
    = Ok candidates
    /\ Forall untouched candidates
    /\ ((candidates = [] /\ out = [])
        \/ exists m,
             outcome (_get_interpretation_links self (_extract_statute_ids candidates))
             = Ok m
             /\ out = _diversify_and_rerank self
                        (_apply_interpretation_boost self candidates m)
                        (int_or k (top_k (config self)))).
Proof.
  unfold retrieve.
  set (k0 := int_or k (top_k (config self))).
  pose proof (aware_dense_search_untouched query
                (k0 * dense_k_multiplier (config self))) as Hc.
  destruct (_dense_search self query (k0 * dense_k_multiplier (config self))%Z)
    as [[cands | e] evs] eqn:E; [| discriminate].
  simpl in Hc. rewrite (bind_ok _ eq_refl). cbn [outcome fst].
  intros Hout. exists cands. split; [reflexivity |]. split; [exact Hc |].
  destruct cands as [| c cands]; [left; split; [reflexivity | now injection Hout] |].
  right. set (cs := c :: cands) in *.
  destruct (_get_interpretation_links self (_extract_statute_ids cs))
    as [[m | e] evs'] eqn:Em; [| discriminate].
  exists m. split; [reflexivity |].
  rewrite (bind_ok _ eq_refl) in Hout. simpl in Hout. now injection Hout.
Qed.

(** Whenever [retrieve] of the interpretation-aware retriever returns,
    every candidate it returns flagged interpretive is backed by a stored
    link with [verified = true], and at most
    [max_interpretive_per_statute] candidates are annotated with any one
    statute. *)
Lemma aware_retrieve_sound (query : string) (k : option Z) (out : list Candidate) :
  outcome (retrieve self query k) = Ok out ->
  (forall doc, In doc out -> is_interpretive doc = true -> backed self doc)
  /\ (forall s, (count_interpreting s out
                 <= Z.to_nat (max_interpretive_per_statute (config self)))%nat).
Proof.
  intros Hout.
  destruct (aware_retrieve_returns query k Hout)
    as (cs & _ & Hc & [[_ ->] | (m & Em & ->)]).
  { split; [intros doc [] | intros s; unfold count_interpreting; simpl; lia]. }
  pose proof (get_interpretation_links_backed (_extract_statute_ids cs)) as Hm.
  rewrite Em in Hm. simpl in Hm.
  pose proof (@apply_boost_sound cs m Hm Hc) as Hsound.
  rewrite Forall_forall in Hsound.
  split.
  - intros doc Hdoc Hi. unfold _diversify_and_rerank in Hdoc.
    apply aware_diversify_subset in Hdoc. destruct Hdoc as [[] | Hdoc].
    apply sorted_desc_In in Hdoc. now apply (Hsound doc Hdoc).
  - intros s. unfold _diversify_and_rerank. apply aware_diversify_cap.
    + apply Forall_forall. intros doc Hdoc. apply sorted_desc_In in Hdoc.
      now apply (Hsound doc Hdoc).
    + intros s'. reflexivity.
    + intros s'. unfold count_interpreting. simpl. lia.
Qed.

End AwareFacts.

(** ** The claims about the retriever *)
Section RetrieverClaims.
Import Py Sql Retrieval Ranking Boost Scenarios.
Local Open Scope string_scope.
Local Open Scope list_scope.
Local Open Scope Q_scope.

(** C2, as stated, fails: the only stored link of this retriever has
    [verified] NULL (the migration's table admits such a row), and
    [retrieve] boosts its case C1 by the link's factor 2.8. *)
Lemma C2_null_verified_link_boosts :
  map (fun r => (doc_id r, interpretive_boost r, interprets_statute r))
      (filter is_boosted
         (results_of (retrieve null_verified_retriever "misrepresentation" None true)))
  = [("C1", Some 2.8, Some "S")]
  /\ map InterpretationLink.verified (interpretation_links null_verified_retriever)
     = [None]
  /\ forallb Models.Migration.admits (interpretation_links null_verified_retriever)
     = true.
Proof. repeat split; vm_compute; reflexivity. Qed.

(** C2, amended.  In every list that [HybridRetriever.retrieve] returns,
    a boosted or injected result has a stored link from the statute it is
    annotated with, whose [verified] flag is true or NULL, never false; a
    boosted result carries that link's [boost_factor].  In every list that
    [InterpretationAwareRetriever.retrieve] returns, whose query asks for
    [verified = TRUE], an interpretive candidate has a stored link with
    [verified = true].  (Neither retriever guards its database calls: a
    call that raises returns no list.) *)
Theorem C2_boost_uses_links_not_marked_unverified :
  (forall (self : HybridRetriever) (query : string) (k : option Z)
          (use_interpretation_links : bool) (out : list Result),
   outcome (retrieve self query k use_interpretation_links) = Ok out ->
   forall r, In r out -> boosted r \/ injected r ->
     exists link,
       In link (interpretation_links self)
       /\ InterpretationLink.case_id link = doc_id r
       /\ interprets_statute r = Some (InterpretationLink.statute_id link)
       /\ InterpretationLink.verified link <> Some false
       /\ (boosted r ->
           interpretive_boost r = Some (InterpretationLink.boost_factor link)))
  /\
  (forall (self : Aware.InterpretationAwareRetriever) (query : string) (k : option Z)
          (out : list Aware.Candidate),
   outcome (Aware.retrieve self query k) = Ok out ->
   forall doc, In doc out -> Aware.is_interpretive doc = true ->
     exists link,
       In link (Aware.interpretation_links self)
       /\ InterpretationLink.case_id link = Aware.id doc
       /\ Aware.interprets_statute doc = Some (InterpretationLink.statute_id link)
       /\ InterpretationLink.verified link = Some true).
Proof.
  split.
  - intros self query k use out Hout r Hr Hmark.
    destruct (retrieve_returns self query k use Hout) as (b & Hb & ->).
    apply final_results_subset in Hr.
    eapply boost_stage_backed; eassumption.
  - intros self query k out Hout.
    exact (proj1 (aware_retrieve_sound self query k Hout)).
Qed.

Lemma C2_boost_uses_links_witness :
  map doc_id
      (filter is_boosted
         (results_of (retrieve inject_retriever "misrepresentation" None true)))
  = ["C1"]
  /\ map doc_id
         (filter is_injected
            (results_of (retrieve inject_retriever "misrepresentation" None true)))
     = ["C2"]
  /\ Forall (fun r =>
       boosted r \/ injected r ->
       exists link,
         In link (interpretation_links inject_retriever)
         /\ InterpretationLink.case_id link = doc_id r
         /\ interprets_statute r = Some (InterpretationLink.statute_id link)
         /\ InterpretationLink.verified link <> Some false
         /\ (boosted r ->
             interpretive_boost r = Some (InterpretationLink.boost_factor link)))
       (results_of (retrieve inject_retriever "misrepresentation" None true)).
Proof.
  split; [reflexivity |]. split; [reflexivity |].
  apply Forall_forall. intros r Hr.
  exact (proj1 C2_boost_uses_links_not_marked_unverified
           inject_retriever "misrepresentation" None true _ eq_refl r Hr).
Defined.

(** C3, as stated, fails: with [diversification_enabled = False] the
    four boosted cases of statute S are all returned, above the
    configured maximum of 3. *)
Lemma C3_undiversified_returns_four :
  count_interpreting "S"
    (results_of (retrieve undiversified_retriever "misrepresentation" None true)) = 4%nat
  /\ max_interpretive_cases (config undiversified_retriever) = 3%Z
  /\ diversification_enabled (config undiversified_retriever) = false.
Proof. repeat split; vm_compute; reflexivity. Qed.

(** C3, amended.  When [config.diversification_enabled] holds (the
    default), every list that [HybridRetriever.retrieve] returns has, for
    every statute [s], at most [max_interpretive_cases] results annotated
    as interpreting [s].  With the flag off the returned list is the top
    [k] by score of what the boost stage returned
    ([sorted(...)[:k]]), with no cap.  Every list that
    [InterpretationAwareRetriever.retrieve], which always diversifies,
    returns has at most [max_interpretive_per_statute] candidates
    annotated as interpreting [s]. *)
Theorem C3_diversified_cap :
  (forall (self : HybridRetriever) (query : string) (k : option Z)
          (use_interpretation_links : bool) (out : list Result),
   outcome (retrieve self query k use_interpretation_links) = Ok out ->
   (diversification_enabled (config self) = true ->
    forall s, (count_interpreting s out
               <= Z.to_nat (max_interpretive_cases (config self)))%nat)
   /\ (diversification_enabled (config self) = false ->
       exists boosted_results,
         outcome (boost_stage self query use_interpretation_links) = Ok boosted_results
         /\ out = slice_to (sorted_desc score boosted_results) (effective_k self k)
         /\ top_by_score (effective_k self k) boosted_results out))
  /\
  (forall (self : Aware.InterpretationAwareRetriever) (query : string) (k : option Z)
          (out : list Aware.Candidate),
   outcome (Aware.retrieve self query k) = Ok out ->
   forall s, (Aware.count_interpreting s out
              <= Z.to_nat (Aware.max_interpretive_per_statute (Aware.config self)))%nat).
Proof.
  split.
  - intros self query k use out Hout.
    destruct (retrieve_returns self query k use Hout) as (b & Hb & ->).
    unfold final_results. split; intros Hdiv; rewrite Hdiv.
    + intros s. apply diversify_results_cap.
    + exists b. split; [exact Hb |]. split; [reflexivity |].
      apply slice_top_by_score.
  - intros self query k out Hout.
    exact (proj2 (aware_retrieve_sound self query k Hout)).
Qed.

Lemma C3_diversified_cap_witness :
  (diversification_enabled (config diversified_retriever) = true ->
   forall s,
     (count_interpreting s
        (results_of (retrieve diversified_retriever "misrepresentation" None true))
      <= 3)%nat)
  /\ (diversification_enabled (config diversified_retriever) = false ->
      exists boosted_results,
        outcome (boost_stage diversified_retriever "misrepresentation" true)
        = Ok boosted_results
        /\ results_of (retrieve diversified_retriever "misrepresentation" None true)
           = slice_to (sorted_desc score boosted_results)
               (effective_k diversified_retriever None)
        /\ top_by_score (effective_k diversified_retriever None) boosted_results
             (results_of (retrieve diversified_retriever "misrepresentation" None true))).
Proof.
  exact (proj1 C3_diversified_cap
           diversified_retriever "misrepresentation" None true _ eq_refl).
Defined.

(** C4, as stated, fails: the fused scores of S, C1, X are 2/5, 1/5, 0
    (mean 1/5), so the claimed score of the injected case C2 is
    0.7 * 1/5 * 2 = 7/25; the code first doubles the score of C1 and then
    takes the mean, and C2 gets 0.7 * 4/15 * 2 = 28/75. *)
Lemma C4_injected_score_uses_boosted_mean :
  map (fun r => (doc_id r, Qred (score r)))
      (fused_results inject_retriever "misrepresentation")
  = [("S", 2 # 5); ("C1", 1 # 5); ("X", 0)]
  /\ Qred (0.7 * avg_score (fused_results inject_retriever "misrepresentation") * 2)
     = 7 # 25
  /\ map (fun r => (doc_id r, Qred (score r), is_interpretive_case r))
         (filter is_injected
            (results_of (retrieve inject_retriever "misrepresentation" None true)))
     = [("C2", 28 # 75, true)].
Proof. repeat split; vm_compute; reflexivity. Qed.

(** C4, amended.  Every list that [_apply_interpretation_boost] returns
    is the fused results, each one unchanged or boosted in place by a
    stored link, followed by the injected cases.  An injected case is not
    among the case-typed results, is marked
    [source = 'interpretation_link'] and [is_interpretive_case = True],
    and its score is 0.7 times the mean of the first ten scores as they
    stand after the in-place boost, times the [boost_factor] of its
    link. *)
Theorem C4_injected_case_score :
  forall (self : HybridRetriever) (results : list Result) (query : string)
         (out : list Result),
  outcome (_apply_interpretation_boost self results query) = Ok out ->
  exists kept added,
    out = kept ++ added
    /\ Forall2 (fun r r' =>
         r' = r
         \/ exists link,
              In link (interpretation_links self)
              /\ InterpretationLink.case_id link = doc_id r
              /\ r' = set_boost (InterpretationLink.boost_factor link)
                                (InterpretationLink.statute_id link) r)
         results kept
    /\ Forall (fun r =>
         injected r
         /\ is_interpretive_case r = true
         /\ doc_type r = "case"
         /\ ~ In (doc_id r) (existing_case_ids kept)
         /\ exists link,
              In link (interpretation_links self)
              /\ InterpretationLink.case_id link = doc_id r
              /\ interprets_statute r = Some (InterpretationLink.statute_id link)
              /\ score r ==
                 0.7 * mean (map score (firstn 10 kept))
                 * InterpretationLink.boost_factor link)
         added.
Proof.
  intros self results query out E.
  destruct (apply_boost_spec self results query) as [_ H].
  rewrite E in H. destruct H as (kept & added & -> & H1 & H2 & _).
  exists kept, added. split; [reflexivity |]. split.
  - eapply Forall2_impl; [| exact H1].
    intros r r' [[-> _] | (link & [[Hin _] _] & Hc & ->)]; [now left |].
    right. exists link. repeat split; assumption.
  - eapply Forall_impl; [| exact H2].
    intros r (link & doc & Hs & Hnot & Hdoc & Hid & ->).
    assert (Hne : kept <> []).
    { eapply Forall2_nonempty; [exact H1 |].
      eapply strongest_results_nonempty. exact Hs. }
    destruct Hs as [[Hin _] _]. simpl.
    split; [reflexivity |]. split; [reflexivity |]. split; [reflexivity |].
    split; [now rewrite Hid |].
    exists link. split; [exact Hin |]. split; [now rewrite Hid |].
    split; [reflexivity |].
    now rewrite (avg_score_mean Hne).
Qed.

Lemma C4_injected_case_witness :
  exists kept added,
    results_of
      (_apply_interpretation_boost inject_retriever
         (fused_results inject_retriever "misrepresentation") "misrepresentation")
    = kept ++ added
    /\ Forall2 (fun r r' =>
         r' = r
         \/ exists link,
              In link (interpretation_links inject_retriever)
              /\ InterpretationLink.case_id link = doc_id r
              /\ r' = set_boost (InterpretationLink.boost_factor link)
                                (InterpretationLink.statute_id link) r)
         (fused_results inject_retriever "misrepresentation") kept
    /\ Forall (fun r =>
         injected r
         /\ is_interpretive_case r = true
         /\ doc_type r = "case"
         /\ ~ In (doc_id r) (existing_case_ids kept)
         /\ exists link,
              In link (interpretation_links inject_retriever)
              /\ InterpretationLink.case_id link = doc_id r
              /\ interprets_statute r = Some (InterpretationLink.statute_id link)
              /\ score r ==
                 0.7 * mean (map score (firstn 10 kept))
                 * InterpretationLink.boost_factor link)
         added.
Proof.
  apply (@C4_injected_case_score inject_retriever
           (fused_results inject_retriever "misrepresentation") "misrepresentation").
  reflexivity.
Defined.

(** C5, as stated, fails: unit D is the only lexical and the only dense
    hit, so both of its normalized scores are 1.0, and its fused score is
    0.4 + 0.4 = 4/5, not 1; [lepard_weight] is never read. *)
Lemma C5_both_sides_fuse_to_four_fifths :
  map (fun r => (doc_id r, bm25_score r, dense_score r, Qred (score r)))
      (results_of (retrieve both_sides_retriever "misrepresentation" None true))
  = [("D", Some 1.0, Some 1.0, 4 # 5)]
  /\ Qeq_bool (4 # 5) 1 = false.
Proof. repeat split; vm_compute; reflexivity. Qed.

(** C5, amended.  Nothing is renormalized: a fused result carries the
    normalized lexical score of its unit (0.0 without a lexical hit),
    and, when its unit occurs at most once among the dense hits, the
    normalized dense score (0.0 without a dense hit) and
    [score = bm25_weight * lexical + dense_weight * dense] with the
    configured weights; with the default 0.4 and 0.4 a unit whose two
    normalized scores are 1.0 gets 0.8.  (The dense contributions of a
    unit that occurs twice among the dense hits add up; the other units
    of the same query are not affected.) *)
Theorem C5_fused_score_is_weighted_sum :
  forall (self : HybridRetriever) (bm25_results dense_results : list Result)
         (k : Z) (r : Result),
  In r (_merge_results self bm25_results dense_results k) ->
  lexical_component (_normalize_scores bm25_results) r
  /\ (occurs_once (doc_id r) dense_results ->
      dense_component (_normalize_scores dense_results) r
      /\ score r ==
         bm25_weight (config self) * get bm25_score r
         + dense_weight (config self) * get dense_score r
      /\ (bm25_weight (config self) == 0.4 -> dense_weight (config self) == 0.4 ->
          get bm25_score r == 1.0 -> get dense_score r == 1.0 ->
          score r == 0.8)).
Proof.
  intros self bm25 dense k r Hr.
  destruct (merge_results_fused_unit self bm25 dense k r Hr) as (Hlex & Hs & Hunit).
  split; [exact Hlex |].
  intros Honce. destruct (Hunit Honce) as [Hden Hf].
  unfold fused in Hf. rewrite <- Hs in Hf.
  split; [exact Hden |]. split; [exact Hf |].
  intros Hwb Hwd Hb Hd. rewrite Hf, Hwb, Hwd, Hb, Hd. reflexivity.
Qed.

Lemma C5_fused_score_witness :
  map doc_id
      (results_of (_dense_search repeated_dense_retriever "misrepresentation" 200))
  = ["B"; "D"; "B"]
  /\ exists r,
       In r (fused_results repeated_dense_retriever "misrepresentation")
       /\ doc_id r = "D"
       /\ lexical_component
            (_normalize_scores
               (results_of (_bm25_search repeated_dense_retriever "misrepresentation" 200)))
            r
       /\ dense_component
            (_normalize_scores
               (results_of (_dense_search repeated_dense_retriever "misrepresentation" 200)))
            r
       /\ score r ==
          bm25_weight (config repeated_dense_retriever) * get bm25_score r
          + dense_weight (config repeated_dense_retriever) * get dense_score r.
Proof.
  split; [reflexivity |].
  eexists. split; [vm_compute; right; right; right; left; reflexivity |].
  split; [reflexivity |].
  match goal with
  | |- lexical_component _ ?r /\ _ =>
      destruct (@C5_fused_score_is_weighted_sum repeated_dense_retriever
                  (results_of (_bm25_search repeated_dense_retriever
                                 "misrepresentation" 200))
                  (results_of (_dense_search repeated_dense_retriever
                                 "misrepresentation" 200))
                  500 r) as [Hlex Hunit]
  end.
  { vm_compute. right. right. right. left. reflexivity. }
  destruct Hunit as (Hden & Hf & _).
  { vm_compute. lia. }
  split; [exact Hlex |]. split; [exact Hden | exact Hf].
Defined.

(** C8, as stated, fails: the embedding call of this retriever raises,
    and [retrieve] returns, besides the lexical hits, the injected case
    C2, which has neither a lexical nor a fused score; the boosted hit C1
    is returned with score 2/5, twice its fused score
    1/5 = 0.4 * 1/2. *)
Lemma C8_boost_stage_still_runs :
  embeddings_create inject_retriever (embedding_model inject_retriever) "misrepresentation"
  = Raise (Exception "EmbeddingFailed")
  /\ map (fun r => (doc_id r, option_map Qred (bm25_score r),
                    option_map Qred (combined_score r), Qred (score r), source r))
         (results_of (retrieve inject_retriever "misrepresentation" None true))
     = [("S", Some 1, Some (2 # 5), 2 # 5, None);
        ("C1", Some (1 # 2), Some (1 # 5), 2 # 5, None);
        ("C2", None, None, 28 # 75, Some "interpretation_link");
        ("X", Some 0, Some 0, 0, None)].
Proof. repeat split; vm_compute; reflexivity. Qed.

(** C8, amended.  If the embedding call raises, [_dense_search] returns
    the empty list after that one request: the error of the embedding
    call does not reach the caller.  With the boost stage off, [retrieve]
    returns, and every result has
    [score = bm25_weight * (normalized lexical score of its unit)], with a
    dense score of 0.0.  With the boost stage on, every result of a
    returned list either comes from fusion, and then its fused score
    ([combined_score]) is [bm25_weight] times the normalized lexical
    score of its unit with a dense score of 0.0 (its final [score] is
    that same number unless the boost stage multiplied it), or was
    injected by the boost stage and has no fused score; and since the
    link query of the boost stage is not guarded, [retrieve] raises what
    the database raises on it. *)
Theorem C8_embedding_failure_gives_lexical_ranking :
  forall (self : HybridRetriever) (query : string) (k : option Z)
         (use_interpretation_links : bool) (e : PyExn),
  embeddings_create self (embedding_model self) query = Raise e ->
  (forall k', _dense_search self query k'
              = (Ok [], [EmbeddingsCreate (embedding_model self) query]))
  /\ (use_interpretation_links && interpretation_boost_enabled (config self) = false ->
      exists out,
        outcome (retrieve self query k use_interpretation_links) = Ok out
        /\ forall r, In r out ->
             lexical_ranked self (lexical_hits self query) r
             /\ score r == bm25_weight (config self) * get bm25_score r)
  /\ (forall out,
        outcome (retrieve self query k use_interpretation_links) = Ok out ->
        forall r, In r out ->
          (lexical_ranked self (lexical_hits self query) r
           /\ (interpretive_boost r = None ->
               score r == bm25_weight (config self) * get bm25_score r))
          \/ (injected r /\ combined_score r = None))
  /\ (use_interpretation_links && interpretation_boost_enabled (config self) = true ->
      forall e',
        statute_ids_of (fused_results self query) <> [] ->
        db_error self (QueryInterpretationLinks (statute_ids_of (fused_results self query)))
        = Some e' ->
        outcome (retrieve self query k use_interpretation_links) = Raise e').
Proof.
  intros self query k use e Hfail.
  pose proof (fused_results_lexical self query Hfail) as Hlex.
  pose proof (fused_results_plain self query) as Hpm.
  rewrite Forall_forall in Hlex, Hpm.
  split; [intros k'; now apply dense_search_embedding_failed with (e := e) |].
  split; [| split].
  - intros Hoff. exists (final_results self k (fused_results self query)).
    rewrite retrieve_stages, (boost_stage_off self query use Hoff).
    split; [reflexivity |].
    intros r Hr. apply final_results_subset in Hr.
    destruct (Hlex r Hr) as [Hlo Hsc]. split; [exact Hlo | now rewrite Hsc].
  - intros out Hout r Hr.
    destruct (retrieve_returns self query k use Hout) as (b & Hb & ->).
    apply final_results_subset in Hr.
    destruct (boost_stage_returns self query use Hb) as (kept & added & -> & Hkept & Hadded).
    apply in_app_iff in Hr. destruct Hr as [Hr | Hr].
    + left. clear Hadded Hb Hout.
      set (ids := statute_ids_of (fused_results self query)) in *. clearbody ids.
      set (l := fused_results self query) in *. clearbody l.
      revert Hlex Hpm.
      induction Hkept as [| x x' xs xs' H _ IH]; [contradiction |].
      intros Hlex Hpm. destruct Hr as [<- | Hr].
      * destruct (Hlex x (or_introl eq_refl)) as [Hlo Hsc].
        destruct H as [-> | (link & _ & _ & ->)].
        -- split; [exact Hlo |]. intros _. now rewrite Hsc.
        -- split; [now apply lexical_ranked_set_boost | simpl; discriminate].
      * apply (IH Hr); intros y Hy; [apply Hlex | apply Hpm]; now right.
    + right. rewrite Forall_forall in Hadded.
      destruct (Hadded r Hr) as (link & doc & _ & _ & _ & _ & ->).
      split; reflexivity.
  - intros Hon e' Hne He'. rewrite retrieve_stages. cbn [outcome fst].
    unfold boost_stage. rewrite Hon.
    now rewrite (apply_boost_link_query_raises self _ query Hne He').
Qed.

Lemma C8_embedding_failure_witness :
  (exists out,
     outcome (retrieve inject_retriever "misrepresentation" None false) = Ok out
     /\ forall r, In r out ->
          lexical_ranked inject_retriever
            (lexical_hits inject_retriever "misrepresentation") r
          /\ score r == bm25_weight (config inject_retriever) * get bm25_score r)
  /\ map (fun r => (doc_id r, Qred (score r)))
         (results_of (retrieve inject_retriever "misrepresentation" None false))
     = [("S", 2 # 5); ("C1", 1 # 5); ("X", 0)]
  /\ outcome (retrieve link_store_down_retriever "misrepresentation" None true)
     = Raise (Exception "OperationalError").
Proof.
  split; [| split].
  - exact (proj1 (proj2 (@C8_embedding_failure_gives_lexical_ranking
                           inject_retriever "misrepresentation" None false _ eq_refl))
             eq_refl).
  - reflexivity.
  - apply (proj2 (proj2 (proj2 (@C8_embedding_failure_gives_lexical_ranking
                    link_store_down_retriever "misrepresentation" None true _ eq_refl)))).
    + reflexivity.
    + vm_compute. discriminate.
    + reflexivity.
Defined.

(** C10.  When both sub-searches return no hits, [retrieve] returns the
    empty list and none of its requests is the interpretation-link query. *)
Theorem C10_no_hits_no_link_query :
  forall (self : HybridRetriever) (query : string) (k : option Z)
         (use_interpretation_links : bool),
  outcome (_bm25_search self query 200) = Ok [] ->
  outcome (_dense_search self query 200) = Ok [] ->
  outcome (retrieve self query k use_interpretation_links) = Ok []
  /\ Forall not_link_query (requests (retrieve self query k use_interpretation_links)).
Proof.
  intros self query k use Hb Hd.
  assert (Hfused : fused_results self query = []).
  { unfold fused_results, results_of. now rewrite Hb, Hd. }
  rewrite retrieve_stages, (boost_stage_empty self query use Hfused).
  cbn [outcome requests fst snd].
  split.
  - f_equal. unfold final_results, _diversify_results, slice_to. simpl.
    destruct (diversification_enabled (config self)); [reflexivity |].
    destruct (int_or k (top_k (config self)) <? 0)%Z;
      first [reflexivity | apply firstn_nil].
  - rewrite app_nil_r. apply search_requests_not_link_queries.
Qed.

Lemma C10_no_hits_witness :
  outcome (retrieve empty_retriever "misrepresentation" None true) = Ok []
  /\ requests (retrieve empty_retriever "misrepresentation" None true)
     = [EsSearch "legal_documents" "misrepresentation" 200;
        EmbeddingsCreate "text-embedding-3-large" "misrepresentation"].
Proof.
  split.
  - exact (proj1 (C10_no_hits_no_link_query
                    empty_retriever "misrepresentation" None true eq_refl eq_refl)).
  - reflexivity.
Defined.

End RetrieverClaims.

Section RetrieveRanking.
Import Py Retrieval Ranking.
Local Open Scope string_scope.
Local Open Scope list_scope.

(** X1. Every list that [retrieve] returns is in non-increasing score
    order and, when the requested count [k] ([config.top_k] when [k] is
    omitted or 0) is positive, has at most [k] entries. *)
Theorem retrieve_at_most_k_descending :
  forall (self : HybridRetriever) (query : string) (k : option Z)
         (use_interpretation_links : bool) (out : list Result),
  outcome (retrieve self query k use_interpretation_links) = Ok out ->
  descending out
  /\ ((1 <= effective_k self k)%Z ->
      (Z.of_nat (List.length out) <= effective_k self k)%Z).
Proof.
  intros self query k use out Hout.
  destruct (retrieve_returns self query k use Hout) as (b & _ & ->).
  apply final_results_ranked.
Qed.

Lemma retrieve_at_most_k_witness :
  descending
    (results_of (retrieve Scenarios.diversified_retriever "misrepresentation"
                   (Some 2%Z) true))
  /\ ((1 <= effective_k Scenarios.diversified_retriever (Some 2%Z))%Z ->
      (Z.of_nat
         (List.length
            (results_of (retrieve Scenarios.diversified_retriever "misrepresentation"
                           (Some 2%Z) true)))
       <= effective_k Scenarios.diversified_retriever (Some 2%Z))%Z).
Proof.
  apply (@retrieve_at_most_k_descending
           Scenarios.diversified_retriever "misrepresentation" (Some 2%Z) true).
  reflexivity.
Defined.

End RetrieveRanking.

(** ** The whole query: no unit twice, and the switch for links *)
Section RetrieveUnits.
Import Py Sql Retrieval Ranking Boost BoostChecks.
Local Open Scope string_scope.
Local Open Scope list_scope.
Local Open Scope Q_scope.

Variable self : HybridRetriever.

Lemma diversify_loop_nodup (M k : Z) (todo : list Result) :
  forall counts acc,
    NoDup (map doc_id (acc ++ todo)) ->
    NoDup (map doc_id (diversify_loop M k todo counts acc)).
Proof.
  induction todo as [| x todo IH]; intros counts acc H; simpl.
  - now rewrite app_nil_r in H.
  - assert (Hkeep : forall c,
              NoDup (map doc_id
                (if (Z.of_nat (List.length (acc ++ [x])) >=? k)%Z
                 then acc ++ [x]
                 else diversify_loop M k todo c (acc ++ [x])))).
    { intros c. destruct (Z.of_nat _ >=? k)%Z.
      - replace (acc ++ x :: todo) with ((acc ++ [x]) ++ todo) in H
          by now rewrite <- app_assoc.
        rewrite map_app in H. now apply NoDup_app_remove_r in H.
      - apply IH. now rewrite <- app_assoc. }
    destruct (interprets_statute x) as [sid |].
    + destruct (count_get counts sid >=? M)%Z.
      * apply IH. rewrite map_app in *. simpl in H.
        now apply NoDup_remove_1 in H.
      * apply Hkeep.
    + apply Hkeep.
Qed.

Lemma final_results_nodup (k : option Z) (l : list Result) :
  NoDup (map doc_id l) -> NoDup (map doc_id (final_results self k l)).
Proof.
  intros H.
  assert (Hs : NoDup (map doc_id (sorted_desc score l))).
  { eapply Permutation_NoDup; [| exact H].
    apply Permutation_map. unfold sorted_desc. apply sort_by_perm. }
  unfold final_results. destruct (diversification_enabled (config self)).
  - unfold _diversify_results. now apply diversify_loop_nodup.
  - now apply slice_to_nodup_ids.
Qed.

Lemma linked_cases_typed_spec (results : list Result) (r : Result)
  (link : InterpretationLink.t) :
  linked_cases_typed self results = true ->
  In r results -> In link (interpretation_links self) ->
  InterpretationLink.case_id link = doc_id r -> doc_type r = "case".
Proof.
  unfold linked_cases_typed. rewrite forallb_forall. intros H Hr Hl Hc.
  apply H in Hr. apply orb_true_iff in Hr. destruct Hr as [Hr | Hr].
  - now apply String.eqb_eq.
  - exfalso. apply negb_true_iff in Hr.
    assert (Hex : existsb (for_case (doc_id r)) (interpretation_links self) = true).
    { apply existsb_exists. exists link. split; [assumption |].
      unfold for_case. now apply String.eqb_eq. }
    congruence.
Qed.

Lemma boost_keeps_units_distinct (results : list Result) (query : string)
  (out : list Result) :
  linked_cases_typed self results = true ->
  NoDup (map doc_id results) ->
  outcome (_apply_interpretation_boost self results query) = Ok out ->
  NoDup (map doc_id out).
Proof.
  intros Htyped Hnd E.
  destruct (apply_boost_spec self results query) as [_ H].
  rewrite E in H. destruct H as (kept & added & -> & H1 & H2 & H3 & _).
  destruct (boosted_from_ids H1) as [Hids Htypes].
  rewrite map_app. apply NoDup_app; [now rewrite Hids | assumption |].
  intros id Hkept Hadded.
  apply in_map_iff in Hadded. destruct Hadded as (a & Ha & Hain).
  rewrite Forall_forall in H2.
  destruct (H2 a Hain) as (link & doc & [[Hstored _] _] & Hnot & _ & Hdoc & ->).
  simpl in Ha. rewrite Hdoc in Ha. subst id.
  apply Hnot. unfold existing_case_ids.
  apply in_map_iff in Hkept. destruct Hkept as (r' & Hid & Hr').
  apply in_map_iff. exists r'. split; [assumption |].
  apply filter_In. split; [assumption |]. apply String.eqb_eq.
  (* the type of [r'] is the type of the result it was boosted from *)
  clear - H1 Hr' Hid Htyped Hstored.
  set (ids := statute_ids_of results) in H1. clearbody ids.
  assert (Hall : forall r, In r results ->
            InterpretationLink.case_id link = doc_id r -> doc_type r = "case").
  { intros r Hr Hc. eapply linked_cases_typed_spec; eassumption. }
  clear Htyped. induction H1 as [| r0 r0' rs rs' H _ IH]; [contradiction |].
  destruct Hr' as [<- | Hr'].
  - assert (Hsame : doc_id r0' = doc_id r0 /\ doc_type r0' = doc_type r0).
    { destruct H as [[-> _] | (l & _ & _ & ->)]; now split. }
    destruct Hsame as [Hi Ht]. rewrite Ht. apply Hall; [now left | congruence].
  - apply IH; [assumption |]. intros r Hr. apply Hall. now right.
Qed.

Lemma fused_results_nodup (query : string) :
  NoDup (map doc_id (fused_results self query)).
Proof. unfold fused_results. apply merge_results_shape. Qed.

(** X2. No list that [retrieve] returns has a unit twice, provided every
    fused result that a stored link names as its case is typed as a
    case. *)
Theorem retrieve_no_duplicate_units :
  forall (query : string) (k : option Z) (use_interpretation_links : bool)
         (out : list Result),
  linked_cases_typed self (fused_results self query) = true ->
  outcome (retrieve self query k use_interpretation_links) = Ok out ->
  NoDup (map doc_id out).
Proof.
  intros query k use out Htyped Hout.
  destruct (retrieve_returns self query k use Hout) as (b & Hb & ->).
  apply final_results_nodup.
  pose proof (fused_results_nodup query) as Hnd.
  unfold boost_stage in Hb.
  destruct (use && interpretation_boost_enabled (config self)).
  - eapply boost_keeps_units_distinct; eassumption.
  - injection Hb as <-. exact Hnd.
Qed.

(** X3. With links switched off, by the argument or by the configuration,
    [retrieve] returns the fused results, ranked and cut, sends no link
    query, and no result carries a mark of the boost stage. *)
Theorem retrieve_without_links_only_fuses :
  forall (query : string) (k : option Z) (use_interpretation_links : bool),
  use_interpretation_links && interpretation_boost_enabled (config self) = false ->
  outcome (retrieve self query k use_interpretation_links)
  = Ok (final_results self k (fused_results self query))
  /\ Forall plain (final_results self k (fused_results self query))
  /\ Forall not_link_query (requests (retrieve self query k use_interpretation_links)).
Proof.
  intros query k use Hoff.
  rewrite retrieve_stages, (boost_stage_off self query use Hoff).
  cbn [outcome requests fst snd].
  split; [reflexivity |]. split.
  - apply Forall_forall. intros r Hr. apply final_results_subset in Hr.
    pose proof (fused_results_plain self query) as Hpl.
    rewrite Forall_forall in Hpl. now apply Hpl.
  - rewrite app_nil_r. apply search_requests_not_link_queries.
Qed.

End RetrieveUnits.

Section RetrieveUnitsWitnesses.
Import Py Sql Retrieval Ranking Boost BoostChecks.
Local Open Scope string_scope.
Local Open Scope list_scope.
Local Open Scope Q_scope.

Lemma retrieve_no_duplicate_witness :
  NoDup (map doc_id
           (results_of (retrieve Scenarios.inject_retriever "misrepresentation" None true))).
Proof.
  apply (@retrieve_no_duplicate_units Scenarios.inject_retriever
           "misrepresentation" None true); reflexivity.
Defined.

Lemma retrieve_without_links_witness :
  outcome (retrieve Scenarios.inject_retriever "misrepresentation" None false)
  = Ok (final_results Scenarios.inject_retriever None
          (fused_results Scenarios.inject_retriever "misrepresentation"))
  /\ Forall plain
       (final_results Scenarios.inject_retriever None
          (fused_results Scenarios.inject_retriever "misrepresentation"))
  /\ Forall not_link_query
       (requests (retrieve Scenarios.inject_retriever "misrepresentation" None false)).
Proof.
  apply (retrieve_without_links_only_fuses Scenarios.inject_retriever). reflexivity.
Defined.

End RetrieveUnitsWitnesses.

(** ** The link query of the interpretation-aware retriever *)
Section AwareLinkFacts.
Import Py Sql Aware AwareLinks.
Local Open Scope string_scope.
Local Open Scope list_scope.
Local Open Scope Q_scope.

Variable self : InterpretationAwareRetriever.

Lemma rows_by_boost (l : list LinkRow) :
  StronglySorted row_by_boost (sort_by row_before l).
Proof.
  apply sort_by_sorted; unfold row_by_boost, row_before.
  - intros x y.
    destruct (Qeq_bool _ _) eqn:E.
    + intros _. apply Qeq_bool_iff in E. rewrite E. apply Qle_refl.
    + intros H. now apply Qle_bool_iff.
  - intros x y.
    destruct (Qeq_bool _ _) eqn:E.
    + intros _. apply Qeq_bool_iff in E. rewrite E. apply Qle_refl.
    + intros H. apply Qlt_le_weak, Qnot_le_lt. intros Hle.
      apply Qle_bool_iff in Hle. congruence.
  - intros x y z Hxy Hyz. eapply Qle_trans; eassumption.
Qed.

Lemma strongly_sorted_filter {A} (R : A -> A -> Prop) (p : A -> bool) (l : list A) :
  StronglySorted R l -> StronglySorted R (filter p l).
Proof.
  induction 1 as [| x l Hl IH Hx]; simpl; [constructor |].
  destruct (p x); [| exact IH].
  constructor; [exact IH |].
  apply Forall_forall. intros y Hy. apply filter_In in Hy.
  rewrite Forall_forall in Hx. now apply Hx.
Qed.

Lemma add_rows_get (rows : list LinkRow) :
  forall (m : dict (list LinkRow)) (k : string),
    dict_get (fold_left add_row rows m) k
    = match dict_get m k, filter (for_statute k) rows with
      | Some l, f => Some (l ++ f)
      | None, [] => None
      | None, f => Some f
      end.
Proof.
  induction rows as [| row rows IH]; intros m k; simpl.
  - destruct (dict_get m k); [now rewrite app_nil_r | reflexivity].
  - rewrite IH. unfold add_row, for_statute.
    destruct (dict_get m (row_statute_id row)) as [l0 |] eqn:E0;
      rewrite dict_get_set; rewrite (String.eqb_sym k);
      destruct (String.eqb (row_statute_id row) k) eqn:Ek.
    + apply String.eqb_eq in Ek. subst k. rewrite E0.
      now rewrite <- app_assoc.
    + reflexivity.
    + apply String.eqb_eq in Ek. subst k. rewrite E0. reflexivity.
    + reflexivity.
Qed.

Lemma add_rows_nodup (rows : list LinkRow) :
  NoDup (map fst (fold_left add_row rows [])).
Proof.
  apply fold_left_invariant; [constructor |].
  intros m row Hm _. unfold add_row.
  destruct (dict_get m (row_statute_id row)); now apply dict_set_nodup.
Qed.

Lemma link_rows_nil : link_rows self [] = [].
Proof.
  unfold link_rows.
  assert (H : filter (link_selected []) (interpretation_links self) = []).
  { induction (interpretation_links self) as [| l ls IH]; [reflexivity |].
    simpl. rewrite IH. unfold link_selected, sql_in. simpl.
    now destruct (InterpretationLink.verified l) as [[|]|]. }
  now rewrite H.
Qed.

(** The map that groups [rows] by statute. *)
Lemma add_rows_grouped (statute_ids : list string) :
  let m := fold_left add_row (link_rows self statute_ids) [] in
  NoDup (map fst m)
  /\ (forall k rows, In (k, rows) m -> strongest_first self statute_ids k rows)
  /\ (forall row, In row (link_rows self statute_ids) ->
        exists rows, In (row_statute_id row, rows) m /\ In row rows).
Proof.
  set (rows := link_rows self statute_ids). cbv zeta.
  split; [apply add_rows_nodup |]. split.
  - intros k group Hin.
    apply In_dict_get in Hin; [| apply add_rows_nodup].
    rewrite add_rows_get in Hin. simpl in Hin.
    destruct (filter (for_statute k) rows) as [| r0 rs] eqn:Ef; [discriminate |].
    injection Hin as <-. split; [now rewrite <- Ef |]. split; [discriminate |].
    rewrite <- Ef. apply strongly_sorted_filter. unfold rows, link_rows.
    apply rows_by_boost.
  - intros row Hrow.
    assert (Hf : In row (filter (for_statute (row_statute_id row)) rows)).
    { apply filter_In. split; [exact Hrow |]. unfold for_statute. apply String.eqb_refl. }
    pose proof (add_rows_get rows [] (row_statute_id row)) as Hg. simpl in Hg.
    destruct (filter (for_statute (row_statute_id row)) rows) as [| r0 rs] eqn:Ef;
      [contradiction |].
    exists (r0 :: rs). split; [| exact Hf].
    now apply dict_get_In.
Qed.

(** X12. Without statute ids [_get_interpretation_links] asks nothing and
    returns the empty map.  Otherwise it sends one link query, which is
    not guarded: when the database raises on it, the call raises the same
    exception.  Every map that the call returns groups all rows of the
    answer by statute, each statute once, every group non-empty and
    ordered by boost factor, highest first, so that the first
    [max_interpretive_per_statute] rows of a group are its strongest. *)
Theorem aware_links_grouped_strongest_first :
  forall statute_ids : list string,
  requests (_get_interpretation_links self statute_ids)
  = match statute_ids with
    | [] => []
    | _ => [QueryInterpretationLinks statute_ids]
    end
  /\ (statute_ids = [] ->
      outcome (_get_interpretation_links self statute_ids) = Ok [])
  /\ (forall e,
        statute_ids <> [] ->
        db_error self (QueryInterpretationLinks statute_ids) = Some e ->
        outcome (_get_interpretation_links self statute_ids) = Raise e)
  /\ (forall m,
        outcome (_get_interpretation_links self statute_ids) = Ok m ->
        NoDup (map fst m)
        /\ (forall k rows, In (k, rows) m -> strongest_first self statute_ids k rows)
        /\ (forall row, In row (link_rows self statute_ids) ->
              exists rows, In (row_statute_id row, rows) m /\ In row rows)).
Proof.
  intros statute_ids.
  pose proof (add_rows_grouped statute_ids) as Hgrouped. cbv zeta in Hgrouped.
  unfold _get_interpretation_links.
  destruct statute_ids as [| s ids].
  { split; [reflexivity |]. split; [reflexivity |].
    split; [intros e Hne; contradiction |].
    intros m [= <-]. rewrite link_rows_nil in *. exact Hgrouped. }
  fold (link_rows self (s :: ids)).
  destruct (aware_db_call_cases self (QueryInterpretationLinks (s :: ids))
              (link_rows self (s :: ids))) as [(e & He & E) | (He & E)].
  - rewrite (bind_raise _ E). cbn [outcome requests fst snd].
    split; [reflexivity |]. split; [discriminate |].
    split; [intros e' _ He'; congruence |].
    intros m [=].
  - rewrite (bind_ok _ E). cbn [outcome requests fst snd ret app].
    split; [reflexivity |]. split; [discriminate |].
    split; [intros e' _ He'; congruence |].
    intros m [= <-]. exact Hgrouped.
Qed.

End AwareLinkFacts.

(** ** The interpretation-aware retriever: order, size and distinct documents *)
Section AwareRankingFacts.
Import Py Sql Aware AwareRanking.
Local Open Scope string_scope.
Local Open Scope list_scope.
Local Open Scope Q_scope.

Variable self : InterpretationAwareRetriever.

Lemma aware_sorted_descending (l : list Candidate) : descending (sorted_desc score l).
Proof.
  unfold descending, sorted_desc. apply sort_by_sorted.
  - intros x y H. now apply Qle_bool_iff.
  - intros x y H. apply Qlt_le_weak. apply Qnot_le_lt. intros Hle.
    apply Qle_bool_iff in Hle. congruence.
  - intros x y z Hxy Hyz. eapply Qle_trans; eassumption.
Qed.

Lemma aware_diversify_descending (cap k : Z) (todo : list Candidate) :
  forall counts acc,
    descending (acc ++ todo) -> descending (diversify_loop cap k todo counts acc).
Proof.
  unfold descending.
  induction todo as [| x todo IH]; intros counts acc H; simpl.
  - now rewrite app_nil_r in H.
  - assert (Hkeep : forall c,
              StronglySorted (fun a b => score b <= score a)
                (if (Z.of_nat (List.length (acc ++ [x])) >=? k)%Z
                 then acc ++ [x]
                 else diversify_loop cap k todo c (acc ++ [x]))).
    { intros c. destruct (Z.of_nat _ >=? k)%Z.
      - apply strongly_sorted_prefix with (l2 := todo).
        now rewrite <- app_assoc.
      - apply IH. now rewrite <- app_assoc. }
    destruct (is_interpretive x).
    + destruct (interp_count counts (interprets_statute x) >=? cap)%Z.
      * apply IH. eapply strongly_sorted_drop. eassumption.
      * apply Hkeep.
    + apply Hkeep.
Qed.

Lemma aware_diversify_length (cap k : Z) (todo : list Candidate) :
  forall counts acc,
    (Z.of_nat (List.length acc) < k)%Z ->
    (Z.of_nat (List.length (diversify_loop cap k todo counts acc)) <= k)%Z.
Proof.
  induction todo as [| x todo IH]; intros counts acc H; simpl.
  - lia.
  - assert (Hkeep : forall c,
              (Z.of_nat (List.length
                 (if (Z.of_nat (List.length (acc ++ [x])) >=? k)%Z
                  then acc ++ [x]
                  else diversify_loop cap k todo c (acc ++ [x]))) <= k)%Z).
    { intros c. destruct (Z.of_nat (List.length (acc ++ [x])) >=? k)%Z eqn:E.
      - rewrite length_app. simpl. lia.
      - apply IH. rewrite Z.geb_leb in E. apply Z.leb_gt in E. exact E. }
    destruct (is_interpretive x).
    + destruct (interp_count counts (interprets_statute x) >=? cap)%Z;
        [now apply IH | apply Hkeep].
    + apply Hkeep.
Qed.

Lemma aware_diversify_nodup (cap k : Z) (todo : list Candidate) :
  forall counts acc,
    NoDup (map id (acc ++ todo)) ->
    NoDup (map id (diversify_loop cap k todo counts acc)).
Proof.
  induction todo as [| x todo IH]; intros counts acc H; simpl.
  - now rewrite app_nil_r in H.
  - assert (Hkeep : forall c,
              NoDup (map id
                (if (Z.of_nat (List.length (acc ++ [x])) >=? k)%Z
                 then acc ++ [x]
                 else diversify_loop cap k todo c (acc ++ [x])))).
    { intros c. destruct (Z.of_nat _ >=? k)%Z.
      - replace (acc ++ x :: todo) with ((acc ++ [x]) ++ todo) in H
          by now rewrite <- app_assoc.
        rewrite map_app in H. now apply NoDup_app_remove_r in H.
      - apply IH. now rewrite <- app_assoc. }
    destruct (is_interpretive x).
    + destruct (interp_count counts (interprets_statute x) >=? cap)%Z.
      * apply IH. rewrite map_app in *. simpl in H.
        now apply NoDup_remove_1 in H.
      * apply Hkeep.
    + apply Hkeep.
Qed.

Lemma diversify_and_rerank_ranked (candidates : list Candidate) (k : Z) :
  descending (_diversify_and_rerank self candidates k)
  /\ ((1 <= k)%Z ->
      (Z.of_nat (List.length (_diversify_and_rerank self candidates k)) <= k)%Z)
  /\ (NoDup (map id candidates) ->
      NoDup (map id (_diversify_and_rerank self candidates k))).
Proof.
  unfold _diversify_and_rerank. split; [| split].
  - apply aware_diversify_descending. simpl. apply aware_sorted_descending.
  - intros Hk. apply aware_diversify_length. simpl. lia.
  - intros Hnd. apply aware_diversify_nodup. simpl.
    eapply Permutation_NoDup; [| exact Hnd].
    apply Permutation_map. unfold sorted_desc. apply sort_by_perm.
Qed.

Lemma boost_first_ids (case_id statute_id : string) (row : LinkRow)
  (l : list Candidate) :
  map id (boost_first case_id statute_id row l) = map id l.
Proof.
  induction l as [| doc l IH]; simpl; [reflexivity |].
  destruct (String.eqb (id doc) case_id); simpl; [reflexivity | now rewrite IH].
Qed.

Lemma boost_case_distinct (existing_ids : list string) (statute_id : string)
  (statute_score : Q) (st : boost_state) (row : LinkRow) :
  distinct_state existing_ids st ->
  distinct_state existing_ids (boost_case self existing_ids statute_id statute_score st row).
Proof.
  destruct st as [bc added]. unfold distinct_state. simpl.
  intros [Hids Hnd]. unfold boost_case.
  destruct (mem (row_case_id row) existing_ids) eqn:Ee.
  - simpl. split; [now rewrite boost_first_ids | exact Hnd].
  - destruct (mem (row_case_id row) added) eqn:Ea; [now split |].
    simpl. split.
    + rewrite map_app, Hids. simpl. now rewrite app_assoc.
    + rewrite app_assoc. apply NoDup_app; [assumption | repeat constructor; auto |].
      intros x Hx [<- | []].
      apply in_app_or in Hx. destruct Hx as [Hx | Hx].
      * apply mem_In in Hx. congruence.
      * apply in_rev in Hx. apply mem_In in Hx. congruence.
Qed.

Lemma boost_statute_distinct (n : nat) (existing_ids : list string)
  (st : boost_state) (item : string * list LinkRow) :
  distinct_state existing_ids st ->
  distinct_state existing_ids (boost_statute self n existing_ids st item).
Proof.
  destruct item as [statute_id rows]. intros H. unfold boost_statute.
  apply fold_left_invariant; [exact H |].
  intros st' row Hst _. now apply boost_case_distinct.
Qed.

(** X13. The boost of the interpretation-aware retriever keeps the candidates
    where they are, under their own ids, and appends every linked case
    at most once: distinct candidates stay distinct, also after the
    diversification. *)
Theorem aware_boost_keeps_documents_distinct :
  forall (candidates : list Candidate) (interpretation_map : dict (list LinkRow)),
  NoDup (map id candidates) ->
  map id (firstn (List.length candidates)
            (_apply_interpretation_boost self candidates interpretation_map))
  = map id candidates
  /\ NoDup (map id (_apply_interpretation_boost self candidates interpretation_map))
  /\ forall k,
       NoDup (map id (_diversify_and_rerank self
                        (_apply_interpretation_boost self candidates interpretation_map)
                        k)).
Proof.
  intros candidates m Hnd.
  assert (Hmain :
    map id (firstn (List.length candidates)
              (_apply_interpretation_boost self candidates m))
    = map id candidates
    /\ NoDup (map id (_apply_interpretation_boost self candidates m))).
  2: { destruct Hmain as [H1 H2]. split; [exact H1 |]. split; [exact H2 |].
       intros k. now apply diversify_and_rerank_ranked. }
  unfold _apply_interpretation_boost.
  assert (H : distinct_state (map id candidates)
                (fold_left (boost_statute self (List.length candidates) (map id candidates))
                   m (candidates, []))).
  { apply fold_left_invariant.
    - split; simpl; rewrite app_nil_r; [reflexivity | assumption].
    - intros st item Hst _. now apply boost_statute_distinct. }
  destruct H as [Hids Hnd']. split.
  - rewrite <- firstn_map, Hids.
    rewrite <- (length_map id candidates).
    rewrite firstn_app, Nat.sub_diag, firstn_all. simpl. now rewrite app_nil_r.
  - now rewrite Hids.
Qed.

(** An exception of the link query leaves [retrieve] as it is. *)
Lemma aware_retrieve_link_query_raises (query : string) (k : option Z)
  (candidates : list Candidate) (e : PyExn) :
  outcome (_dense_search self query
             (effective_k self k * dense_k_multiplier (config self))%Z)
  = Ok candidates ->
  _extract_statute_ids candidates <> [] ->
  db_error self (QueryInterpretationLinks (_extract_statute_ids candidates)) = Some e ->
  outcome (retrieve self query k) = Raise e.
Proof.
  unfold retrieve, effective_k. intros Hd Hne He.
  destruct (_dense_search self query _) as [[cs | e0] evs] eqn:E; [| discriminate].
  simpl in Hd. injection Hd as ->.
  rewrite (bind_ok _ eq_refl). cbn [outcome fst].
  destruct candidates as [| c cs]; [contradiction |].
  unfold _get_interpretation_links.
  destruct (_extract_statute_ids (c :: cs)) as [| s ids]; [contradiction |].
  destruct (aware_db_call_cases self (QueryInterpretationLinks (s :: ids))
              (sort_by row_before
                 (flat_map (join_document self)
                    (filter (link_selected (s :: ids)) (interpretation_links self)))))
    as [(e' & He' & E') | (He' & _)]; [| congruence].
  rewrite (bind_raise _ E'). rewrite (bind_raise _ eq_refl). simpl. congruence.
Qed.

(** X11. Every list that [retrieve] of the interpretation-aware retriever
    returns is highest score first and, when the requested count [k]
    ([config.top_k] when [k] is omitted or 0) is positive, has at most
    [k] candidates.  None of its calls is guarded: an exception of the
    embedding call, of the index search or of the link query is raised
    to the caller. *)
Theorem aware_retrieval_ranked_and_bounded :
  forall (query : string) (k : option Z),
  (forall out,
     outcome (retrieve self query k) = Ok out ->
     descending out
     /\ ((1 <= effective_k self k)%Z ->
         (Z.of_nat (List.length out) <= effective_k self k)%Z))
  /\ (forall e,
        embeddings_create self (embedding_model self) query = Raise e ->
        outcome (retrieve self query k) = Raise e)
  /\ (forall emb e,
        embeddings_create self (embedding_model self) query = Ok emb ->
        faiss_search self emb (effective_k self k * dense_k_multiplier (config self))%Z
        = Raise e ->
        outcome (retrieve self query k) = Raise e)
  /\ (forall candidates e,
        outcome (_dense_search self query
                   (effective_k self k * dense_k_multiplier (config self))%Z)
        = Ok candidates ->
        _extract_statute_ids candidates <> [] ->
        db_error self (QueryInterpretationLinks (_extract_statute_ids candidates))
        = Some e ->
        outcome (retrieve self query k) = Raise e).
Proof.
  intros query k. split; [| split; [| split]].
  - intros out Hout. unfold effective_k.
    destruct (aware_retrieve_returns self query k Hout)
      as (cs & _ & _ & [[_ ->] | (m & _ & ->)]).
    + split; [constructor | simpl; lia].
    + destruct (diversify_and_rerank_ranked (_apply_interpretation_boost self cs m)
                  (int_or k (top_k (config self)))) as (Hd & Hl & _).
      split; assumption.
  - intros e He. now rewrite (aware_retrieve_embedding_raises self query k He).
  - intros emb e. apply aware_retrieve_index_raises.
  - intros candidates e. apply aware_retrieve_link_query_raises.
Qed.

End AwareRankingFacts.

Section AwareRankingWitnesses.
Import Py Sql Aware AwareRanking.
Local Open Scope string_scope.
Local Open Scope list_scope.
Local Open Scope Q_scope.

Lemma aware_boost_distinct_witness :
  map id (firstn (List.length linked_candidates)
            (_apply_interpretation_boost linked_retriever linked_candidates linked_map))
  = map id linked_candidates
  /\ NoDup (map id (_apply_interpretation_boost linked_retriever
                      linked_candidates linked_map))
  /\ forall k,
       NoDup (map id (_diversify_and_rerank linked_retriever
                        (_apply_interpretation_boost linked_retriever
                           linked_candidates linked_map) k)).
Proof.
  apply (aware_boost_keeps_documents_distinct linked_retriever).
  vm_compute. repeat constructor; simpl; intuition discriminate.
Defined.

Lemma aware_retrieval_ranked_witness :
  map id (candidates_of (retrieve linked_retriever "misrepresentation" (Some 2%Z)))
  = ["C2"; "S"]
  /\ descending (candidates_of (retrieve linked_retriever "misrepresentation" (Some 2%Z)))
  /\ ((1 <= effective_k linked_retriever (Some 2%Z))%Z ->
      (Z.of_nat
         (List.length
            (candidates_of (retrieve linked_retriever "misrepresentation" (Some 2%Z))))
       <= effective_k linked_retriever (Some 2%Z))%Z).
Proof.
  split; [reflexivity |].
  apply (proj1 (aware_retrieval_ranked_and_bounded linked_retriever "misrepresentation"
                  (Some 2%Z))).
  reflexivity.
Defined.

End AwareRankingWitnesses.

(** ** Database loader *)
Section LoaderFacts.
Import Py Loader.
Local Open Scope string_scope.
Local Open Scope list_scope.
Local Open Scope Z_scope.

Lemma hash_present_violation (rows : list Document.t) (doc : ParsedDocument) :
  hash_present rows doc -> hash_violation rows (db_doc_of doc) = true.
Proof.
  intros (row & Hin & Hh). unfold hash_violation. simpl.
  apply existsb_exists. exists row. split; [assumption |].
  rewrite Hh. apply String.eqb_refl.
Qed.

(** Loading a document whose hash is already in the table (or among the
    rows flushed so far) inserts nothing: the flush raises, the
    transaction is rolled back, and a skip is recorded, whatever
    [allow_duplicates] says. *)
Lemma load_single_document_duplicate_hash (self : PostgresLoader)
  (session : Session) (doc : ParsedDocument) (result : IngestionResult) :
  hash_present (visible session) doc ->
  exists reason,
    _load_single_document self session doc result
    = Ok (rollback session, add_skip result (id doc) reason).
Proof.
  intros H. apply hash_present_violation in H.
  unfold _load_single_document, add_and_flush.
  destruct (pk_violation (visible session) (db_doc_of doc)).
  - eexists. reflexivity.
  - rewrite H. eexists. reflexivity.
Qed.

Lemma load_each_all_present (self : PostgresLoader) (table : list Document.t)
  (batch : list ParsedDocument) :
  (forall doc, In doc batch -> hash_present table doc) ->
  forall result,
  exists result',
    load_each self batch {| committed := table; flushed := [] |} result
    = ({| committed := table; flushed := [] |}, result')
    /\ inserted result' = inserted result.
Proof.
  induction batch as [| doc batch IH]; intros Hall result; simpl.
  - now exists result.
  - assert (Hp : hash_present (visible {| committed := table; flushed := [] |}) doc).
    { unfold visible. simpl. rewrite app_nil_r. apply Hall. now left. }
    destruct (@load_single_document_duplicate_hash self _ doc result Hp) as (reason & ->).
    unfold rollback. simpl.
    destruct (IH (fun d Hd => Hall d (or_intror Hd))
                 (add_skip result (id doc) reason)) as (result' & E & Hins).
    exists result'. split; assumption.
Qed.

Lemma load_batch_all_present (self : PostgresLoader) (table : list Document.t)
  (batch : list ParsedDocument) (result : IngestionResult) :
  (forall doc, In doc batch -> hash_present table doc) ->
  exists result',
    _load_batch self table batch result = (table, result')
    /\ inserted result' = inserted result.
Proof.
  intros Hall. unfold _load_batch.
  assert (Hsorted : forall doc, In doc (sorted_by_level batch) -> hash_present table doc).
  { intros doc Hd. apply Hall. unfold sorted_by_level in Hd.
    now apply sort_by_In in Hd. }
  destruct (@load_each_all_present self table _ Hsorted result) as (result' & E & Hins).
  rewrite E. exists result'. simpl. rewrite app_nil_r. split; auto.
Qed.

Lemma skipn_subset {A} (n : nat) (l : list A) (x : A) :
  In x (skipn n l) -> In x l.
Proof.
  revert l. induction n as [| n IH]; intros [| y l]; simpl; auto.
Qed.

Lemma batches_subset {A} (fuel n : nat) (l : list A) (b : list A) (x : A) :
  In b (batches fuel n l) -> In x b -> In x l.
Proof.
  revert l. induction fuel as [| fuel IH]; intros l; destruct l as [| y l];
    simpl; try tauto.
  intros [<- | Hb] Hx.
  - destruct n; simpl in Hx; [contradiction |].
    destruct Hx as [-> | Hx]; [now left | right; now apply firstn_subset in Hx].
  - specialize (IH _ Hb Hx). destruct n; simpl in IH; [exact IH |].
    right. now apply skipn_subset in IH.
Qed.

Lemma load_batches_all_present (self : PostgresLoader) (table : list Document.t)
  (bs : list (list ParsedDocument)) :
  (forall b doc, In b bs -> In doc b -> hash_present table doc) ->
  forall result,
  exists result',
    load_batches self bs table result = (table, result')
    /\ inserted result' = inserted result.
Proof.
  induction bs as [| b bs IH]; intros Hall result; simpl.
  - now exists result.
  - assert (Hb : forall doc, In doc b -> hash_present table doc).
    { intros doc Hd. apply (Hall b); [now left | assumption]. }
    destruct (@load_batch_all_present self table b result Hb) as (r1 & E1 & H1).
    rewrite E1.
    destruct (IH (fun b' d Hb Hd => Hall b' d (or_intror Hb) Hd) r1)
      as (r2 & E2 & H2).
    exists r2. split; [assumption | congruence].
Qed.

(** When the hash of every document of the source is already in the
    table, [load_documents] leaves the table as it is and counts no
    insertion. *)
Lemma load_documents_all_present (self : PostgresLoader)
  (table : list Document.t) (documents : list ParsedDocument) (batch_size : Z) :
  batch_size <> 0 ->
  (forall doc, In doc documents -> hash_present table doc) ->
  exists result,
    load_documents self table documents batch_size = Ok (table, result)
    /\ inserted result = 0.
Proof.
  intros Hbs Hall. unfold load_documents.
  apply Z.eqb_neq in Hbs. rewrite Hbs.
  set (r0 := mkResult _ _ _ _ _ _ _ _).
  set (bs := if batch_size <? 0 then [] else _).
  assert (Hbs' : forall b doc, In b bs -> In doc b -> hash_present table doc).
  { intros b doc Hb Hd. apply Hall. unfold bs in Hb.
    destruct (batch_size <? 0); [contradiction |].
    eapply batches_subset; eassumption. }
  destruct (@load_batches_all_present self table bs Hbs' r0) as (r & E & Hins).
  rewrite E. eexists. split; [reflexivity |].
  destruct (errors r >? 0); simpl; exact Hins.
Qed.

(** C6.  The claim concludes that a second ingestion of the same source
    inserts no new document.  On [source_abc] with batches of 2 it does:
    in the first run the duplicate hash of [doc_b] raises, and the
    rollback also undoes the flushed insert of [doc_a], which was already
    counted as inserted; [doc_c] then takes the id of [doc_a].  In the
    second run [doc_a] is rejected by the primary key, so [doc_b] meets no
    row with its hash and is inserted. *)
Theorem C6_second_ingestion_inserts_a_document :
  map Document.id (ingest [] source_abc 2) = ["sg_statute_act_s1"]
  /\ map Document.hash (ingest [] source_abc 2) = [Some "h_short_title"]
  /\ option_map (fun tr => (inserted (snd tr), skipped (snd tr)))
       (match load_documents default_loader [] source_abc 2 with
        | Ok tr => Some tr
        | Raise _ => None
        end) = Some (2, 1)
  /\ map Document.id (ingest (ingest [] source_abc 2) source_abc 2)
     = ["sg_statute_act_s1"; "sg_statute_act_s2"]
  /\ option_map (fun tr => (inserted (snd tr), skipped (snd tr)))
       (match load_documents default_loader (ingest [] source_abc 2) source_abc 2 with
        | Ok tr => Some tr
        | Raise _ => None
        end) = Some (1, 2)
  /\ allow_duplicates default_loader = false.
Proof. repeat split; vm_compute; reflexivity. Qed.

End LoaderFacts.

(** ** The loader's accounting *)
Section LoaderAccounting.
Import Py Loader LoaderChecks.
Local Open Scope string_scope.
Local Open Scope list_scope.
Local Open Scope Z_scope.

Variable self : PostgresLoader.

Lemma counted_nil (r : IngestionResult) : counted [] r r.
Proof.
  unfold counted. simpl. repeat split; auto; try lia; intros d [].
Qed.

Lemma counted_app (docs1 docs2 : list ParsedDocument) (r r1 r2 : IngestionResult) :
  counted docs1 r r1 -> counted docs2 r1 r2 -> counted (docs1 ++ docs2) r r2.
Proof.
  intros (A1 & A2 & A3 & A4 & A5 & A6 & A7 & A8 & A9)
         (B1 & B2 & B3 & B4 & B5 & B6 & B7 & B8 & B9).
  unfold counted. rewrite length_app, Nat2Z.inj_add.
  split; [lia |]. split; [lia |]. split; [congruence |].
  split; [congruence |]. split; [congruence |].
  split; [auto |]. split; [auto |]. split.
  - intros d Hd. apply in_app_or in Hd. destruct Hd as [Hd | Hd].
    + destruct (A8 d Hd); [left | right]; auto.
    + now apply B8.
  - intros d Hd Hl. apply in_app_or in Hd. destruct Hd as [Hd | Hd].
    + apply B7. now apply A9.
    + now apply B9.
Qed.

Lemma counted_perm (docs docs' : list ParsedDocument) (r r' : IngestionResult) :
  Permutation docs docs' -> counted docs r r' -> counted docs' r r'.
Proof.
  intros Hp (A1 & A2 & A3 & A4 & A5 & A6 & A7 & A8 & A9).
  unfold counted. rewrite <- (Permutation_length Hp).
  repeat split; auto.
  - intros d Hd. apply A8. eapply Permutation_in; [apply Permutation_sym |]; eassumption.
  - intros d Hd. apply A9. eapply Permutation_in; [apply Permutation_sym |]; eassumption.
Qed.

Lemma stored_from_mono (docs docs' : list ParsedDocument) (r r' : IngestionResult)
  (row : Document.t) :
  (forall d, In d docs -> In d docs') ->
  (forall x, In x (inserted_ids r) -> In x (inserted_ids r')) ->
  stored_from docs r row -> stored_from docs' r' row.
Proof.
  intros Hd Hi (d & H1 & H2 & H3). exists d. auto.
Qed.

(** One document: it is flushed and counted as inserted, or the flush
    raises [IntegrityError], the transaction is rolled back and the
    document is counted as skipped. *)
Lemma load_single_document_cases (session : Session) (doc : ParsedDocument)
  (result : IngestionResult) :
  (level_violation (db_doc_of doc) = false
   /\ _load_single_document self session doc result
      = Ok ({| committed := committed session;
               flushed := flushed session ++ [db_doc_of doc] |},
            add_success result (id doc)))
  \/ exists reason,
       _load_single_document self session doc result
       = Ok (rollback session, add_skip result (id doc) reason).
Proof.
  unfold _load_single_document, add_and_flush.
  destruct (pk_violation _ _); [right; eexists; reflexivity |].
  destruct (hash_violation _ _); [right; eexists; reflexivity |].
  destruct (fk_violation _ _); [right; eexists; reflexivity |].
  destruct (level_violation _) eqn:E; [right; eexists; reflexivity |].
  left. now split.
Qed.

Lemma load_each_counted (batch : list ParsedDocument) :
  forall (session : Session) (result : IngestionResult),
  exists session' result',
    load_each self batch session result = (session', result')
    /\ committed session' = committed session
    /\ counted batch result result'
    /\ Z.of_nat (List.length (flushed session'))
       <= Z.of_nat (List.length (flushed session)) + (inserted result' - inserted result)
    /\ (forall row, In row (flushed session') ->
          In row (flushed session) \/ stored_from batch result' row).
Proof.
  induction batch as [| doc batch IH]; intros session result.
  - exists session, result. simpl.
    split; [reflexivity |]. split; [reflexivity |]. split; [apply counted_nil |].
    split; [lia | auto].
  - cbn [load_each].
    destruct (load_single_document_cases session doc result) as [[Hlv E] | [reason E]];
      rewrite E.
    + destruct (IH {| committed := committed session;
                      flushed := flushed session ++ [db_doc_of doc] |}
                   (add_success result (id doc)))
        as (s' & r' & E' & Hc & Hcount & Hlen & Hrows).
      exists s', r'. split; [exact E' |]. split; [exact Hc |].
      destruct Hcount as (A1 & A2 & A3 & A4 & A5 & A6 & A7 & A8 & A9).
      simpl in *. rewrite length_app in Hlen. simpl in Hlen.
      split; [| split].
      * unfold counted. simpl.
        split; [lia |]. split; [lia |]. split; [assumption |].
        split; [assumption |]. split; [assumption |].
        split; [intros x Hx; apply A6, in_or_app; now left |].
        split; [assumption |]. split.
        -- intros d [<- | Hd]; [| now apply A8].
           left. apply A6, in_or_app. right. now left.
        -- intros d [<- | Hd] Hl; [congruence | now apply A9].
      * lia.
      * intros row Hrow. destruct (Hrows row Hrow) as [H | H].
        -- apply in_app_or in H. destruct H as [H | [<- | []]]; [now left |].
           right. exists doc. split; [now left |]. split; [reflexivity |].
           apply A6, in_or_app. right. now left.
        -- right. eapply stored_from_mono; [| | exact H]; auto.
           intros d Hd. now right.
    + destruct (IH (rollback session) (add_skip result (id doc) reason))
        as (s' & r' & E' & Hc & Hcount & Hlen & Hrows).
      exists s', r'. split; [exact E' |]. split; [exact Hc |].
      destruct Hcount as (A1 & A2 & A3 & A4 & A5 & A6 & A7 & A8 & A9).
      simpl in *.
      split; [| split].
      * unfold counted. simpl.
        split; [lia |]. split; [lia |]. split; [assumption |].
        split; [assumption |]. split; [assumption |].
        split; [assumption |].
        split; [intros x Hx; apply A7, in_or_app; now left |]. split.
        -- intros d [<- | Hd]; [| now apply A8].
           right. apply A7, in_or_app. right. now left.
        -- intros d [<- | Hd] Hl; [| now apply A9].
           apply A7, in_or_app. right. now left.
      * lia.
      * intros row Hrow. destruct (Hrows row Hrow) as [[] | H].
        right. eapply stored_from_mono; [| | exact H]; auto.
        intros d Hd. now right.
Qed.

Lemma load_batch_counted (table : list Document.t) (batch : list ParsedDocument)
  (result : IngestionResult) :
  exists table' result',
    _load_batch self table batch result = (table', result')
    /\ counted batch result result'
    /\ grown batch table table' result result'.
Proof.
  unfold _load_batch.
  destruct (load_each_counted (sorted_by_level batch)
              {| committed := table; flushed := [] |} result)
    as (s' & r' & E & Hc & Hcount & Hlen & Hrows).
  rewrite E. exists (committed (commit s')), r'.
  split; [reflexivity |].
  assert (Hperm : Permutation (sorted_by_level batch) batch).
  { apply Permutation_sym. unfold sorted_by_level. apply sort_by_perm. }
  split; [now apply (counted_perm Hperm) |].
  exists (flushed s'). simpl in *. rewrite Hc.
  split; [reflexivity |]. split; [lia |].
  apply Forall_forall. intros row Hrow.
  destruct (Hrows row Hrow) as [[] | H].
  eapply stored_from_mono; [| | exact H]; auto.
  intros d Hd. eapply Permutation_in; eassumption.
Qed.

Lemma load_batches_counted (bs : list (list ParsedDocument)) :
  forall (table : list Document.t) (result : IngestionResult),
  exists table' result',
    load_batches self bs table result = (table', result')
    /\ counted (List.concat bs) result result'
    /\ grown (List.concat bs) table table' result result'.
Proof.
  induction bs as [| b bs IH]; intros table result.
  - exists table, result. simpl. split; [reflexivity |].
    split; [apply counted_nil |].
    exists []. rewrite app_nil_r. split; [reflexivity |]. split; [simpl; lia | constructor].
  - cbn [load_batches List.concat].
    destruct (load_batch_counted table b result) as (t1 & r1 & E1 & C1 & G1).
    rewrite E1.
    destruct (IH t1 r1) as (t2 & r2 & E2 & C2 & G2).
    exists t2, r2. split; [exact E2 |].
    split; [now apply (counted_app C1 C2) |].
    destruct G1 as (a1 & -> & L1 & F1). destruct G2 as (a2 & -> & L2 & F2).
    exists (a1 ++ a2). rewrite <- app_assoc. split; [reflexivity |].
    rewrite length_app, Nat2Z.inj_add. split; [lia |].
    destruct C2 as (_ & _ & _ & _ & _ & A6 & _).
    apply Forall_app. split.
    + eapply Forall_impl; [| exact F1]. intros row H.
      eapply stored_from_mono; [| | exact H]; auto.
      intros d Hd. apply in_or_app. now left.
    + eapply Forall_impl; [| exact F2]. intros row H.
      eapply stored_from_mono; [| | exact H]; auto.
      intros d Hd. apply in_or_app. now right.
Qed.

Lemma batches_concat {A} (n : nat) :
  (0 < n)%nat ->
  forall (fuel : nat) (l : list A),
    (List.length l <= fuel)%nat -> List.concat (batches fuel n l) = l.
Proof.
  intros Hn. induction fuel as [| fuel IH]; intros l Hl.
  - destruct l; [reflexivity | simpl in Hl; lia].
  - destruct l as [| x l]; [reflexivity |].
    cbn [batches List.concat]. rewrite IH.
    + apply firstn_skipn.
    + rewrite length_skipn. cbn [List.length] in *. lia.
Qed.

Lemma load_documents_counted (table : list Document.t)
  (documents : list ParsedDocument) (batch_size : Z) :
  batch_size <> 0 ->
  exists table' result,
    load_documents self table documents batch_size = Ok (table', result)
    /\ status result = "success"
    /\ errors result = 0
    /\ total_documents result = Z.of_nat (List.length documents)
    /\ inserted result + skipped result
       = (if batch_size >? 0 then total_documents result else 0)
    /\ grown documents table table' (fresh_result (List.length documents)) result
    /\ (0 < batch_size ->
        forall d, In d documents ->
          (In (id d) (inserted_ids result) \/ In (id d) (skipped_ids result))
          /\ (level_violation (db_doc_of d) = true -> In (id d) (skipped_ids result))).
Proof.
  intros Hne. unfold load_documents.
  apply Z.eqb_neq in Hne. rewrite Hne.
  fold (fresh_result (List.length documents)).
  set (r0 := fresh_result (List.length documents)).
  set (bs := if batch_size <? 0 then [] else _).
  destruct (load_batches_counted bs table r0) as (t' & r' & E & C & G).
  rewrite E.
  destruct C as (A1 & A2 & A3 & A4 & A5 & A6 & A7 & A8 & A9).
  assert (He : (errors r' >? 0) = false) by (rewrite A3; reflexivity).
  rewrite He. exists t', r'.
  assert (Hbs : List.concat bs = if batch_size <? 0 then [] else documents).
  { unfold bs. destruct (batch_size <? 0) eqn:Eneg; [reflexivity |].
    apply batches_concat; [| lia].
    apply Z.ltb_ge in Eneg. apply Z.eqb_neq in Hne. lia. }
  split; [reflexivity |]. split; [exact A4 |]. split; [exact A3 |].
  split; [exact A5 |]. split.
  { rewrite A1, A5, Hbs. simpl.
    destruct (batch_size <? 0) eqn:Eneg.
    - apply Z.ltb_lt in Eneg.
      destruct (batch_size >? 0) eqn:Epos; [apply Z.gtb_lt in Epos; lia | reflexivity].
    - apply Z.ltb_ge in Eneg. apply Z.eqb_neq in Hne.
      destruct (batch_size >? 0) eqn:Epos; [lia |].
      assert (~ batch_size > 0) by (rewrite Z.gtb_ltb in Epos; apply Z.ltb_ge in Epos; lia).
      lia. }
  split.
  { destruct G as (added & -> & L & F). exists added.
    split; [reflexivity |]. split; [exact L |].
    eapply Forall_impl; [| exact F]. intros row H.
    eapply stored_from_mono; [| | exact H]; auto.
    intros d Hd. rewrite Hbs in Hd.
    destruct (batch_size <? 0); [contradiction | assumption]. }
  intros Hpos d Hd.
  assert (Hd' : In d (List.concat bs)).
  { rewrite Hbs. destruct (batch_size <? 0) eqn:Eneg; [| assumption].
    apply Z.ltb_lt in Eneg. lia. }
  split; [now apply A8 | now apply A9].
Qed.

(** X17. [load_documents] raises [ValueError] for a batch size of 0 and
    otherwise returns.  For a positive batch size every document is
    counted exactly once, as inserted or as skipped; for a negative one
    nothing is loaded and nothing is counted.  In both cases no error is
    counted and the status stays "success" however many documents were
    skipped, the table keeps all its rows, and it gains only rows of
    documents reported as inserted, at most as many as that count; a
    document whose level is outside 0..3 is always among the skipped. *)
Theorem load_documents_accounting :
  forall (table : list Document.t) (documents : list ParsedDocument) (batch_size : Z),
  (batch_size = 0 ->
   load_documents self table documents batch_size
   = Raise (ValueError "range() arg 3 must not be zero"))
  /\ (batch_size <> 0 ->
      exists table' result,
        load_documents self table documents batch_size = Ok (table', result)
        /\ status result = "success"
        /\ errors result = 0
        /\ total_documents result = Z.of_nat (List.length documents)
        /\ inserted result + skipped result
           = (if batch_size >? 0 then total_documents result else 0)
        /\ grown documents table table' (fresh_result (List.length documents)) result
        /\ (0 < batch_size ->
            forall d, In d documents ->
              (In (id d) (inserted_ids result) \/ In (id d) (skipped_ids result))
              /\ (level_violation (db_doc_of d) = true -> In (id d) (skipped_ids result)))).
Proof.
  intros table documents batch_size. split.
  - intros ->. reflexivity.
  - apply load_documents_counted.
Qed.

(** X18. Against a database that rejects a flush only with
    [IntegrityError] (every value fits its column, so no flush fails on
    a length or a type): loading documents whose content hashes are all
    in the table already leaves the table as it is and reports every
    document as skipped and none as inserted, whatever the loader's
    flags say. *)
Theorem reload_changes_nothing :
  forall (table : list Document.t) (documents : list ParsedDocument) (batch_size : Z),
  0 < batch_size ->
  (forall doc, In doc documents -> hash_present table doc) ->
  exists result,
    load_documents self table documents batch_size = Ok (table, result)
    /\ inserted result = 0
    /\ skipped result = Z.of_nat (List.length documents)
    /\ status result = "success".
Proof.
  intros table documents batch_size Hpos Hall.
  assert (Hne : batch_size <> 0) by lia.
  destruct (@load_documents_all_present self table documents batch_size Hne Hall)
    as (result & E & Hins).
  destruct (load_documents_counted table documents Hne)
    as (t' & r' & E' & Hst & _ & Htot & Hsum & _).
  rewrite E in E'. injection E' as <- <-.
  exists result. split; [exact E |]. split; [exact Hins |].
  split; [| exact Hst].
  assert (Hgt : (batch_size >? 0) = true) by (apply Z.gtb_lt; lia).
  rewrite Hgt in Hsum. lia.
Qed.

End LoaderAccounting.

Section LoaderAccountingWitness.
Import Py Loader LoaderChecks.
Local Open Scope string_scope.
Local Open Scope list_scope.
Local Open Scope Z_scope.

Lemma reload_changes_nothing_witness :
  exists result,
    load_documents default_loader [db_doc_of doc_a] [doc_a; doc_b] 2
    = Ok ([db_doc_of doc_a], result)
    /\ inserted result = 0
    /\ skipped result = Z.of_nat (List.length [doc_a; doc_b])
    /\ status result = "success".
Proof.
  apply (reload_changes_nothing default_loader).
  - reflexivity.
  - intros doc [<- | [<- | []]]; exists (db_doc_of doc_a);
      (split; [now left | reflexivity]).
Defined.

End LoaderAccountingWitness.

(** ** Parent references after a load *)
Section LoaderParents.
Import Py Sql Loader LoaderChecks TreeIntegrity.
Local Open Scope string_scope.
Local Open Scope list_scope.
Local Open Scope Z_scope.

Variable self : PostgresLoader.

Lemma orphaned_resolved (rows : list Document.t) :
  orphaned rows = [] <-> resolved rows.
Proof.
  unfold orphaned, resolved. split.
  - intros H d p Hd Hp.
    destruct (mem p (map Document.id rows)) eqn:Em; [now apply mem_In |].
    exfalso.
    assert (Hin : In d (filter (orphan_filter rows) rows)).
    { apply filter_In. split; [assumption |].
      unfold orphan_filter, sql_in. rewrite Hp. simpl. now rewrite Em. }
    rewrite H in Hin. contradiction.
  - intros H.
    destruct (filter (orphan_filter rows) rows) as [| d l] eqn:E; [reflexivity |].
    exfalso.
    assert (Hin : In d (filter (orphan_filter rows) rows)) by (rewrite E; now left).
    apply filter_In in Hin. destruct Hin as [Hd Hf].
    unfold orphan_filter, sql_in in Hf.
    destruct (Document.parent_id d) as [p |] eqn:Hp; [| discriminate].
    simpl in Hf. apply (H d p Hd) in Hp. apply mem_In in Hp.
    rewrite Hp in Hf. discriminate.
Qed.

Lemma flush_resolved (s s' : Session) (d : Document.t) :
  resolved (visible s) -> add_and_flush s d = Ok s' ->
  committed s' = committed s /\ resolved (visible s').
Proof.
  intros Hres. unfold add_and_flush.
  destruct (pk_violation _ _); [discriminate |].
  destruct (hash_violation _ _); [discriminate |].
  destruct (fk_violation _ _) eqn:Efk; [discriminate |].
  destruct (level_violation _); [discriminate |].
  intros [= <-]. split; [reflexivity |].
  unfold visible in *. simpl. rewrite app_assoc.
  intros x p Hx Hp. rewrite map_app. apply in_app_or in Hx.
  destruct Hx as [Hx | [<- | []]].
  - apply in_or_app. left. eapply Hres; eassumption.
  - unfold fk_violation in Efk. rewrite Hp in Efk.
    apply negb_false_iff in Efk. apply existsb_exists in Efk.
    destruct Efk as (r & Hr & Heq). apply String.eqb_eq in Heq. subst p.
    destruct Hr as [<- | Hr].
    + apply in_or_app. right. now left.
    + apply in_or_app. left. now apply in_map.
Qed.

Lemma load_each_resolved (batch : list ParsedDocument) :
  forall (session : Session) (result : IngestionResult),
    resolved (committed session) -> resolved (visible session) ->
    resolved (visible (fst (load_each self batch session result))).
Proof.
  induction batch as [| doc batch IH]; intros session result Hc Hv; [exact Hv |].
  cbn [load_each]. unfold _load_single_document.
  destruct (add_and_flush session (db_doc_of doc)) as [s' | e] eqn:E.
  - destruct (@flush_resolved session s' (db_doc_of doc) Hv E) as [Hc' Hv'].
    apply IH; [now rewrite Hc' | assumption].
  - assert (Hr : resolved (visible (rollback session))).
    { unfold visible, rollback. simpl. now rewrite app_nil_r. }
    destruct e; apply IH; auto.
Qed.

Lemma load_batch_resolved (table : list Document.t) (batch : list ParsedDocument)
  (result : IngestionResult) :
  resolved table -> resolved (fst (_load_batch self table batch result)).
Proof.
  intros H. unfold _load_batch.
  pose proof (@load_each_resolved (sorted_by_level batch)
                {| committed := table; flushed := [] |} result) as Hl.
  destruct (load_each self (sorted_by_level batch) _ result) as [s' r'].
  simpl in *. apply Hl; [assumption |].
  unfold visible. simpl. now rewrite app_nil_r.
Qed.

Lemma load_batches_resolved (bs : list (list ParsedDocument)) :
  forall (table : list Document.t) (result : IngestionResult),
    resolved table -> resolved (fst (load_batches self bs table result)).
Proof.
  induction bs as [| b bs IH]; intros table result H; [exact H |].
  cbn [load_batches].
  pose proof (@load_batch_resolved table b result H) as Hb.
  destruct (_load_batch self table b result) as [t1 r1]. now apply IH.
Qed.

(** X19. If the integrity check finds no orphan in the table before a load,
    it finds none after it: the only errors it can report on the loaded
    table are level mismatches. *)
Theorem load_documents_leaves_no_orphan :
  forall (table : list Document.t) (documents : list ParsedDocument) (batch_size : Z),
  orphaned table = [] ->
  batch_size <> 0 ->
  exists table' result,
    load_documents self table documents batch_size = Ok (table', result)
    /\ orphaned table' = []
    /\ validate_tree_integrity table'
       = flat_map (level_mismatch table') (docs_with_parents table').
Proof.
  intros table documents batch_size Horph Hne.
  apply orphaned_resolved in Horph.
  unfold load_documents. apply Z.eqb_neq in Hne. rewrite Hne.
  set (r0 := mkResult _ _ _ _ _ _ _ _).
  set (bs := if batch_size <? 0 then [] else _).
  pose proof (@load_batches_resolved bs table r0 Horph) as Hres.
  destruct (load_batches self bs table r0) as [t' r'].
  eexists; eexists. split; [reflexivity |].
  simpl in Hres. apply orphaned_resolved in Hres.
  split; [exact Hres |].
  unfold validate_tree_integrity. now rewrite Hres.
Qed.

End LoaderParents.

Section LoaderParentsWitness.
Import Py Sql Loader LoaderChecks TreeIntegrity.
Local Open Scope string_scope.
Local Open Scope list_scope.
Local Open Scope Z_scope.

Lemma load_documents_no_orphan_witness :
  exists table' result,
    load_documents default_loader [] LoaderScenarios.tree_source 2
    = Ok (table', result)
    /\ orphaned table' = []
    /\ validate_tree_integrity table'
       = flat_map (level_mismatch table') (docs_with_parents table').
Proof.
  apply (load_documents_leaves_no_orphan default_loader [] LoaderScenarios.tree_source).
  - reflexivity.
  - discriminate.
Defined.

End LoaderParentsWitness.
